(** * Execution-control gate: a shallow embedding of the reference runtime

    The development follows the Python sources of the reference runtime
    ([app/hashing.py], [app/enforce.py], [app/gate.py], [app/models.py]).
    Python values are modelled as they are at run time: [str] is a sequence
    of Unicode code points, [bytes] a sequence of octets, [int] is unbounded,
    a [dict] keeps its insertion order, and a raised exception is an explicit
    outcome. The limits of the interpreter (the recursion depth of the JSON
    decoder and encoder, the digit limit of [int] conversions, memory) are
    not modelled. *)

From Stdlib Require Import ZArith NArith List Lia Bool.
From Stdlib.Strings Require Import String Ascii Byte.
From Stdlib Require Import Permutation Sorted Floats.SpecFloat.
Import ListNotations.

Local Open Scope Z_scope.
Set Warnings "-register-all".

(** ** Python strings and bytes *)

(** A Python [str]: the list of its code points. *)
Definition pystr := list N.

(** A Python [bytes] object. *)
Definition bytes := list byte.

(** An ASCII literal of the source, as a [str]. *)
Definition py (s : string) : pystr :=
  List.map N_of_ascii (list_ascii_of_string s).

(** An ASCII literal as [bytes] (used for request bodies in examples). *)
Definition raw_of (s : string) : bytes := list_byte_of_string s.

Fixpoint str_eqb (a b : pystr) : bool :=
  match a, b with
  | [], [] => true
  | x :: a', y :: b' => N.eqb x y && str_eqb a' b'
  | _, _ => false
  end.

(** [a < b] on [str]: lexicographic on code points, as Python compares. *)
Fixpoint str_ltb (a b : pystr) : bool :=
  match a, b with
  | [], [] => false
  | [], _ :: _ => true
  | _ :: _, [] => false
  | x :: a', y :: b' =>
      if N.ltb x y then true
      else if N.eqb x y then str_ltb a' b' else false
  end.

(** [s.startswith(p)] *)
Fixpoint startswith (s p : pystr) : bool :=
  match p, s with
  | [], _ => true
  | _ :: _, [] => false
  | y :: p', x :: s' => N.eqb x y && startswith s' p'
  end.

(** [s[n:]] *)
Definition slice_from (n : nat) (s : pystr) : pystr := skipn n s.

(** [len(s)] *)
Definition py_len (s : pystr) : Z := Z.of_nat (List.length s).

(** ** SHA-256 ([hashlib.sha256]) over 32-bit words held in [Z] *)

Module Sha256.

Definition w32 (x : Z) : Z := x mod 4294967296.
Definition add32 (x y : Z) : Z := w32 (x + y).
Definition not32 (x : Z) : Z := Z.lxor x 4294967295.
Definition rotr (n x : Z) : Z :=
  Z.lor (Z.shiftr x n) (w32 (Z.shiftl x (32 - n))).
Definition shr (n x : Z) : Z := Z.shiftr x n.

Definition Ch (x y z : Z) : Z := Z.lxor (Z.land x y) (Z.land (not32 x) z).
Definition Maj (x y z : Z) : Z :=
  Z.lxor (Z.lxor (Z.land x y) (Z.land x z)) (Z.land y z).
Definition bsig0 (x : Z) : Z := Z.lxor (Z.lxor (rotr 2 x) (rotr 13 x)) (rotr 22 x).
Definition bsig1 (x : Z) : Z := Z.lxor (Z.lxor (rotr 6 x) (rotr 11 x)) (rotr 25 x).
Definition ssig0 (x : Z) : Z := Z.lxor (Z.lxor (rotr 7 x) (rotr 18 x)) (shr 3 x).
Definition ssig1 (x : Z) : Z := Z.lxor (Z.lxor (rotr 17 x) (rotr 19 x)) (shr 10 x).

(** The primes below [n], in order. *)
Definition is_prime (p : Z) : bool :=
  (1 <? p)
  && forallb (fun d => negb (p mod d =? 0))
       (List.map Z.of_nat (seq 2 (Z.to_nat (Z.sqrt p) - 1))).

Definition primes_below (n : nat) : list Z :=
  filter is_prime (List.map Z.of_nat (seq 0 n)).

(** The integer cube root of [n], found bit by bit from bit [b] down. *)
Fixpoint icbrt (b : nat) (n r : Z) : Z :=
  let t := r + 2 ^ Z.of_nat b in
  let r' := if t * t * t <=? n then t else r in
  match b with
  | O => r'
  | S b' => icbrt b' n r'
  end.

(** The round constants: the first 32 bits of the fractional parts of the
    cube roots of the first 64 primes. *)
Definition K : list Z :=
  Eval vm_compute in
    List.map (fun p => w32 (icbrt 40 (p * 2 ^ 96) 0)) (primes_below 312).

(** The initial hash value: the first 32 bits of the fractional parts of
    the square roots of the first 8 primes. *)
Definition H0 : list Z :=
  Eval vm_compute in
    List.map (fun p => w32 (Z.sqrt (p * 2 ^ 64))) (primes_below 20).

Definition byteZ (b : byte) : Z := Z.of_N (Byte.to_N b).

(** Big-endian octets of [x], [n] of them. *)
Fixpoint be_octets (n : nat) (x : Z) : list Z :=
  match n with
  | O => []
  | S n' => (Z.shiftr x (8 * Z.of_nat n')) mod 256 :: be_octets n' x
  end.

(** The message followed by 0x80, zeros up to 56 mod 64, and the bit length. *)
Definition pad (msg : list Z) : list Z :=
  let l := Z.of_nat (List.length msg) in
  let zeros := Z.to_nat ((55 - l) mod 64) in
  msg ++ [128] ++ List.repeat 0 zeros ++ be_octets 8 (8 * l).

Fixpoint words (fuel : nat) (bs : list Z) : list Z :=
  match fuel, bs with
  | S f, a :: b :: c :: d :: rest =>
      (a * 16777216 + b * 65536 + c * 256 + d) :: words f rest
  | _, _ => []
  end.

Fixpoint chunks16 (fuel : nat) (ws : list Z) : list (list Z) :=
  match fuel, ws with
  | S f, _ :: _ => firstn 16 ws :: chunks16 f (skipn 16 ws)
  | _, _ => []
  end.

(** The schedule, most recent word first: [wrev] holds W[t-1], W[t-2], ... *)
Fixpoint extend (n : nat) (wrev : list Z) : list Z :=
  match n with
  | O => wrev
  | S n' =>
      let w := add32 (add32 (ssig1 (nth 1 wrev 0)) (nth 6 wrev 0))
                     (add32 (ssig0 (nth 14 wrev 0)) (nth 15 wrev 0)) in
      extend n' (w :: wrev)
  end.

Definition schedule (block : list Z) : list Z := rev (extend 48 (rev block)).

Definition round (st : list Z) (kw : Z * Z) : list Z :=
  match st with
  | [a; b; c; d; e; f; g; h] =>
      let t1 := add32 (add32 (add32 h (bsig1 e)) (add32 (Ch e f g) (fst kw))) (snd kw) in
      let t2 := add32 (bsig0 a) (Maj a b c) in
      [add32 t1 t2; a; b; c; add32 d t1; e; f; g]
  | _ => st
  end.

Definition compress (h : list Z) (block : list Z) : list Z :=
  let st := fold_left round (combine K (schedule block)) h in
  List.map (fun p => add32 (fst p) (snd p)) (combine h st).

Definition digest (msg : bytes) : list Z :=
  let p := pad (List.map byteZ msg) in
  let ws := words (List.length p) p in
  let hs := fold_left compress (chunks16 (List.length ws) ws) H0 in
  flat_map (be_octets 4) hs.

End Sha256.

(** Lowercase hexadecimal digit of a value below 16, as a code point. *)
Definition hex_digit (d : Z) : N :=
  if d <? 10 then Z.to_N (48 + d) else Z.to_N (87 + d).

Definition hex_of_octets (bs : list Z) : pystr :=
  flat_map (fun b => [hex_digit (b / 16); hex_digit (b mod 16)]) bs.

(** ** Exceptions

    Code that can raise returns a [result]; the exception classes are the
    ones the gate tells apart in its [except] clauses. *)

Inductive exn :=
| ValueError
| OverflowError
| UnicodeError
| JSONDecodeError
| ReError
| ValidationError
| RuntimeError (args : list pystr)
| OSError.

Inductive result (A : Type) :=
| Ok (a : A)
| Raise (e : exn).
Arguments Ok {A} a.
Arguments Raise {A} e.

Definition bind {A B : Type} (m : result A) (k : A -> result B) : result B :=
  match m with
  | Ok a => k a
  | Raise e => Raise e
  end.

Notation "x <- m ;; k" := (bind m (fun x => k))
  (at level 61, m at next level, right associativity).

(** ** [int] and [float] *)

Fixpoint dec_digits (fuel : nat) (n : Z) (acc : pystr) : pystr :=
  match fuel with
  | O => acc
  | S f =>
      let acc' := Z.to_N (48 + n mod 10) :: acc in
      if n <? 10 then acc' else dec_digits f (n / 10) acc'
  end.

(** [str(n)] for an [int]. *)
Definition str_of_int (z : Z) : pystr :=
  if z <? 0 then 45%N :: dec_digits (S (Z.to_nat (Z.log2 (- z)))) (- z) []
  else dec_digits (S (Z.to_nat (Z.log2 z))) z [].

(** A Python [float] is an IEEE-754 binary64 value ([spec_float] with
    precision 53 and maximal exponent 1024). *)
Module PyFloat.

Definition prec := 53.
Definition emax := 1024.

Definition bits (x : Z) : Z := Z.log2 x + 1.

(** The double nearest to [(-1)^neg * m * 10^e10], ties to even, for
    [0 <= m]: what [float] makes of a decimal literal. *)
Definition of_decimal (neg : bool) (m e10 : Z) : spec_float :=
  if m =? 0 then S754_zero neg
  else if 0 <=? e10 then binary_round prec emax neg (Z.to_pos (m * 10 ^ e10)) 0
  else
    let den := 10 ^ (- e10) in
    let s := Z.max 0 (55 + bits den - bits m) in
    let num := m * 2 ^ s in
    let q := num / den in
    let r := num mod den in
    let loc := if r =? 0 then loc_Exact else loc_Inexact (Z.compare (2 * r) den) in
    binary_round_aux prec emax neg q (- s) loc.

(** [float(n)] for an [int]; too large a value is OverflowError. *)
Definition of_int (z : Z) : result spec_float :=
  match binary_normalize prec emax z 0 false with
  | S754_infinity _ => Raise OverflowError
  | f => Ok f
  end.

Definition ltb (a b : spec_float) : bool := SFltb a b.

Definition same (a b : spec_float) : bool :=
  match a, b with
  | S754_zero s, S754_zero s' => Bool.eqb s s'
  | S754_infinity s, S754_infinity s' => Bool.eqb s s'
  | S754_nan, S754_nan => true
  | S754_finite s m e, S754_finite s' m' e' =>
      Bool.eqb s s' && Pos.eqb m m' && Z.eqb e e'
  | _, _ => false
  end.

(** [10^d <= num/den] *)
Definition pow10_le (d num den : Z) : bool :=
  if 0 <=? d then 10 ^ d * den <=? num else den <=? num * 10 ^ (- d).

Fixpoint climb (fuel : nat) (d num den : Z) : Z :=
  match fuel with
  | O => d
  | S f => if pow10_le (d + 1) num den then climb f (d + 1) num den else d
  end.

(** [floor(log10(num/den))] of a positive rational. *)
Definition floor_log10 (num den : Z) : Z :=
  let d0 := (Z.log2 num - Z.log2 den - 1) * 30102 / 100000 - 1 in
  climb 8 d0 num den.

(** The shortest decimal [c * 10^scale] that reads back as [m * 2^e], and
    the nearest one when two of that length do; [n] digits are tried, then
    one more, up to 17. *)
Fixpoint shortest (fuel : nat) (n : Z) (m : positive) (e : Z) (num den d : Z)
  : Z * Z :=
  let scale := d - n + 1 in
  let a := if 0 <=? scale then num else num * 10 ^ (- scale) in
  let b := if 0 <=? scale then den * 10 ^ scale else den in
  let k := a / b in
  let r := a mod b in
  let x := S754_finite false m e in
  let lo := same (of_decimal false k scale) x in
  let hi := same (of_decimal false (k + 1) scale) x in
  let near := if 2 * r <=? b then k else k + 1 in
  match fuel with
  | O => (near, scale)
  | S f =>
      if lo && hi then (near, scale)
      else if lo then (k, scale)
      else if hi then (k + 1, scale)
      else shortest f (n + 1) m e num den d
  end.

Fixpoint strip_zeros (fuel : nat) (c scale : Z) : Z * Z :=
  match fuel with
  | O => (c, scale)
  | S f =>
      if (c mod 10 =? 0) && (0 <? c) then strip_zeros f (c / 10) (scale + 1)
      else (c, scale)
  end.

Definition zeros (n : Z) : pystr := List.repeat 48%N (Z.to_nat n).

(** The digits with the decimal point after [decpt] of them: exponent form
    when [decpt <= -4] or [decpt > 16], as [repr] prints. *)
Definition format_short (digits : pystr) (decpt : Z) : pystr :=
  let nd := Z.of_nat (List.length digits) in
  if (decpt <=? -4) || (16 <? decpt) then
    let ex := decpt - 1 in
    let mant :=
      match digits with
      | [] => []
      | [d0] => [d0]
      | d0 :: rest => d0 :: 46%N :: rest
      end in
    let es := str_of_int (Z.abs ex) in
    let es2 := if Z.abs ex <? 10 then 48%N :: es else es in
    mant ++ [101%N] ++ [if ex <? 0 then 45%N else 43%N] ++ es2
  else if decpt <=? 0 then
    [48%N; 46%N] ++ zeros (- decpt) ++ digits
  else if nd <=? decpt then
    digits ++ zeros (decpt - nd) ++ [46%N; 48%N]
  else
    firstn (Z.to_nat decpt) digits ++ [46%N] ++ skipn (Z.to_nat decpt) digits.

(** [float.__repr__] *)
Definition repr (f : spec_float) : pystr :=
  match f with
  | S754_zero s => (if s then [45%N] else []) ++ py "0.0"
  | S754_infinity s => (if s then [45%N] else []) ++ py "inf"
  | S754_nan => py "nan"
  | S754_finite s m e =>
      let num := if 0 <=? e then Z.pos m * 2 ^ e else Z.pos m in
      let den := if 0 <=? e then 1 else 2 ^ (- e) in
      let d := floor_log10 num den in
      let '(c0, sc0) := shortest 16 1 m e num den d in
      let '(c, sc) := strip_zeros 17 c0 sc0 in
      let digits := str_of_int c in
      (if s then [45%N] else [])
        ++ format_short digits (Z.of_nat (List.length digits) + sc)
  end.

End PyFloat.

(** ** JSON values: what [json.loads] returns and [json.dumps] accepts *)

Inductive json :=
| JNull
| JBool (b : bool)
| JInt (z : Z)
| JFloat (f : spec_float)
| JStr (s : pystr)
| JList (l : list json)
| JDict (d : list (pystr * json)).

(** A [dict] with [str] keys, in insertion order. *)
Definition pydict (V : Type) := list (pystr * V).

(** [d.get(k, None)] *)
Fixpoint dict_get {V : Type} (d : pydict V) (k : pystr) : option V :=
  match d with
  | [] => None
  | (k', v) :: d' => if str_eqb k' k then Some v else dict_get d' k
  end.

(** [d[k] = v]: an existing key keeps its place. *)
Fixpoint dict_set {V : Type} (d : pydict V) (k : pystr) (v : V) : pydict V :=
  match d with
  | [] => [(k, v)]
  | (k', v') :: d' =>
      if str_eqb k' k then (k', v) :: d' else (k', v') :: dict_set d' k v
  end.

Definition dict_keys {V : Type} (d : pydict V) : list pystr := List.map fst d.

(** [k in l] for a list of [str]. *)
Definition str_in (k : pystr) (l : list pystr) : bool :=
  existsb (str_eqb k) l.

(** ** UTF-8 *)

Definition byte_of (n : N) : byte :=
  match Byte.of_N n with
  | Some b => b
  | None => x00
  end.

Definition utf8_char (c : N) : result bytes :=
  (if c <? 128 then Ok [byte_of c]
   else if c <? 2048 then
     Ok [byte_of (192 + c / 64); byte_of (128 + c mod 64)]
   else if (55296 <=? c) && (c <=? 57343) then Raise UnicodeError
   else if c <? 65536 then
     Ok [byte_of (224 + c / 4096); byte_of (128 + (c / 64) mod 64);
         byte_of (128 + c mod 64)]
   else if c <? 1114112 then
     Ok [byte_of (240 + c / 262144); byte_of (128 + (c / 4096) mod 64);
         byte_of (128 + (c / 64) mod 64); byte_of (128 + c mod 64)]
   else Raise UnicodeError)%N.

(** [s.encode("utf-8")]: a surrogate code point raises. *)
Fixpoint utf8_encode (s : pystr) : result bytes :=
  match s with
  | [] => Ok []
  | c :: s' =>
      b <- utf8_char c ;;
      bs <- utf8_encode s' ;;
      Ok (b ++ bs)
  end.

Definition cont (b : byte) : option N :=
  let n := Byte.to_N b in
  if ((128 <=? n) && (n <=? 191))%N then Some (n - 128)%N else None.

Definition in_range (lo hi : N) (b : byte) : bool :=
  ((lo <=? Byte.to_N b) && (Byte.to_N b <=? hi))%N.

(** [b.decode("utf-8")], strict: overlong forms, surrogates and values
    above U+10FFFF are errors. *)
Fixpoint utf8_decode (fuel : nat) (bs : bytes) : result pystr :=
  match fuel with
  | O => match bs with [] => Ok [] | _ => Raise UnicodeError end
  | S f =>
      match bs with
      | [] => Ok []
      | b0 :: r0 =>
          let n0 := Byte.to_N b0 in
          if (n0 <? 128)%N then
            s <- utf8_decode f r0 ;; Ok (n0 :: s)
          else if in_range 194 223 b0 then
            match r0 with
            | b1 :: r1 =>
                match cont b1 with
                | Some c1 =>
                    s <- utf8_decode f r1 ;; Ok (((n0 - 192) * 64 + c1)%N :: s)
                | None => Raise UnicodeError
                end
            | _ => Raise UnicodeError
            end
          else if in_range 224 239 b0 then
            match r0 with
            | b1 :: b2 :: r2 =>
                let ok1 :=
                  if (n0 =? 224)%N then in_range 160 191 b1
                  else if (n0 =? 237)%N then in_range 128 159 b1
                  else in_range 128 191 b1 in
                match ok1, cont b1, cont b2 with
                | true, Some c1, Some c2 =>
                    s <- utf8_decode f r2 ;;
                    Ok (((n0 - 224) * 4096 + c1 * 64 + c2)%N :: s)
                | _, _, _ => Raise UnicodeError
                end
            | _ => Raise UnicodeError
            end
          else if in_range 240 244 b0 then
            match r0 with
            | b1 :: b2 :: b3 :: r3 =>
                let ok1 :=
                  if (n0 =? 240)%N then in_range 144 191 b1
                  else if (n0 =? 244)%N then in_range 128 143 b1
                  else in_range 128 191 b1 in
                match ok1, cont b1, cont b2, cont b3 with
                | true, Some c1, Some c2, Some c3 =>
                    s <- utf8_decode f r3 ;;
                    Ok (((n0 - 240) * 262144 + c1 * 4096 + c2 * 64 + c3)%N :: s)
                | _, _, _, _ => Raise UnicodeError
                end
            | _ => Raise UnicodeError
            end
          else Raise UnicodeError
      end
  end.

Definition decode_utf8 (bs : bytes) : result pystr :=
  utf8_decode (List.length bs) bs.

(** ** [json.dumps(obj, sort_keys=True, separators=(",", ":"), ensure_ascii=False)] *)

Definition hex4 (c : N) : pystr :=
  let z := Z.of_N c in
  [hex_digit (z / 4096); hex_digit ((z / 256) mod 16);
   hex_digit ((z / 16) mod 16); hex_digit (z mod 16)].

(** One character of a string literal: the quote, the backslash and the
    characters below U+0020 are escaped, everything else is kept. *)
Definition escape_char (c : N) : pystr :=
  (if c =? 34 then [92; 34]
   else if c =? 92 then py "\\"
   else if c =? 10 then py "\n"
   else if c =? 13 then py "\r"
   else if c =? 9 then py "\t"
   else if c =? 8 then py "\b"
   else if c =? 12 then py "\f"
   else if c <? 32 then py "\u" ++ hex4 c
   else [c])%N.

Definition encode_str (s : pystr) : pystr :=
  [34%N] ++ flat_map escape_char s ++ [34%N].

Definition encode_float (f : spec_float) : pystr :=
  match f with
  | S754_nan => py "NaN"
  | S754_infinity false => py "Infinity"
  | S754_infinity true => py "-Infinity"
  | _ => PyFloat.repr f
  end.

(** [sep.join(l)] *)
Fixpoint join (sep : pystr) (l : list pystr) : pystr :=
  match l with
  | [] => []
  | [x] => x
  | x :: l' => x ++ sep ++ join sep l'
  end.

Fixpoint insert_by_key {V : Type} (kv : pystr * V) (l : pydict V) : pydict V :=
  match l with
  | [] => [kv]
  | kv' :: l' =>
      if str_ltb (fst kv) (fst kv') then kv :: kv' :: l'
      else kv' :: insert_by_key kv l'
  end.

(** [sorted(d.items())]: by key, keys of a [dict] being distinct. *)
Fixpoint sort_items {V : Type} (l : pydict V) : pydict V :=
  match l with
  | [] => []
  | kv :: l' => insert_by_key kv (sort_items l')
  end.

Definition encode_item (kv : pystr * pystr) : pystr :=
  encode_str (fst kv) ++ [58%N] ++ snd kv.

Fixpoint dumps (v : json) : pystr :=
  match v with
  | JNull => py "null"
  | JBool true => py "true"
  | JBool false => py "false"
  | JInt z => str_of_int z
  | JFloat f => encode_float f
  | JStr s => encode_str s
  | JList l => [91%N] ++ join [44%N] (List.map dumps l) ++ [93%N]
  | JDict d =>
      [123%N]
        ++ join [44%N]
             (List.map encode_item
                (sort_items
                   (List.map (fun kv => match kv with (k, x) => (k, dumps x) end) d)))
        ++ [125%N]
  end.

(** ** [json.loads]

    The decoder of the standard library: whitespace is space, tab, line feed
    and carriage return; a number is an [int] unless it has a fraction or an
    exponent; [NaN], [Infinity] and [-Infinity] are accepted; a repeated key
    keeps its first place and its last value. [None] stands for the
    JSONDecodeError. *)

Module Loads.

Definition is_ws (c : N) : bool :=
  ((c =? 32) || (c =? 9) || (c =? 10) || (c =? 13))%N.

Fixpoint skip_ws (s : pystr) : pystr :=
  match s with
  | c :: s' => if is_ws c then skip_ws s' else s
  | [] => []
  end.

Definition is_digit (c : N) : bool := ((48 <=? c) && (c <=? 57))%N.

Fixpoint take_digits (s : pystr) : pystr * pystr :=
  match s with
  | c :: s' =>
      if is_digit c then let (d, r) := take_digits s' in (c :: d, r)
      else ([], s)
  | [] => ([], [])
  end.

Definition int_of_digits (d : pystr) : Z :=
  fold_left (fun acc c => 10 * acc + (Z.of_N c - 48)) d 0.

Definition hex_val (c : N) : option N :=
  (if (48 <=? c) && (c <=? 57) then Some (c - 48)
   else if (97 <=? c) && (c <=? 102) then Some (c - 87)
   else if (65 <=? c) && (c <=? 70) then Some (c - 55)
   else None)%N.

Definition hex4_val (s : pystr) : option (N * pystr) :=
  match s with
  | a :: b :: c :: d :: r =>
      match hex_val a, hex_val b, hex_val c, hex_val d with
      | Some a', Some b', Some c', Some d' =>
          Some ((a' * 4096 + b' * 256 + c' * 16 + d')%N, r)
      | _, _, _, _ => None
      end
  | _ => None
  end.

Definition simple_escape (c : N) : option N :=
  (if c =? 34 then Some 34
   else if c =? 92 then Some 92
   else if c =? 47 then Some 47
   else if c =? 98 then Some 8
   else if c =? 102 then Some 12
   else if c =? 110 then Some 10
   else if c =? 114 then Some 13
   else if c =? 116 then Some 9
   else None)%N.

Definition is_high (u : N) : bool := ((55296 <=? u) && (u <=? 56319))%N.
Definition is_low (u : N) : bool := ((56320 <=? u) && (u <=? 57343))%N.

(** The string after its opening quote (strict mode): the text and the
    input after the closing quote. *)
Fixpoint scanstring (fuel : nat) (s : pystr) : option (pystr * pystr) :=
  match fuel with
  | O => None
  | S f =>
      match s with
      | [] => None
      | c :: s' =>
          if (c =? 34)%N then Some ([], s')
          else if (c <? 32)%N then None
          else if (c =? 92)%N then
            match s' with
            | [] => None
            | e :: s'' =>
                if (e =? 117)%N then
                  match hex4_val s'' with
                  | None => None
                  | Some (u1, r1) =>
                      let lone :=
                        match scanstring f r1 with
                        | Some (t, r) => Some (u1 :: t, r)
                        | None => None
                        end in
                      if is_high u1 then
                        match r1 with
                        | b :: u :: r2 =>
                            if ((b =? 92) && (u =? 117))%N then
                              match hex4_val r2 with
                              | None => None
                              | Some (u2, r3) =>
                                  if is_low u2 then
                                    match scanstring f r3 with
                                    | Some (t, r) =>
                                        Some ((65536 + (u1 - 55296) * 1024
                                               + (u2 - 56320))%N :: t, r)
                                    | None => None
                                    end
                                  else lone
                              end
                            else lone
                        | _ => lone
                        end
                      else lone
                  end
                else
                  match simple_escape e with
                  | None => None
                  | Some x =>
                      match scanstring f s'' with
                      | Some (t, r) => Some (x :: t, r)
                      | None => None
                      end
                  end
            end
          else
            match scanstring f s' with
            | Some (t, r) => Some (c :: t, r)
            | None => None
            end
      end
  end.

(** The integer part of a number: one [0], or digits not starting with [0]. *)
Definition int_part (s : pystr) : option (pystr * pystr) :=
  match s with
  | c :: s' =>
      if (c =? 48)%N then Some ([c], s')
      else if is_digit c then Some (take_digits s)
      else None
  | [] => None
  end.

(** [.] and at least one digit, or nothing. *)
Definition frac_part (s : pystr) : option pystr * pystr :=
  match s with
  | c :: s' =>
      if (c =? 46)%N then
        match take_digits s' with
        | ([], _) => (None, s)
        | (d, r) => (Some d, r)
        end
      else (None, s)
  | [] => (None, s)
  end.

(** [e] or [E], an optional sign and at least one digit, or nothing. *)
Definition exp_part (s : pystr) : option Z * pystr :=
  match s with
  | c :: s' =>
      if ((c =? 101) || (c =? 69))%N then
        let (neg, s1) :=
          match s' with
          | g :: s'' =>
              if (g =? 45)%N then (true, s'')
              else if (g =? 43)%N then (false, s'')
              else (false, s')
          | [] => (false, s')
          end in
        match take_digits s1 with
        | ([], _) => (None, s)
        | (d, r) => (Some (if neg then - int_of_digits d else int_of_digits d), r)
        end
      else (None, s)
  | [] => (None, s)
  end.

Definition number (s : pystr) : option (json * pystr) :=
  let (neg, s0) :=
    match s with
    | c :: s' => if (c =? 45)%N then (true, s') else (false, s)
    | [] => (false, s)
    end in
  match int_part s0 with
  | None => None
  | Some (ds, s1) =>
      let (fr, s2) := frac_part s1 in
      let (ex, s3) := exp_part s2 in
      match fr, ex with
      | None, None =>
          Some (JInt (if neg then - int_of_digits ds else int_of_digits ds), s3)
      | _, _ =>
          let fd := match fr with Some d => d | None => [] end in
          let e := match ex with Some e => e | None => 0 end in
          Some (JFloat (PyFloat.of_decimal neg (int_of_digits (ds ++ fd))
                          (e - Z.of_nat (List.length fd))), s3)
      end
  end.

(** [s] without the literal [lit] at its start. *)
Definition literal (lit : pystr) (s : pystr) : option pystr :=
  if startswith s lit then Some (skipn (List.length lit) s) else None.

Fixpoint value (fuel : nat) (s : pystr) : option (json * pystr) :=
  match fuel with
  | O => None
  | S f =>
      match s with
      | [] => None
      | c :: s' =>
          if (c =? 34)%N then
            match scanstring (List.length s) s' with
            | Some (t, r) => Some (JStr t, r)
            | None => None
            end
          else if (c =? 123)%N then
            match skip_ws s' with
            | [] => None
            | c1 :: r1 =>
                if (c1 =? 125)%N then Some (JDict [], r1)
                else members f (c1 :: r1) []
            end
          else if (c =? 91)%N then
            match skip_ws s' with
            | [] => None
            | c1 :: r1 =>
                if (c1 =? 93)%N then Some (JList [], r1)
                else elements f (c1 :: r1) []
            end
          else
            match literal (py "null") s, literal (py "true") s,
                  literal (py "false") s with
            | Some r, _, _ => Some (JNull, r)
            | _, Some r, _ => Some (JBool true, r)
            | _, _, Some r => Some (JBool false, r)
            | None, None, None =>
                match literal (py "NaN") s, literal (py "Infinity") s,
                      literal (py "-Infinity") s with
                | Some r, _, _ => Some (JFloat S754_nan, r)
                | _, Some r, _ => Some (JFloat (S754_infinity false), r)
                | _, _, Some r => Some (JFloat (S754_infinity true), r)
                | None, None, None => number s
                end
            end
      end
  end

with members (fuel : nat) (s : pystr) (acc : pydict json)
  : option (json * pystr) :=
  match fuel with
  | O => None
  | S f =>
      match s with
      | [] => None
      | q :: s1 =>
          if (q =? 34)%N then
            match scanstring (List.length s) s1 with
            | None => None
            | Some (k, s2) =>
                match skip_ws s2 with
                | [] => None
                | c :: s3 =>
                    if (c =? 58)%N then
                      match value f (skip_ws s3) with
                      | None => None
                      | Some (v, s4) =>
                          let acc' := dict_set acc k v in
                          match skip_ws s4 with
                          | [] => None
                          | d :: s5 =>
                              if (d =? 125)%N then Some (JDict acc', s5)
                              else if (d =? 44)%N then members f (skip_ws s5) acc'
                              else None
                          end
                      end
                    else None
                end
            end
          else None
      end
  end

with elements (fuel : nat) (s : pystr) (acc : list json)
  : option (json * pystr) :=
  match fuel with
  | O => None
  | S f =>
      match value f s with
      | None => None
      | Some (v, s1) =>
          match skip_ws s1 with
          | [] => None
          | d :: s2 =>
              if (d =? 93)%N then Some (JList (acc ++ [v]), s2)
              else if (d =? 44)%N then elements f (skip_ws s2) (acc ++ [v])
              else None
          end
      end
  end.

(** [json.loads(s)] for a [str]. *)
Definition loads (s : pystr) : result json :=
  match value (2 * List.length s + 2) (skip_ws s) with
  | Some (v, r) =>
      match skip_ws r with
      | [] => Ok v
      | _ => Raise JSONDecodeError
      end
  | None => Raise JSONDecodeError
  end.

End Loads.

(** [json.loads(raw.decode("utf-8"))] *)
Definition json_loads (raw : bytes) : result json :=
  s <- decode_utf8 raw ;;
  Loads.loads s.

(** ** [app/hashing.py] *)

Definition canonical_json_bytes (obj : json) : result bytes :=
  utf8_encode (dumps obj).

Definition sha256_hex (data : bytes) : pystr :=
  hex_of_octets (Sha256.digest data).

Definition sha256_prefixed (data : bytes) : pystr :=
  py "sha256:" ++ sha256_hex data.

Definition hash_json (obj : json) : result pystr :=
  b <- canonical_json_bytes obj ;;
  Ok (sha256_prefixed b).

(** ** Regular expressions ([re])

    A pattern is kept in the abstract syntax the [re] compiler makes of its
    text, for the constructs below; without flags, [^] is the start of the
    string, [$] its end or the place before a final line feed, and [.] any
    character but the line feed. *)

Module Re.

Inductive regex :=
| Eps
| Chr (c : N)
| Dot
| Cls (neg : bool) (ranges : list (N * N))
| Bol
| Eol
| Seq (r1 r2 : regex)
| Alt (r1 r2 : regex)
| Star (r : regex).

Definition Plus (r : regex) : regex := Seq r (Star r).
Definition Opt (r : regex) : regex := Alt r Eps.

(** The literal string [s]. *)
Fixpoint Lit (s : pystr) : regex :=
  match s with
  | [] => Eps
  | c :: s' => Seq (Chr c) (Lit s')
  end.

Definition in_ranges (c : N) (ranges : list (N * N)) : bool :=
  existsb (fun lh => (fst lh <=? c) && (c <=? snd lh))%N ranges.

Definition cls_ok (neg : bool) (ranges : list (N * N)) (c : N) : bool :=
  xorb neg (in_ranges c ranges).

Definition not_newline (c : N) : bool := negb (c =? 10)%N.

(** Where [$] holds: at the end, or before a line feed that ends the string. *)
Definition at_end (s : pystr) (i : nat) : bool :=
  Nat.eqb i (List.length s)
  || (Nat.eqb (S i) (List.length s)
      && match nth_error s i with Some c => (c =? 10)%N | None => false end).

(** The positions one character after those of [I] whose character is [ok]. *)
Definition step_char (ok : N -> bool) (s : pystr) (I : list nat) : list nat :=
  flat_map (fun i =>
              match nth_error s i with
              | Some c => if ok c then [S i] else []
              | None => []
              end) I.

(** [I] and what [n] rounds of [step] add to it. *)
Fixpoint closure (n : nat) (step : list nat -> list nat) (I : list nat)
  : list nat :=
  match n with
  | O => I
  | S n' => I ++ closure n' step (nodup Nat.eq_dec (step I))
  end.

(** The positions where a match of [r] that starts at a position of [I]
    can end. *)
Fixpoint reach (r : regex) (s : pystr) (I : list nat) : list nat :=
  match r with
  | Eps => I
  | Chr c => step_char (N.eqb c) s I
  | Dot => step_char not_newline s I
  | Cls neg ranges => step_char (cls_ok neg ranges) s I
  | Bol => filter (Nat.eqb 0) I
  | Eol => filter (at_end s) I
  | Seq r1 r2 => reach r2 s (reach r1 s I)
  | Alt r1 r2 => nodup Nat.eq_dec (reach r1 s I ++ reach r2 s I)
  | Star r1 => closure (List.length s) (reach r1 s) I
  end.

(** A pattern of a rule: the text compiles to [r], or it does not compile. *)
Inductive pattern :=
| Compiled (r : regex)
| Malformed.

(** [re.match(pattern, v) is not None]: a match that starts at position 0
    and ends anywhere. *)
Definition match_ (p : pattern) (v : pystr) : result bool :=
  match p with
  | Malformed => Raise ReError
  | Compiled r =>
      Ok match reach r v [O] with
         | [] => false
         | _ :: _ => true
         end
  end.

(** The matches of a pattern in [s], from position [i] to position [j]. *)
Inductive Match (s : pystr) : regex -> nat -> nat -> Prop :=
| MEps i : Match s Eps i i
| MChr c i : nth_error s i = Some c -> Match s (Chr c) i (S i)
| MDot c i : nth_error s i = Some c -> c <> 10%N -> Match s Dot i (S i)
| MCls neg ranges c i :
    nth_error s i = Some c -> cls_ok neg ranges c = true ->
    Match s (Cls neg ranges) i (S i)
| MBol : Match s Bol O O
| MEol i : at_end s i = true -> Match s Eol i i
| MSeq r1 r2 i j k :
    Match s r1 i j -> Match s r2 j k -> Match s (Seq r1 r2) i k
| MAltL r1 r2 i j : Match s r1 i j -> Match s (Alt r1 r2) i j
| MAltR r1 r2 i j : Match s r2 i j -> Match s (Alt r1 r2) i j
| MStar0 r i : Match s (Star r) i i
| MStarS r i j k :
    Match s r i j -> Match s (Star r) j k -> Match s (Star r) i k.

(** No [$] in the pattern. *)
Fixpoint no_eol (r : regex) : bool :=
  match r with
  | Eol => false
  | Seq r1 r2 | Alt r1 r2 => no_eol r1 && no_eol r2
  | Star r1 => no_eol r1
  | _ => true
  end.

End Re.

(** ** [app/models.py] *)

Inductive ReasonCode :=
| OK
| REQUEST_PARSE_ERROR
| REQUEST_SCHEMA_INVALID
| CTX_HASH_MISMATCH
| PROFILE_NOT_FOUND
| PROFILE_PARSE_ERROR
| INVALID_PROFILE_DEFAULT
| TOOL_NOT_ALLOWED
| CONTROL_REQUIRED
| CONSTRAINT_VIOLATION
| CONSTRAINT_EVAL_ERROR
| AUDIT_WRITE_FAILED
| INTERNAL_ERROR.

Definition all_reason_codes : list ReasonCode :=
  [ OK; REQUEST_PARSE_ERROR; REQUEST_SCHEMA_INVALID; CTX_HASH_MISMATCH;
    PROFILE_NOT_FOUND; PROFILE_PARSE_ERROR; INVALID_PROFILE_DEFAULT;
    TOOL_NOT_ALLOWED; CONTROL_REQUIRED; CONSTRAINT_VIOLATION;
    CONSTRAINT_EVAL_ERROR; AUDIT_WRITE_FAILED; INTERNAL_ERROR ].

(** [rc.value] *)
Definition reason_value (rc : ReasonCode) : pystr :=
  match rc with
  | OK => py "OK"
  | REQUEST_PARSE_ERROR => py "REQUEST_PARSE_ERROR"
  | REQUEST_SCHEMA_INVALID => py "REQUEST_SCHEMA_INVALID"
  | CTX_HASH_MISMATCH => py "CTX_HASH_MISMATCH"
  | PROFILE_NOT_FOUND => py "PROFILE_NOT_FOUND"
  | PROFILE_PARSE_ERROR => py "PROFILE_PARSE_ERROR"
  | INVALID_PROFILE_DEFAULT => py "INVALID_PROFILE_DEFAULT"
  | TOOL_NOT_ALLOWED => py "TOOL_NOT_ALLOWED"
  | CONTROL_REQUIRED => py "CONTROL_REQUIRED"
  | CONSTRAINT_VIOLATION => py "CONSTRAINT_VIOLATION"
  | CONSTRAINT_EVAL_ERROR => py "CONSTRAINT_EVAL_ERROR"
  | AUDIT_WRITE_FAILED => py "AUDIT_WRITE_FAILED"
  | INTERNAL_ERROR => py "INTERNAL_ERROR"
  end.

(** [ReasonCode._value2member_map_.get(s)] *)
Definition reason_of_value (s : pystr) : option ReasonCode :=
  find (fun rc => str_eqb (reason_value rc) s) all_reason_codes.

Inductive DecisionType := ALLOW | DENY | ESCALATE.

Definition decision_type_value (d : DecisionType) : pystr :=
  match d with
  | ALLOW => py "ALLOW"
  | DENY => py "DENY"
  | ESCALATE => py "ESCALATE"
  end.

(** *** Field validators of the strict models

    [extra="forbid"]: a key that is not a field is an error; a field with no
    default must be present; [str] accepts a string only. *)

Definition forbid_extra (fields : list pystr) (d : pydict json) : result unit :=
  if forallb (fun k => str_in k fields) (dict_keys d) then Ok tt
  else Raise ValidationError.

Definition is_surrogate (c : N) : bool := ((55296 <=? c) && (c <=? 57343))%N.

(** A [str] that [Field(min_length=1)] accepts: the length is taken on the
    UTF-8 form of the string, which a lone surrogate does not have. *)
Definition valid_str1 (s : pystr) : bool :=
  match s with
  | [] => false
  | _ :: _ => negb (existsb is_surrogate s)
  end.

(** [str = Field(min_length=1)] *)
Definition field_str1 (d : pydict json) (k : string) : result pystr :=
  match dict_get d (py k) with
  | Some (JStr s) => if valid_str1 s then Ok s else Raise ValidationError
  | _ => Raise ValidationError
  end.

(** [Optional[str] = None] *)
Definition field_opt_str (d : pydict json) (k : string) : result (option pystr) :=
  match dict_get d (py k) with
  | None | Some JNull => Ok None
  | Some (JStr s) => Ok (Some s)
  | Some _ => Raise ValidationError
  end.

(** [Any], with no default *)
Definition field_any (d : pydict json) (k : string) : result json :=
  match dict_get d (py k) with
  | Some v => Ok v
  | None => Raise ValidationError
  end.

(** A field that holds a model: the value must be an object. *)
Definition field_model (d : pydict json) (k : string) : result (pydict json) :=
  match dict_get d (py k) with
  | Some (JDict m) => Ok m
  | _ => Raise ValidationError
  end.

(** The values of a [Dict[str, str]]. *)
Fixpoint str_values (d : pydict json) : result (pydict pystr) :=
  match d with
  | [] => Ok []
  | (k, JStr s) :: d' => r <- str_values d' ;; Ok ((k, s) :: r)
  | _ :: _ => Raise ValidationError
  end.

Module Actor.
Record t := mk {
  principal_id : pystr;
  principal_type : pystr;
  attributes : pydict pystr
}.

Definition model_validate (d : pydict json) : result t :=
  _ <- forbid_extra [py "principal_id"; py "principal_type"; py "attributes"] d ;;
  pid <- field_str1 d "principal_id" ;;
  pty <- field_str1 d "principal_type" ;;
  attrs <- match dict_get d (py "attributes") with
           | None => Ok []
           | Some (JDict a) => str_values a
           | Some _ => Raise ValidationError
           end ;;
  Ok (mk pid pty attrs).

Definition model_dump (a : t) : json :=
  JDict [ (py "principal_id", JStr (principal_id a));
          (py "principal_type", JStr (principal_type a));
          (py "attributes",
           JDict (List.map (fun kv => (fst kv, JStr (snd kv))) (attributes a))) ].
End Actor.

Module ToolCall.
Record t := mk {
  name : pystr;
  args : json
}.

Definition model_validate (d : pydict json) : result t :=
  _ <- forbid_extra [py "name"; py "args"] d ;;
  n <- field_str1 d "name" ;;
  a <- field_any d "args" ;;
  Ok (mk n a).

Definition model_dump (c : t) : json :=
  JDict [ (py "name", JStr (name c)); (py "args", args c) ].
End ToolCall.

Module ProfileRef.
Record t := mk {
  id : pystr;
  version : pystr
}.

Definition model_validate (d : pydict json) : result t :=
  _ <- forbid_extra [py "id"; py "version"] d ;;
  i <- field_str1 d "id" ;;
  v <- field_str1 d "version" ;;
  Ok (mk i v).

Definition model_dump (p : t) : json :=
  JDict [ (py "id", JStr (id p)); (py "version", JStr (version p)) ].
End ProfileRef.

Module Context.
Record t := mk {
  snapshot : json;
  snapshot_hash : pystr
}.

Definition model_validate (d : pydict json) : result t :=
  _ <- forbid_extra [py "snapshot"; py "snapshot_hash"] d ;;
  s <- field_any d "snapshot" ;;
  h <- field_str1 d "snapshot_hash" ;;
  Ok (mk s h).

Definition model_dump (c : t) : json :=
  JDict [ (py "snapshot", snapshot c);
          (py "snapshot_hash", JStr (snapshot_hash c)) ].
End Context.

Definition dump_opt_str (o : option pystr) : json :=
  match o with
  | Some s => JStr s
  | None => JNull
  end.

Module Controls.
Record t := mk {
  approval_token : option pystr;
  nonce : option pystr
}.

Definition model_validate (d : pydict json) : result t :=
  _ <- forbid_extra [py "approval_token"; py "nonce"] d ;;
  a <- field_opt_str d "approval_token" ;;
  n <- field_opt_str d "nonce" ;;
  Ok (mk a n).

Definition model_dump (c : t) : json :=
  JDict [ (py "approval_token", dump_opt_str (approval_token c));
          (py "nonce", dump_opt_str (nonce c)) ].
End Controls.

Module ExecutionRequest.
Record t := mk {
  request_id : pystr;
  actor : Actor.t;
  tool : ToolCall.t;
  profile : ProfileRef.t;
  context : Context.t;
  controls : option Controls.t;
  submitted_at : option pystr
}.

Definition fields : list pystr :=
  [ py "request_id"; py "actor"; py "tool"; py "profile"; py "context";
    py "controls"; py "submitted_at" ].

(** [ExecutionRequest.model_validate(obj)] on what [json.loads] returned. *)
Definition model_validate (obj : json) : result t :=
  match obj with
  | JDict d =>
      _ <- forbid_extra fields d ;;
      rid <- field_str1 d "request_id" ;;
      a <- (m <- field_model d "actor" ;; Actor.model_validate m) ;;
      tl <- (m <- field_model d "tool" ;; ToolCall.model_validate m) ;;
      p <- (m <- field_model d "profile" ;; ProfileRef.model_validate m) ;;
      c <- (m <- field_model d "context" ;; Context.model_validate m) ;;
      ctl <- match dict_get d (py "controls") with
             | None | Some JNull => Ok None
             | Some (JDict m) => x <- Controls.model_validate m ;; Ok (Some x)
             | Some _ => Raise ValidationError
             end ;;
      sub <- field_opt_str d "submitted_at" ;;
      Ok (mk rid a tl p c ctl sub)
  | _ => Raise ValidationError
  end.

(** [req.model_dump()] *)
Definition model_dump (r : t) : json :=
  JDict [ (py "request_id", JStr (request_id r));
          (py "actor", Actor.model_dump (actor r));
          (py "tool", ToolCall.model_dump (tool r));
          (py "profile", ProfileRef.model_dump (profile r));
          (py "context", Context.model_dump (context r));
          (py "controls",
           match controls r with
           | Some c => Controls.model_dump c
           | None => JNull
           end);
          (py "submitted_at", dump_opt_str (submitted_at r)) ].
End ExecutionRequest.

Module RequiredControls.
Record t := mk {
  approval_token : bool
}.
End RequiredControls.

Module ArgRule.
Record t := mk {
  path : pystr;
  type : pystr;
  pattern : option Re.pattern;
  max_len : option Z;
  enum : option (list pystr);
  min : option spec_float;
  max : option spec_float
}.
End ArgRule.

Module Constraints.
Record t := mk {
  arg_rules : list ArgRule.t
}.
End Constraints.

Module ToolPermit.
Record t := mk {
  name : pystr;
  required_controls : RequiredControls.t;
  constraints : option Constraints.t
}.
End ToolPermit.

Module ExecutionProfile.
Record t := mk {
  profile_id : pystr;
  profile_version : pystr;
  allowed_tools : list ToolPermit.t;
  default : pystr
}.
End ExecutionProfile.

Module RuntimeMeta.
Record t := mk {
  name : pystr;
  version : pystr;
  build : pystr
}.
End RuntimeMeta.

Module DecisionProfileInfo.
Record t := mk {
  id : pystr;
  version : pystr;
  profile_ref_hash : pystr
}.
End DecisionProfileInfo.

Module ApprovedCall.
Record t := mk {
  tool_name : pystr;
  tool_args : json
}.
End ApprovedCall.

Module ExecutionDecision.
Record t := mk {
  decision_type : DecisionType;
  reason_code : ReasonCode;
  request_hash : pystr;
  provenance_id : pystr;
  profile : DecisionProfileInfo.t;
  runtime : RuntimeMeta.t;
  approved_call : option ApprovedCall.t
}.

(** [min_length=1] on the fields of the decision and of its parts. *)
Definition fields_ok (d : t) : bool :=
  valid_str1 (request_hash d) && valid_str1 (provenance_id d)
  && valid_str1 (DecisionProfileInfo.id (profile d))
  && valid_str1 (DecisionProfileInfo.version (profile d))
  && valid_str1 (DecisionProfileInfo.profile_ref_hash (profile d))
  && valid_str1 (RuntimeMeta.name (runtime d))
  && valid_str1 (RuntimeMeta.version (runtime d))
  && valid_str1 (RuntimeMeta.build (runtime d))
  && match approved_call d with
     | Some c => valid_str1 (ApprovedCall.tool_name c)
     | None => true
     end.

(** The model validator of the decision. *)
Definition _allow_requires_approved_call (d : t) : result t :=
  match decision_type d, approved_call d with
  | ALLOW, None => Raise ValidationError
  | DENY, Some _ | ESCALATE, Some _ => Raise ValidationError
  | _, _ => Ok d
  end.

(** [ExecutionDecision(...)]: the constructor validates. *)
Definition create (d : t) : result t :=
  if fields_ok d then _allow_requires_approved_call d
  else Raise ValidationError.
End ExecutionDecision.

(** ** [app/enforce.py] *)

Fixpoint first_permit (l : list ToolPermit.t) (tool_name : pystr)
  : option ToolPermit.t :=
  match l with
  | [] => None
  | p :: l' =>
      if str_eqb (ToolPermit.name p) tool_name then Some p
      else first_permit l' tool_name
  end.

Definition find_tool_permit (profile : ExecutionProfile.t) (tool_name : pystr)
  : option ToolPermit.t :=
  first_permit (ExecutionProfile.allowed_tools profile) tool_name.

Definition require_controls (req : ExecutionRequest.t) (permit : ToolPermit.t)
  : option ReasonCode :=
  if RequiredControls.approval_token (ToolPermit.required_controls permit) then
    let token :=
      match ExecutionRequest.controls req with
      | Some c => Controls.approval_token c
      | None => None
      end in
    match token with
    | None | Some [] => Some CONTROL_REQUIRED
    | Some t =>
        if negb (str_eqb t (py "APPROVED")) then Some CONTROL_REQUIRED
        else None
    end
  else None.

(** The value at ["$.key"] of an object, [None] (here [JNull]) when the key
    is missing; any other path, or other arguments, raise. *)
Definition _get_arg_value (args : json) (path : pystr) : result json :=
  if negb (startswith path (py "$.")) then Raise ValueError
  else
    let key := slice_from 2 path in
    match args with
    | JDict d =>
        Ok match dict_get d key with
           | Some v => v
           | None => JNull
           end
    | _ => Raise ValueError
    end.

(** [float(v)] for a value that is an [int] (a [bool] is one) or a [float]. *)
Definition to_float (v : json) : result spec_float :=
  match v with
  | JBool b => PyFloat.of_int (if b then 1 else 0)
  | JInt z => PyFloat.of_int z
  | JFloat f => Ok f
  | _ => Raise ValueError
  end.

Definition below_min (v : json) (min : option spec_float) : result bool :=
  match min with
  | None => Ok false
  | Some m => f <- to_float v ;; Ok (PyFloat.ltb f m)
  end.

Definition above_max (v : json) (max : option spec_float) : result bool :=
  match max with
  | None => Ok false
  | Some m => f <- to_float v ;; Ok (PyFloat.ltb m f)
  end.

Definition pattern_fails (p : option Re.pattern) (v : pystr) : result bool :=
  match p with
  | None => Ok false
  | Some pat => m <- Re.match_ pat v ;; Ok (negb m)
  end.

(** The body of the loop of [enforce_constraints] for one rule: [Some rc]
    when it returns [rc], [None] when the loop goes on. *)
Definition check_rule (args : json) (rule : ArgRule.t)
  : result (option ReasonCode) :=
  v <- _get_arg_value args (ArgRule.path rule) ;;
  match v with
  | JNull => Ok (Some CONSTRAINT_VIOLATION)
  | _ =>
      if str_eqb (ArgRule.type rule) (py "string") then
        match v with
        | JStr s =>
            if match ArgRule.max_len rule with
               | Some n => n <? py_len s
               | None => false
               end
            then Ok (Some CONSTRAINT_VIOLATION)
            else if match ArgRule.enum rule with
                    | Some l => negb (str_in s l)
                    | None => false
                    end
            then Ok (Some CONSTRAINT_VIOLATION)
            else
              bad <- pattern_fails (ArgRule.pattern rule) s ;;
              Ok (if bad then Some CONSTRAINT_VIOLATION else None)
        | _ => Ok (Some CONSTRAINT_VIOLATION)
        end
      else if str_eqb (ArgRule.type rule) (py "number") then
        match v with
        | JBool _ | JInt _ | JFloat _ =>
            lo <- below_min v (ArgRule.min rule) ;;
            if lo then Ok (Some CONSTRAINT_VIOLATION)
            else
              hi <- above_max v (ArgRule.max rule) ;;
              Ok (if hi then Some CONSTRAINT_VIOLATION else None)
        | _ => Ok (Some CONSTRAINT_VIOLATION)
        end
      else if str_eqb (ArgRule.type rule) (py "bool") then
        match v with
        | JBool _ => Ok None
        | _ => Ok (Some CONSTRAINT_VIOLATION)
        end
      else Ok (Some CONSTRAINT_EVAL_ERROR)
  end.

(** [for rule in arg_rules: ...] followed by [return None]. *)
Fixpoint check_rules (args : json) (rules : list ArgRule.t)
  : result (option ReasonCode) :=
  match rules with
  | [] => Ok None
  | rule :: rest =>
      r <- check_rule args rule ;;
      match r with
      | Some rc => Ok (Some rc)
      | None => check_rules args rest
      end
  end.

Definition enforce_constraints (req : ExecutionRequest.t) (permit : ToolPermit.t)
  : option ReasonCode :=
  match ToolPermit.constraints permit with
  | None => None
  | Some c =>
      match Constraints.arg_rules c with
      | [] => None
      | rules =>
          match check_rules (ToolCall.args (ExecutionRequest.tool req)) rules with
          | Ok r => r
          | Raise _ => Some CONSTRAINT_EVAL_ERROR
          end
      end
  end.

(** ** [app/decision.py] *)

(** Modelled from the spec: [provenance_id_from_inputs] of [app/decision.py],
    which is not among the sources. The provenance id is the hash of the
    canonical object that holds the request hash, the profile reference hash
    and the runtime version. *)
Definition provenance_id_from_inputs
  (request_hash profile_ref_hash : pystr) (runtime_version : json)
  : result pystr :=
  hash_json (JDict [ (py "request_hash", JStr request_hash);
                     (py "profile_ref_hash", JStr profile_ref_hash);
                     (py "runtime_version", runtime_version) ]).

(** Modelled from the spec: [fallback_profile_ref_hash] of [app/decision.py],
    the digest of the canonical empty object. *)
Definition fallback_profile_ref_hash : result pystr := hash_json (JDict []).

(** Modelled from the spec: [deny_decision] of [app/decision.py]. A DENY
    decision with the given reason and no approved call. *)
Definition deny_decision (reason : ReasonCode)
  (request_hash profile_id profile_version profile_ref_hash : pystr)
  (runtime : RuntimeMeta.t) : result ExecutionDecision.t :=
  prov <- provenance_id_from_inputs request_hash profile_ref_hash
            (JStr (RuntimeMeta.version runtime)) ;;
  ExecutionDecision.create
    (ExecutionDecision.mk DENY reason request_hash prov
       (DecisionProfileInfo.mk profile_id profile_version profile_ref_hash)
       runtime None).

(** Modelled from the spec: [allow_decision] of [app/decision.py]. An ALLOW
    decision with reason OK whose approved call echoes the tool call. *)
Definition allow_decision
  (request_hash profile_id profile_version profile_ref_hash : pystr)
  (tool_name : pystr) (tool_args : json)
  (runtime : RuntimeMeta.t) : result ExecutionDecision.t :=
  prov <- provenance_id_from_inputs request_hash profile_ref_hash
            (JStr (RuntimeMeta.version runtime)) ;;
  ExecutionDecision.create
    (ExecutionDecision.mk ALLOW OK request_hash prov
       (DecisionProfileInfo.mk profile_id profile_version profile_ref_hash)
       runtime (Some (ApprovedCall.mk tool_name tool_args))).

(** [runtime.model_dump()] *)
Definition dump_runtime (r : RuntimeMeta.t) : pydict json :=
  [ (py "name", JStr (RuntimeMeta.name r));
    (py "version", JStr (RuntimeMeta.version r));
    (py "build", JStr (RuntimeMeta.build r)) ].

(** ** The surroundings of the gate *)

(** What a run of the gate finds around it: its runtime identity
    ([RuntimeIdentity()] of [app/decision.py]), the profile loader over the
    profile store ([load_profile] of [app/profiles.py], which returns a
    profile with its reference hash or raises), the clock, and which appends
    to the audit file fail. These modules are not among the sources, so the
    properties are stated for every such surrounding. *)
Record Env := mkEnv {
  runtime : RuntimeMeta.t;
  load_profile : pystr -> pystr -> result (ExecutionProfile.t * pystr);
  clock : nat -> pystr;
  write_fails : nat -> bool
}.

(** What a run changes: the clock readings taken, the appends attempted and
    the audit log. *)
Record World := mkWorld {
  ticks : nat;
  attempts : nat;
  audit_log : list json
}.

(** The local variables of [execute] that its last [except] clause reads. *)
Record Frame := mkFrame {
  world : World;
  request_id : pystr;
  profile_id : pystr;
  profile_version : pystr;
  profile_ref_hash : pystr
}.

(** Code that reads and writes the frame and may raise. *)
Definition M (A : Type) : Type := Frame -> result A * Frame.

Definition ret {A : Type} (a : A) : M A := fun fr => (Ok a, fr).

Definition bindM {A B : Type} (m : M A) (k : A -> M B) : M B :=
  fun fr =>
    match m fr with
    | (Ok a, fr') => k a fr'
    | (Raise e, fr') => (Raise e, fr')
    end.

Notation "x <~ m ;; k" := (bindM m (fun x => k))
  (at level 61, m at next level, right associativity).

Definition lift {A : Type} (r : result A) : M A := fun fr => (r, fr).

Definition get : M Frame := fun fr => (Ok fr, fr).

Definition assign (f : Frame -> Frame) : M unit := fun fr => (Ok tt, f fr).

(** [try: body except Exception: handler] *)
Definition try_except {A : Type} (body : M A) (handler : M A) : M A :=
  fun fr =>
    match body fr with
    | (Ok a, fr') => (Ok a, fr')
    | (Raise _, fr') => handler fr'
    end.

Definition set_world (w : World) (fr : Frame) : Frame :=
  mkFrame w (request_id fr) (profile_id fr) (profile_version fr)
    (profile_ref_hash fr).

Definition set_request (req : ExecutionRequest.t) (fr : Frame) : Frame :=
  mkFrame (world fr) (ExecutionRequest.request_id req)
    (ProfileRef.id (ExecutionRequest.profile req))
    (ProfileRef.version (ExecutionRequest.profile req))
    (profile_ref_hash fr).

Definition set_profile_ref_hash (h : pystr) (fr : Frame) : Frame :=
  mkFrame (world fr) (request_id fr) (profile_id fr) (profile_version fr) h.

Section Gate.

Variable env : Env.

(** Modelled from the spec: [utc_now_iso] of [app/audit.py], the next
    reading of the clock. *)
Definition now (w : World) : pystr * World :=
  (clock env (ticks w), mkWorld (S (ticks w)) (attempts w) (audit_log w)).

Definition utc_now_iso : M pystr :=
  fun fr => (Ok (fst (now (world fr))), set_world (snd (now (world fr))) fr).

(** Modelled from the spec: [append_audit_record] of [app/audit.py]. The
    record gets the next sequence number and goes to the end of the log; a
    failed write raises and adds nothing. *)
Definition append_audit_record (record : pydict json) : M unit :=
  fun fr =>
    let w := world fr in
    if write_fails env (attempts w) then
      (Raise OSError,
       set_world (mkWorld (ticks w) (S (attempts w)) (audit_log w)) fr)
    else
      let seq := Z.of_nat (List.length (audit_log w)) in
      (Ok tt,
       set_world (mkWorld (ticks w) (S (attempts w))
                    (audit_log w ++ [JDict (dict_set record (py "seq") (JInt seq))]))
         fr).

(** ** [app/gate.py] *)

(** [bool(v)] *)
Definition truthy (v : json) : bool :=
  match v with
  | JNull => false
  | JBool b => b
  | JInt z => negb (z =? 0)
  | JFloat (S754_zero _) => false
  | JFloat _ => true
  | JStr s => negb (str_eqb s [])
  | JList l => match l with [] => false | _ => true end
  | JDict d => match d with [] => false | _ => true end
  end.

(** [a or b], [a] being [d.get(k)] *)
Definition get_or (d : pydict json) (k : string) (b : json) : json :=
  match dict_get d (py k) with
  | Some v => if truthy v then v else b
  | None => b
  end.

Definition _audit_record_from_denied
  (request_id request_hash profile_id profile_version profile_ref_hash : pystr)
  (decision_type reason_code : pystr) (runtime : pydict json)
  (received_at decided_at : pystr) : M (pydict json) :=
  logged_at <~ utc_now_iso ;;
  let runtime_version :=
    get_or runtime "runtime_version"
      (get_or runtime "version"
         (get_or runtime "app_version"
            (get_or runtime "runtime" (JStr (py "0"))))) in
  prov_id <~ lift (provenance_id_from_inputs request_hash profile_ref_hash
                     runtime_version) ;;
  let dt := if truthy (JStr decision_type) then decision_type else py "DENY" in
  let rc := if truthy (JStr reason_code) then reason_code else py "INTERNAL_ERROR" in
  ret [ (py "provenance_id", JStr prov_id);
        (py "seq", JInt 0);
        (py "request_id", JStr request_id);
        (py "request_hash", JStr request_hash);
        (py "decision_type", JStr dt);
        (py "reason_code", JStr rc);
        (py "approved_call", JNull);
        (py "profile_id", JStr profile_id);
        (py "profile_version", JStr profile_version);
        (py "profile_ref_hash", JStr profile_ref_hash);
        (py "runtime", JDict runtime);
        (py "timestamps",
         JDict [ (py "received_at", JStr received_at);
                 (py "decided_at", JStr decided_at);
                 (py "logged_at", JStr logged_at) ]) ].

(** [deny_decision] with the profile variables as they are now. *)
Definition deny (reason : ReasonCode) (req_hash : pystr)
  : M ExecutionDecision.t :=
  fr <~ get ;;
  lift (deny_decision reason req_hash (profile_id fr) (profile_version fr)
          (profile_ref_hash fr) (runtime env)).

(** The lines every branch of [execute] ends with: the time of the
    decision, the audit record, its append, and the return. *)
Definition log_and_return (decision : ExecutionDecision.t)
  (req_hash received_at : pystr) : M ExecutionDecision.t :=
  decided_at <~ utc_now_iso ;;
  fr <~ get ;;
  record <~ _audit_record_from_denied (request_id fr) req_hash (profile_id fr)
              (profile_version fr) (profile_ref_hash fr)
              (decision_type_value (ExecutionDecision.decision_type decision))
              (reason_value (ExecutionDecision.reason_code decision))
              (dump_runtime (ExecutionDecision.runtime decision))
              received_at decided_at ;;
  _ <~ append_audit_record record ;;
  ret decision.

(** The reason a [RuntimeError] of the loader stands for. *)
Definition reason_of_load_error (args : list pystr) : ReasonCode :=
  let reason_str :=
    match args with
    | a :: _ => a
    | [] => reason_value PROFILE_PARSE_ERROR
    end in
  match reason_of_value reason_str with
  | Some rc => rc
  | None => PROFILE_PARSE_ERROR
  end.

(** Allowlist, controls and constraints, and the decision they give. *)
Definition enforce (req : ExecutionRequest.t) (profile_model : ExecutionProfile.t)
  (req_hash : pystr) : M ExecutionDecision.t :=
  let tool := ExecutionRequest.tool req in
  match find_tool_permit profile_model (ToolCall.name tool) with
  | None => deny TOOL_NOT_ALLOWED req_hash
  | Some permit =>
      match require_controls req permit with
      | Some rc => deny rc req_hash
      | None =>
          match enforce_constraints req permit with
          | Some rc2 => deny rc2 req_hash
          | None =>
              fr <~ get ;;
              lift (allow_decision req_hash (profile_id fr) (profile_version fr)
                      (profile_ref_hash fr) (ToolCall.name tool)
                      (ToolCall.args tool) (runtime env))
          end
      end
  end.

(** The body of the outer [try] of [execute]. *)
Definition execute_try (raw : bytes) (received_at : pystr)
  : M ExecutionDecision.t :=
  match json_loads raw with
  | Raise _ =>
      let req_hash := sha256_prefixed raw in
      decision <~ deny REQUEST_PARSE_ERROR req_hash ;;
      log_and_return decision req_hash received_at
  | Ok obj =>
      match ExecutionRequest.model_validate obj with
      | Raise ValidationError =>
          b <~ lift (canonical_json_bytes obj) ;;
          let req_hash := sha256_prefixed b in
          decision <~ deny REQUEST_SCHEMA_INVALID req_hash ;;
          log_and_return decision req_hash received_at
      | Raise e => lift (Raise e)
      | Ok req =>
          _ <~ assign (set_request req) ;;
          req_hash <~ lift (hash_json (ExecutionRequest.model_dump req)) ;;
          computed_ctx <~ lift (hash_json (Context.snapshot
                                             (ExecutionRequest.context req))) ;;
          if negb (str_eqb (Context.snapshot_hash (ExecutionRequest.context req))
                     computed_ctx)
          then
            decision <~ deny CTX_HASH_MISMATCH req_hash ;;
            log_and_return decision req_hash received_at
          else
            fr <~ get ;;
            match load_profile env (profile_id fr) (profile_version fr) with
            | Raise (RuntimeError args) =>
                decision <~ deny (reason_of_load_error args) req_hash ;;
                log_and_return decision req_hash received_at
            | Raise e => lift (Raise e)
            | Ok (profile_model, h) =>
                _ <~ assign (set_profile_ref_hash h) ;;
                decision <~ enforce req profile_model req_hash ;;
                log_and_return decision req_hash received_at
            end
      end
  end.

(** The last [except Exception] clause of [execute]. *)
Definition execute_except (raw : bytes) (received_at : pystr)
  : M ExecutionDecision.t :=
  let req_hash := sha256_prefixed raw in
  decision <~ deny INTERNAL_ERROR req_hash ;;
  log_and_return decision req_hash received_at.

(** [POST /v1/execute] on the request body [raw]: the decision returned, or
    the exception that leaves the handler, and the world after the run. *)
Definition execute (raw : bytes) (w : World)
  : result ExecutionDecision.t * World :=
  let (received_at, w1) := now w in
  match fallback_profile_ref_hash with
  | Raise e => (Raise e, w1)
  | Ok h =>
      let fr0 := mkFrame w1 (py "UNKNOWN") (py "UNKNOWN") (py "UNKNOWN") h in
      match try_except (execute_try raw received_at)
                       (execute_except raw received_at) fr0 with
      | (r, fr) => (r, world fr)
      end
  end.

End Gate.

(** The decision and the request hash that the branch of [execute_try] taken
    hands to [log_and_return]: [execute_try] without its audit lines. *)
Definition decide (env : Env) (raw : bytes) : M (ExecutionDecision.t * pystr) :=
  match json_loads raw with
  | Raise _ =>
      let req_hash := sha256_prefixed raw in
      decision <~ deny env REQUEST_PARSE_ERROR req_hash ;;
      ret (decision, req_hash)
  | Ok obj =>
      match ExecutionRequest.model_validate obj with
      | Raise ValidationError =>
          b <~ lift (canonical_json_bytes obj) ;;
          let req_hash := sha256_prefixed b in
          decision <~ deny env REQUEST_SCHEMA_INVALID req_hash ;;
          ret (decision, req_hash)
      | Raise e => lift (Raise e)
      | Ok req =>
          _ <~ assign (set_request req) ;;
          req_hash <~ lift (hash_json (ExecutionRequest.model_dump req)) ;;
          computed_ctx <~ lift (hash_json (Context.snapshot
                                             (ExecutionRequest.context req))) ;;
          if negb (str_eqb (Context.snapshot_hash (ExecutionRequest.context req))
                     computed_ctx)
          then
            decision <~ deny env CTX_HASH_MISMATCH req_hash ;;
            ret (decision, req_hash)
          else
            fr <~ get ;;
            match load_profile env (profile_id fr) (profile_version fr) with
            | Raise (RuntimeError args) =>
                decision <~ deny env (reason_of_load_error args) req_hash ;;
                ret (decision, req_hash)
            | Raise e => lift (Raise e)
            | Ok (profile_model, h) =>
                _ <~ assign (set_profile_ref_hash h) ;;
                decision <~ enforce env req profile_model req_hash ;;
                ret (decision, req_hash)
            end
      end
  end.

(** The frame [execute] starts its [try] with. *)
Definition frame0 (w : World) (h : pystr) : Frame :=
  mkFrame w (py "UNKNOWN") (py "UNKNOWN") (py "UNKNOWN") h.

(** The variables of a frame, without the world. *)
Definition locals (fr : Frame) : pystr * pystr * pystr * pystr :=
  (request_id fr, profile_id fr, profile_version fr, profile_ref_hash fr).

(** ** A profile, a runtime and requests to run the gate on *)

(** A request body written with ['] for the double quote. *)
Definition body (s : string) : bytes :=
  List.map (fun a => if Ascii.eqb a "'"%char then x22 else byte_of_ascii a)
    (list_ascii_of_string s).

(** [^[^@]+@example\.com$] *)
Definition email_re : Re.regex :=
  Re.Seq Re.Bol
    (Re.Seq (Re.Plus (Re.Cls true [(64%N, 64%N)]))
       (Re.Seq (Re.Lit (py "@example.com")) Re.Eol)).

(** The profile [example/1.0.0] of the end-to-end scenarios: [email.send]
    with rules on [to] and [subject], [storage.put] with an approval token. *)
Definition example_profile : ExecutionProfile.t :=
  ExecutionProfile.mk (py "example") (py "1.0.0")
    [ ToolPermit.mk (py "email.send") (RequiredControls.mk false)
        (Some (Constraints.mk
           [ ArgRule.mk (py "$.to") (py "string")
               (Some (Re.Compiled email_re)) None None None None;
             ArgRule.mk (py "$.subject") (py "string")
               None (Some 128) None None None ]));
      ToolPermit.mk (py "storage.put") (RequiredControls.mk true) None ]
    (py "DENY").

Definition example_runtime : RuntimeMeta.t :=
  RuntimeMeta.mk (py "ecl-reference-runtime") (py "0.1.0") (py "dev").

(** A loader over a store that holds [profile] under [example/1.0.0]. *)
Definition store_of (profile : ExecutionProfile.t) (id version : pystr)
  : result (ExecutionProfile.t * pystr) :=
  if str_eqb id (py "example") && str_eqb version (py "1.0.0")
  then Ok (profile, sha256_prefixed (raw_of "example/1.0.0"))
  else Raise (RuntimeError [py "PROFILE_NOT_FOUND"]).

Definition fixed_clock (n : nat) : pystr := py "2026-01-01T00:00:00.000000+00:00".

(** The example store, and an audit file that takes every write. *)
Definition example_env : Env :=
  mkEnv example_runtime (store_of example_profile) fixed_clock (fun _ => false).

(** The same, but the first write to the audit file fails. *)
Definition flaky_env : Env :=
  mkEnv example_runtime (store_of example_profile) fixed_clock
    (fun n => Nat.eqb n 0).

Definition fresh_world : World := mkWorld 0 0 [].

(** Scenario 1: [email.send] to an address of the allowed domain. *)
Definition allow_request : bytes :=
  body "{'request_id': 'prov_1', 'actor': {'principal_id': 'user:1', 'principal_type': 'user', 'attributes': {}}, 'tool': {'name': 'email.send', 'args': {'to': 'bob@example.com', 'subject': 'hi'}}, 'profile': {'id': 'example', 'version': '1.0.0'}, 'context': {'snapshot': {'x': 1}, 'snapshot_hash': 'sha256:5041bf1f713df204784353e82f6a4a535931cb64f1f4b4a5aeaffcb720918b22'}, 'controls': {}}".

(** Scenario 1 with the keys of every object in another order. *)
Definition allow_request_reordered : bytes :=
  body "{'controls': {}, 'context': {'snapshot_hash': 'sha256:5041bf1f713df204784353e82f6a4a535931cb64f1f4b4a5aeaffcb720918b22', 'snapshot': {'x': 1}}, 'profile': {'version': '1.0.0', 'id': 'example'}, 'tool': {'args': {'subject': 'hi', 'to': 'bob@example.com'}, 'name': 'email.send'}, 'actor': {'attributes': {}, 'principal_type': 'user', 'principal_id': 'user:1'}, 'request_id': 'prov_1'}".

(** Scenario 5: scenario 1 with one hex digit of the snapshot hash changed. *)
Definition mismatch_request : bytes :=
  body "{'request_id': 'prov_1', 'actor': {'principal_id': 'user:1', 'principal_type': 'user', 'attributes': {}}, 'tool': {'name': 'email.send', 'args': {'to': 'bob@example.com', 'subject': 'hi'}}, 'profile': {'id': 'example', 'version': '1.0.0'}, 'context': {'snapshot': {'x': 1}, 'snapshot_hash': 'sha256:6041bf1f713df204784353e82f6a4a535931cb64f1f4b4a5aeaffcb720918b22'}, 'controls': {}}".

(** The run of scenario 1 in a fresh world. *)
Definition allow_run : result ExecutionDecision.t * World :=
  Eval vm_compute in execute example_env allow_request fresh_world.

(** A body that is JSON but not a request: an empty array, with a space. *)
Definition array_request : bytes := body "[ ]".

Definition array_run : result ExecutionDecision.t * World :=
  Eval vm_compute in execute example_env array_request fresh_world.

(** A body that is not JSON. *)
Definition garbage_request : bytes := body "{'request_id': ".

Definition garbage_run : result ExecutionDecision.t * World :=
  Eval vm_compute in execute example_env garbage_request fresh_world.

Definition mismatch_run : result ExecutionDecision.t * World :=
  Eval vm_compute in execute example_env mismatch_request fresh_world.

(** What [json.loads] and the request model make of scenario 5. *)
Definition mismatch_parsed : result json :=
  Eval vm_compute in json_loads mismatch_request.

Definition mismatch_validated : result ExecutionRequest.t :=
  Eval vm_compute in
    (obj <- json_loads mismatch_request ;; ExecutionRequest.model_validate obj).

(** Scenario 1 when the first write to the audit file fails, and the same
    request sent again afterwards. *)
Definition flaky_run : result ExecutionDecision.t * World :=
  Eval vm_compute in execute flaky_env allow_request fresh_world.

Definition flaky_rerun : result ExecutionDecision.t * World :=
  Eval vm_compute in execute flaky_env allow_request (snd flaky_run).

(** The example store seen at a later time, by another clock. *)
Definition late_env : Env :=
  mkEnv example_runtime (store_of example_profile)
    (fun _ => py "2027-06-30T12:00:00.000000+00:00") (fun _ => false).

(** Scenario 1 sent again, after the run [allow_run]. *)
Definition allow_rerun : result ExecutionDecision.t * World :=
  Eval vm_compute in execute late_env allow_request (snd allow_run).

(** A profile whose tool [counter.set] takes a number [n] from 0 to 10. *)
Definition number_rule : ArgRule.t :=
  ArgRule.mk (py "$.n") (py "number") None None None
    (Some (PyFloat.of_decimal false 0 0)) (Some (PyFloat.of_decimal false 10 0)).

Definition number_permit : ToolPermit.t :=
  ToolPermit.mk (py "counter.set") (RequiredControls.mk false)
    (Some (Constraints.mk [number_rule])).

Definition number_profile : ExecutionProfile.t :=
  ExecutionProfile.mk (py "example") (py "1.0.0") [number_permit] (py "DENY").

Definition number_env : Env :=
  mkEnv example_runtime (store_of number_profile) fixed_clock (fun _ => false).

(** A call of [counter.set] whose [n] is [true]. *)
Definition bool_request : bytes :=
  body "{'request_id': 'r1', 'actor': {'principal_id': 'user:1', 'principal_type': 'user'}, 'tool': {'name': 'counter.set', 'args': {'n': true}}, 'profile': {'id': 'example', 'version': '1.0.0'}, 'context': {'snapshot': {'x': 1}, 'snapshot_hash': 'sha256:5041bf1f713df204784353e82f6a4a535931cb64f1f4b4a5aeaffcb720918b22'}}".

Definition bool_run : result ExecutionDecision.t * World :=
  Eval vm_compute in execute number_env bool_request fresh_world.

(** An object with objects inside, and the same with the keys of every
    object in another order. *)
Definition nested_value : json :=
  JDict [ (py "b", JInt 1);
          (py "a", JDict [ (py "y", JNull);
                           (py "x", JList [JDict [ (py "q", JInt 1);
                                                   (py "p", JInt 2) ]]) ]) ].

Definition nested_value_reordered : json :=
  JDict [ (py "a", JDict [ (py "x", JList [JDict [ (py "p", JInt 2);
                                                   (py "q", JInt 1) ]]);
                           (py "y", JNull) ]);
          (py "b", JInt 1) ].

(** The decision of a run, for runs that return one. *)
Definition decision_of (r : result ExecutionDecision.t * World)
  : option ExecutionDecision.t :=
  match fst r with
  | Ok d => Some d
  | Raise _ => None
  end.

(** * Relations and data the statements are written with *)

(** What [enforce] returns, by the phase that decides. *)
Definition enforce_result (env : Env) (req : ExecutionRequest.t)
  (pm : ExecutionProfile.t) (h : pystr) (fr : Frame)
  : result ExecutionDecision.t :=
  match find_tool_permit pm (ToolCall.name (ExecutionRequest.tool req)) with
  | None =>
      deny_decision TOOL_NOT_ALLOWED h (profile_id fr) (profile_version fr)
        (profile_ref_hash fr) (runtime env)
  | Some permit =>
      match require_controls req permit with
      | Some rc =>
          deny_decision rc h (profile_id fr) (profile_version fr)
            (profile_ref_hash fr) (runtime env)
      | None =>
          match enforce_constraints req permit with
          | Some rc2 =>
              deny_decision rc2 h (profile_id fr) (profile_version fr)
                (profile_ref_hash fr) (runtime env)
          | None =>
              allow_decision h (profile_id fr) (profile_version fr)
                (profile_ref_hash fr)
                (ToolCall.name (ExecutionRequest.tool req))
                (ToolCall.args (ExecutionRequest.tool req)) (runtime env)
          end
      end
  end.

(** The branches of [execute_try] that reach a decision. *)
Inductive Decided (env : Env) (raw : bytes) (fr : Frame)
  (d : ExecutionDecision.t) (h : pystr) (fr' : Frame) : Prop :=
| DParse e :
    json_loads raw = Raise e ->
    h = sha256_prefixed raw ->
    fr' = fr ->
    deny_decision REQUEST_PARSE_ERROR h (profile_id fr') (profile_version fr')
      (profile_ref_hash fr') (runtime env) = Ok d ->
    Decided env raw fr d h fr'
| DSchema obj b :
    json_loads raw = Ok obj ->
    ExecutionRequest.model_validate obj = Raise ValidationError ->
    canonical_json_bytes obj = Ok b ->
    h = sha256_prefixed b ->
    fr' = fr ->
    deny_decision REQUEST_SCHEMA_INVALID h (profile_id fr') (profile_version fr')
      (profile_ref_hash fr') (runtime env) = Ok d ->
    Decided env raw fr d h fr'
| DContext obj req c :
    json_loads raw = Ok obj ->
    ExecutionRequest.model_validate obj = Ok req ->
    hash_json (ExecutionRequest.model_dump req) = Ok h ->
    hash_json (Context.snapshot (ExecutionRequest.context req)) = Ok c ->
    Context.snapshot_hash (ExecutionRequest.context req) <> c ->
    fr' = set_request req fr ->
    deny_decision CTX_HASH_MISMATCH h (profile_id fr') (profile_version fr')
      (profile_ref_hash fr') (runtime env) = Ok d ->
    Decided env raw fr d h fr'
| DLoad obj req args :
    json_loads raw = Ok obj ->
    ExecutionRequest.model_validate obj = Ok req ->
    hash_json (ExecutionRequest.model_dump req) = Ok h ->
    hash_json (Context.snapshot (ExecutionRequest.context req))
      = Ok (Context.snapshot_hash (ExecutionRequest.context req)) ->
    load_profile env (ProfileRef.id (ExecutionRequest.profile req))
      (ProfileRef.version (ExecutionRequest.profile req))
      = Raise (RuntimeError args) ->
    fr' = set_request req fr ->
    deny_decision (reason_of_load_error args) h (profile_id fr')
      (profile_version fr') (profile_ref_hash fr') (runtime env) = Ok d ->
    Decided env raw fr d h fr'
| DEnforce obj req pm ph :
    json_loads raw = Ok obj ->
    ExecutionRequest.model_validate obj = Ok req ->
    hash_json (ExecutionRequest.model_dump req) = Ok h ->
    hash_json (Context.snapshot (ExecutionRequest.context req))
      = Ok (Context.snapshot_hash (ExecutionRequest.context req)) ->
    load_profile env (ProfileRef.id (ExecutionRequest.profile req))
      (ProfileRef.version (ExecutionRequest.profile req)) = Ok (pm, ph) ->
    fr' = set_profile_ref_hash ph (set_request req fr) ->
    enforce_result env req pm h fr' = Ok d ->
    Decided env raw fr d h fr'.

(** The variables when [execute_try] stops, whether it returns or raises:
    they are the request's once it has validated, and the profile reference
    hash is the loader's once the profile has loaded. *)
Definition frame_after (env : Env) (raw : bytes) (fr fr' : Frame) : Prop :=
  match json_loads raw with
  | Raise _ => fr' = fr
  | Ok obj =>
      match ExecutionRequest.model_validate obj with
      | Raise _ => fr' = fr
      | Ok req =>
          fr' = set_request req fr
          \/ exists pm ph,
               hash_json (Context.snapshot (ExecutionRequest.context req))
               = Ok (Context.snapshot_hash (ExecutionRequest.context req))
               /\ load_profile env (ProfileRef.id (ExecutionRequest.profile req))
                    (ProfileRef.version (ExecutionRequest.profile req))
                  = Ok (pm, ph)
               /\ fr' = set_profile_ref_hash ph (set_request req fr)
      end
  end.

(** Two runs compared in lockstep; [a1] and [a2] count the appends each
    run has tried. *)
Section Pairing.

Variables a1 a2 : nat.

(** Frames of the two runs at the same point. *)
Definition paired (f1 f2 : Frame) : Prop :=
  locals f1 = locals f2
  /\ attempts (world f1) = a1 /\ attempts (world f2) = a2.

(** Outcomes that agree: the same value, or an exception in both. *)
Definition alike {A : Type} (x y : result A * Frame) : Prop :=
  match x, y with
  | (Ok a, _), (Ok b, _) => a = b
  | (Raise _, f1), (Raise _, f2) => paired f1 f2
  | _, _ => False
  end.

(** The same, and the frames are still paired after a value. *)
Definition alike_paired {A : Type} (x y : result A * Frame) : Prop :=
  match x, y with
  | (Ok a, f1), (Ok b, f2) => a = b /\ paired f1 f2
  | (Raise _, f1), (Raise _, f2) => paired f1 f2
  | _, _ => False
  end.

End Pairing.






(** Induction on JSON values, with the hypothesis on every element of a list
    and on every value of an object. *)
Section JsonInd.

Variable P : json -> Prop.
Hypothesis Hnull : P JNull.
Hypothesis Hbool : forall b, P (JBool b).
Hypothesis Hint : forall z, P (JInt z).
Hypothesis Hfloat : forall f, P (JFloat f).
Hypothesis Hstr : forall s, P (JStr s).
Hypothesis Hlist : forall l, Forall P l -> P (JList l).
Hypothesis Hdict : forall d, Forall (fun kv => P (snd kv)) d -> P (JDict d).

Fixpoint json_nested_ind (v : json) : P v :=
  match v with
  | JNull => Hnull
  | JBool b => Hbool b
  | JInt z => Hint z
  | JFloat f => Hfloat f
  | JStr s => Hstr s
  | JList l =>
      Hlist l
        ((fix all (l : list json) : Forall P l :=
            match l with
            | [] => Forall_nil P
            | x :: l' => Forall_cons x (json_nested_ind x) (all l')
            end) l)
  | JDict d =>
      Hdict d
        ((fix all (d : pydict json) : Forall (fun kv => P (snd kv)) d :=
            match d with
            | [] => Forall_nil _
            | kv :: d' =>
                Forall_cons kv
                  (match kv return P (snd kv) with
                   | (k, x) => json_nested_ind x
                   end) (all d')
            end) d)
  end.

End JsonInd.

(** A value as [json.loads] makes it: the keys of every object are
    distinct. *)
Inductive distinct_keys : json -> Prop :=
| DK_null : distinct_keys JNull
| DK_bool b : distinct_keys (JBool b)
| DK_int z : distinct_keys (JInt z)
| DK_float f : distinct_keys (JFloat f)
| DK_str s : distinct_keys (JStr s)
| DK_list l : Forall distinct_keys l -> distinct_keys (JList l)
| DK_dict d :
    NoDup (dict_keys d) ->
    Forall (fun kv => distinct_keys (snd kv)) d ->
    distinct_keys (JDict d).

(** [b] is [a] with the keys of some of its objects, at any depth, in
    another order. *)
Inductive reordered : json -> json -> Prop :=
| RO_same v : reordered v v
| RO_list l l' : Forall2 reordered l l' -> reordered (JList l) (JList l')
| RO_dict d d' d'' :
    Forall2 (fun kv kv' => fst kv = fst kv' /\ reordered (snd kv) (snd kv')) d d' ->
    Permutation d' d'' ->
    reordered (JDict d) (JDict d'').

(** The order [sort_keys] puts the items in. *)
Definition key_lt {V : Type} (a b : pystr * V) : Prop :=
  str_ltb (fst a) (fst b) = true.

Definition encode_entry (kv : pystr * json) : pystr * pystr :=
  (fst kv, dumps (snd kv)).

Definition entry_reordered (kv kv' : pystr * json) : Prop :=
  fst kv = fst kv' /\ reordered (snd kv) (snd kv').

(** The entries of [d''] are those of [d], reordered inside, in some order. *)
Definition shuffled (d d'' : pydict json) : Prop :=
  exists d', Forall2 entry_reordered d d' /\ Permutation d' d''.

(** Results of the two validations that go together. *)
Definition both {A : Type} (R : A -> A -> Prop) (x y : result A) : Prop :=
  match x, y with
  | Ok a, Ok b => R a b
  | Raise _, Raise _ => True
  | _, _ => False
  end.

(** Requests validated from reordered bodies: the same fields, with the
    attributes in another order and the opaque values reordered inside. *)
Definition actor_alike (a a' : Actor.t) : Prop :=
  Actor.principal_id a = Actor.principal_id a'
  /\ Actor.principal_type a = Actor.principal_type a'
  /\ Permutation (Actor.attributes a) (Actor.attributes a')
  /\ NoDup (dict_keys (Actor.attributes a)).

Definition tool_alike (t t' : ToolCall.t) : Prop :=
  ToolCall.name t = ToolCall.name t'
  /\ reordered (ToolCall.args t) (ToolCall.args t')
  /\ distinct_keys (ToolCall.args t).

Definition context_alike (c c' : Context.t) : Prop :=
  Context.snapshot_hash c = Context.snapshot_hash c'
  /\ reordered (Context.snapshot c) (Context.snapshot c')
  /\ distinct_keys (Context.snapshot c).

Definition request_alike (r r' : ExecutionRequest.t) : Prop :=
  ExecutionRequest.request_id r = ExecutionRequest.request_id r'
  /\ actor_alike (ExecutionRequest.actor r) (ExecutionRequest.actor r')
  /\ tool_alike (ExecutionRequest.tool r) (ExecutionRequest.tool r')
  /\ ExecutionRequest.profile r = ExecutionRequest.profile r'
  /\ context_alike (ExecutionRequest.context r) (ExecutionRequest.context r')
  /\ ExecutionRequest.controls r = ExecutionRequest.controls r'
  /\ ExecutionRequest.submitted_at r = ExecutionRequest.submitted_at r'.

Fixpoint distinct_strs (l : list pystr) : bool :=
  match l with
  | [] => true
  | k :: l' => negb (str_in k l') && distinct_strs l'
  end.

(** * Data and notions of the further properties *)

(** A rule on [$.n] of a type that the evaluator does not know. *)
Definition integer_rule : ArgRule.t :=
  ArgRule.mk (py "$.n") (py "integer") None None None None None.

(** A rule for a string of at most three code points, with a pattern that
    does not compile. *)
Definition short_rule : ArgRule.t :=
  ArgRule.mk (py "$.to") (py "string") (Some Re.Malformed) (Some 3) None
    None None.

(** A permit whose constraints are the given rules. *)
Definition permit_with (rules : list ArgRule.t) : ToolPermit.t :=
  ToolPermit.mk (py "counter.set") (RequiredControls.mk false)
    (Some (Constraints.mk rules)).

(** A validated request for the tool call [counter.set] with the given
    arguments. *)
Definition request_with (args : json) : ExecutionRequest.t :=
  ExecutionRequest.mk (py "r1")
    (Actor.mk (py "user:1") (py "user") [])
    (ToolCall.mk (py "counter.set") args)
    (ProfileRef.mk (py "numbers") (py "1.0.0"))
    (Context.mk JNull (py "sha256:0"))
    None None.

(** The length and the enumeration of a [string] rule, as conditions on a
    value. *)
Definition fits_max_len (rule : ArgRule.t) (s : pystr) : Prop :=
  forall n, ArgRule.max_len rule = Some n -> py_len s <= n.

Definition in_enum (rule : ArgRule.t) (s : pystr) : Prop :=
  forall l, ArgRule.enum rule = Some l -> In s l.

(** A rule passes on the arguments. *)
Definition passes (args : json) (rule : ArgRule.t) : Prop :=
  check_rule args rule = Ok None.

(** The fields a request must have. *)
Definition required_fields : list pystr :=
  [ py "request_id"; py "actor"; py "tool"; py "profile"; py "context" ].

(** A body with the required fields only, as [json.loads] returns it, and
    the request it validates to. *)
Definition plain_object : json :=
  JDict [ (py "request_id", JStr (py "r1"));
          (py "actor", JDict [ (py "principal_id", JStr (py "user:1"));
                               (py "principal_type", JStr (py "user")) ]);
          (py "tool", JDict [ (py "name", JStr (py "counter.set"));
                              (py "args", JDict [(py "n", JInt 1)]) ]);
          (py "profile", JDict [ (py "id", JStr (py "numbers"));
                                 (py "version", JStr (py "1.0.0")) ]);
          (py "context", JDict [ (py "snapshot", JNull);
                                 (py "snapshot_hash", JStr (py "sha256:0")) ]) ].

Definition plain_request : ExecutionRequest.t :=
  ExecutionRequest.mk (py "r1")
    (Actor.mk (py "user:1") (py "user") [])
    (ToolCall.mk (py "counter.set") (JDict [(py "n", JInt 1)]))
    (ProfileRef.mk (py "numbers") (py "1.0.0"))
    (Context.mk JNull (py "sha256:0"))
    None None.

(** A lowercase hexadecimal digit. *)
Definition is_hex (c : N) : bool :=
  (((48 <=? c) && (c <=? 57)) || ((97 <=? c) && (c <=? 102)))%N.

(** A code point that has a UTF-8 form: not a surrogate, and not above
    U+10FFFF. *)
Definition encodable (c : N) : bool :=
  (c <? 1114112)%N && negb (is_surrogate c).

(** An encodable code point that is not a control character. *)
Definition plain (c : N) : bool := (32 <=? c)%N && encodable c.

(** Every string of a value, the keys of its objects among them, is made of
    encodable code points. A [str] of Python has no code point above
    U+10FFFF, so for the values of the program this says that no string
    holds a lone surrogate. *)
Inductive text_ok : json -> Prop :=
| TO_null : text_ok JNull
| TO_bool b : text_ok (JBool b)
| TO_int z : text_ok (JInt z)
| TO_float f : text_ok (JFloat f)
| TO_str s : forallb encodable s = true -> text_ok (JStr s)
| TO_list l : Forall text_ok l -> text_ok (JList l)
| TO_dict d :
    Forall (fun kv => forallb encodable (fst kv) = true /\ text_ok (snd kv)) d ->
    text_ok (JDict d).

(** A string of the runtime identity or of a profile reference as the
    surroundings give it: not empty, and made of encodable code points. *)
Definition sound_str (s : pystr) : Prop :=
  s <> [] /\ forallb encodable s = true.

(** Surroundings the gate can answer in: the runtime identity is valid, and
    the profile reference hashes of the loader are sound strings. *)
Definition sound_env (env : Env) : Prop :=
  sound_str (RuntimeMeta.name (runtime env))
  /\ sound_str (RuntimeMeta.version (runtime env))
  /\ sound_str (RuntimeMeta.build (runtime env))
  /\ forall id version pm ph,
       load_profile env id version = Ok (pm, ph) -> sound_str ph.

(** The audit record of the decision [d], the [seq]-th of the log: it has
    the sequence number, the request hash, the decision type, the reason
    code and the profile fields of the decision, and no approved call. *)
Definition records (record : pydict json) (d : ExecutionDecision.t)
  (seq : nat) : Prop :=
  dict_get record (py "seq") = Some (JInt (Z.of_nat seq))
  /\ dict_get record (py "request_hash")
     = Some (JStr (ExecutionDecision.request_hash d))
  /\ dict_get record (py "decision_type")
     = Some (JStr (decision_type_value (ExecutionDecision.decision_type d)))
  /\ dict_get record (py "reason_code")
     = Some (JStr (reason_value (ExecutionDecision.reason_code d)))
  /\ dict_get record (py "approved_call") = Some JNull
  /\ dict_get record (py "profile_id")
     = Some (JStr (DecisionProfileInfo.id (ExecutionDecision.profile d)))
  /\ dict_get record (py "profile_version")
     = Some (JStr (DecisionProfileInfo.version (ExecutionDecision.profile d)))
  /\ dict_get record (py "profile_ref_hash")
     = Some (JStr (DecisionProfileInfo.profile_ref_hash
                     (ExecutionDecision.profile d))).

(** The profile variables of a frame can go into a decision. *)
Definition good_locals (fr : Frame) : Prop :=
  valid_str1 (profile_id fr) = true
  /\ valid_str1 (profile_version fr) = true
  /\ sound_str (profile_ref_hash fr).

(** ** [scripts/load.py]: the load generator over the gate *)

(** The number of requests of each worker, in [main]: [requests //
    concurrency] each, and one more for the first [requests % concurrency]
    of them. [None] stands for the ZeroDivisionError of a concurrency of
    zero; [range] of a negative concurrency is empty. *)
Definition worker_shares (requests concurrency : Z) : option (list Z) :=
  if concurrency =? 0 then None
  else
    let per := requests / concurrency in
    let remainder := requests mod concurrency in
    Some (List.map (fun i => per + (if Z.of_nat i <? remainder then 1 else 0))
            (seq 0 (Z.to_nat concurrency))).

(** What a request of a worker comes to: a response with its status code,
    or an exception of the client (a timeout, a refused connection). *)
Inductive outcome :=
| Response (status_code : Z)
| ClientError.

Section Load.

(** The latencies are measured on the clock of the machine; the counts do
    not depend on what they are. *)
Variable latency : Type.

(** One turn of the loop of [worker]. *)
Definition worker_step (post : nat -> outcome * latency)
  (st : Z * Z * list latency) (k : nat) : Z * Z * list latency :=
  let '(ok, fail, lats) := st in
  match post k with
  | (Response code, dt) =>
      if code =? 200 then (ok + 1, fail, lats ++ [dt])
      else (ok, fail + 1, lats ++ [dt])
  | (ClientError, dt) => (ok, fail + 1, lats ++ [dt])
  end.

(** [worker(client, url, n)], [post k] being what the [k]-th request of the
    worker comes to: the requests that got status 200, the others, and the
    latencies. *)
Definition worker (post : nat -> outcome * latency) (n : Z)
  : Z * Z * list latency :=
  fold_left (worker_step post) (seq 0 (Z.to_nat n)) (0, 0, []).

(** The totals of [main]: [total_ok], [total_fail] and [all_lats], the
    [i]-th worker getting [post i]. *)
Definition load_totals (post : nat -> nat -> outcome * latency)
  (requests concurrency : Z) : option (Z * Z * list latency) :=
  match worker_shares requests concurrency with
  | None => None
  | Some shares =>
      let results :=
        List.map (fun p => worker (post (fst p)) (snd p))
          (combine (seq 0 (List.length shares)) shares) in
      Some (fold_right Z.add 0 (List.map (fun r => fst (fst r)) results),
            fold_right Z.add 0 (List.map (fun r => snd (fst r)) results),
            flat_map snd results)
  end.

End Load.

(** A request whose arguments hold a lone surrogate, written as an escape:
    the body is well-formed UTF-8 and valid JSON, and validates. *)
Definition surrogate_request : bytes :=
  body "{'request_id': 'prov_1', 'actor': {'principal_id': 'user:1', 'principal_type': 'user', 'attributes': {}}, 'tool': {'name': 'email.send', 'args': {'to': '\ud800'}}, 'profile': {'id': 'example', 'version': '1.0.0'}, 'context': {'snapshot': {'x': 1}, 'snapshot_hash': 'sha256:5041bf1f713df204784353e82f6a4a535931cb64f1f4b4a5aeaffcb720918b22'}, 'controls': {}}".

Definition surrogate_run : result ExecutionDecision.t * World :=
  Eval vm_compute in execute example_env surrogate_request fresh_world.

Definition surrogate_validated : result ExecutionRequest.t :=
  Eval vm_compute in
    (obj <- json_loads surrogate_request ;;
     ExecutionRequest.model_validate obj).

(** * Properties *)

Arguments py : simpl never.
Arguments sha256_prefixed : simpl never.
Arguments hash_json : simpl never.
Arguments canonical_json_bytes : simpl never.
Arguments provenance_id_from_inputs : simpl never.
Arguments fallback_profile_ref_hash : simpl never.
Arguments json_loads : simpl never.
Arguments ExecutionRequest.model_validate : simpl never.
Arguments ExecutionRequest.model_dump : simpl never.
Arguments deny_decision : simpl never.
Arguments allow_decision : simpl never.
Arguments reason_of_value : simpl never.

(** ** Strings *)

Lemma str_eqb_eq (a b : pystr) : str_eqb a b = true <-> a = b.
Proof.
  revert b; induction a as [|x a IH]; intros [|y b]; simpl; split;
    try discriminate; try reflexivity.
  - intros H. apply andb_true_iff in H as [Hx Hr].
    apply N.eqb_eq in Hx. apply IH in Hr. now subst.
  - intros H. injection H as -> ->. rewrite N.eqb_refl. simpl. now apply IH.
Qed.

Lemma str_eqb_refl (a : pystr) : str_eqb a a = true.
Proof. now apply str_eqb_eq. Qed.

Lemma str_eqb_neq (a b : pystr) : str_eqb a b = false <-> a <> b.
Proof.
  split.
  - intros H E. apply str_eqb_eq in E. congruence.
  - intros H. destruct (str_eqb a b) eqn:E; [|reflexivity].
    apply str_eqb_eq in E. contradiction.
Qed.

Lemma startswith_app (s p : pystr) :
  startswith s p = true <-> exists t, s = p ++ t.
Proof.
  revert s; induction p as [|y p IH]; intros s; simpl.
  - split; [intros _; now exists s | intros _; now destruct s].
  - destruct s as [|x s].
    + split; [discriminate | intros [t Ht]; discriminate].
    + simpl. rewrite andb_true_iff, N.eqb_eq, IH. split.
      * intros [-> [t ->]]. now exists t.
      * intros [t Ht]. injection Ht as -> ->. split; [reflexivity | now exists t].
Qed.

(** ** Decisions *)

Lemma create_inv (d d' : ExecutionDecision.t) :
  ExecutionDecision.create d = Ok d' ->
  d' = d /\ ExecutionDecision.fields_ok d = true
  /\ (ExecutionDecision.approved_call d <> None
      <-> ExecutionDecision.decision_type d = ALLOW).
Proof.
  unfold ExecutionDecision.create, ExecutionDecision._allow_requires_approved_call.
  destruct (ExecutionDecision.fields_ok d); [|discriminate].
  destruct (ExecutionDecision.decision_type d),
    (ExecutionDecision.approved_call d); try discriminate;
    intros H; injection H as <-; repeat split; congruence.
Qed.

Lemma deny_decision_inv reason h pid pv prh rt d :
  deny_decision reason h pid pv prh rt = Ok d ->
  exists prov,
    provenance_id_from_inputs h prh (JStr (RuntimeMeta.version rt)) = Ok prov
    /\ d = ExecutionDecision.mk DENY reason h prov
             (DecisionProfileInfo.mk pid pv prh) rt None.
Proof.
  unfold deny_decision, bind.
  destruct (provenance_id_from_inputs _ _ _) as [prov|]; [|discriminate].
  intros H. apply create_inv in H as [-> _]. now exists prov.
Qed.

Lemma allow_decision_inv h pid pv prh tn ta rt d :
  allow_decision h pid pv prh tn ta rt = Ok d ->
  exists prov,
    provenance_id_from_inputs h prh (JStr (RuntimeMeta.version rt)) = Ok prov
    /\ d = ExecutionDecision.mk ALLOW OK h prov
             (DecisionProfileInfo.mk pid pv prh) rt
             (Some (ApprovedCall.mk tn ta)).
Proof.
  unfold allow_decision, bind.
  destruct (provenance_id_from_inputs _ _ _) as [prov|]; [|discriminate].
  intros H. apply create_inv in H as [-> _]. now exists prov.
Qed.

(** ** The gate and its audit lines *)

Lemma utc_now_iso_locals env fr :
  locals (snd (utc_now_iso env fr)) = locals fr.
Proof. reflexivity. Qed.

Lemma append_locals env record fr :
  locals (snd (append_audit_record env record fr)) = locals fr.
Proof.
  unfold append_audit_record. destruct (write_fails env _); reflexivity.
Qed.

Lemma record_locals env a b c d e f g h i j fr :
  locals (snd (_audit_record_from_denied env a b c d e f g h i j fr)) = locals fr.
Proof.
  unfold _audit_record_from_denied, bindM, lift, ret, utc_now_iso.
  destruct (provenance_id_from_inputs _ _ _); reflexivity.
Qed.

(** [log_and_return] leaves the variables as they are, and the decision it
    returns is the one it was given. *)
Lemma log_and_return_spec env d h t fr r fr' :
  log_and_return env d h t fr = (r, fr') ->
  locals fr' = locals fr /\ (forall d', r = Ok d' -> d' = d).
Proof.
  unfold log_and_return, bindM, get, ret.
  destruct (utc_now_iso env fr) as [[ts|e] fr1] eqn:E1.
  2:{ unfold utc_now_iso in E1. discriminate. }
  assert (L1 : locals fr1 = locals fr)
    by (change fr1 with (snd (Ok ts, fr1)); rewrite <- E1; apply utc_now_iso_locals).
  match goal with
  | |- context [_audit_record_from_denied env ?x1 ?x2 ?x3 ?x4 ?x5 ?x6 ?x7 ?x8 ?x9 ?x10 fr1] =>
      pose proof (record_locals env x1 x2 x3 x4 x5 x6 x7 x8 x9 x10 fr1) as L2;
      destruct (_audit_record_from_denied env x1 x2 x3 x4 x5 x6 x7 x8 x9 x10 fr1)
        as [[rec|e] fr2]
  end; simpl in L2.
  - pose proof (append_locals env rec fr2) as L3.
    destruct (append_audit_record env rec fr2) as [[[]|e] fr3]; simpl in L3;
      intros H; injection H as <- <-; (split; [congruence|]);
      intros d' Hd; congruence.
  - intros H; injection H as <- <-. split; [congruence|]. intros d' Hd. discriminate.
Qed.

(** *** The laws of [M] that the proofs run the gate with *)

Lemma bindM_lift_ok {A B} (a : A) (k : A -> M B) fr :
  bindM (lift (Ok a)) k fr = k a fr.
Proof. reflexivity. Qed.

Lemma bindM_lift_raise {A B} e (k : A -> M B) fr :
  bindM (lift (Raise e)) k fr = (Raise e, fr).
Proof. reflexivity. Qed.

Lemma bindM_ret {A B} (a : A) (k : A -> M B) fr : bindM (ret a) k fr = k a fr.
Proof. reflexivity. Qed.

Lemma bindM_get {B} (k : Frame -> M B) fr : bindM get k fr = k fr fr.
Proof. reflexivity. Qed.

Lemma bindM_assign {B} f (k : unit -> M B) fr :
  bindM (assign f) k fr = k tt (f fr).
Proof. reflexivity. Qed.

Lemma bindM_assoc {A B C} (m : M A) (k : A -> M B) (k' : B -> M C) fr :
  bindM (bindM m k) k' fr = bindM m (fun x => bindM (k x) k') fr.
Proof. unfold bindM. destruct (m fr) as [[a|e] fr1]; reflexivity. Qed.

Lemma deny_spec env reason h fr :
  deny env reason h fr
  = lift (deny_decision reason h (profile_id fr) (profile_version fr)
            (profile_ref_hash fr) (runtime env)) fr.
Proof. reflexivity. Qed.

Lemma bindM_deny {B} env reason h (k : ExecutionDecision.t -> M B) fr :
  bindM (deny env reason h) k fr
  = bindM (lift (deny_decision reason h (profile_id fr) (profile_version fr)
                   (profile_ref_hash fr) (runtime env))) k fr.
Proof. reflexivity. Qed.

Lemma enforce_spec env req pm h fr :
  enforce env req pm h fr = lift (enforce_result env req pm h fr) fr.
Proof.
  unfold enforce, enforce_result.
  destruct (find_tool_permit _ _) as [permit|]; [|apply deny_spec].
  destruct (require_controls req permit); [apply deny_spec|].
  destruct (enforce_constraints req permit); [apply deny_spec|].
  reflexivity.
Qed.

Lemma bindM_enforce {B} env req pm h (k : ExecutionDecision.t -> M B) fr :
  bindM (enforce env req pm h) k fr
  = bindM (lift (enforce_result env req pm h fr)) k fr.
Proof. unfold bindM. rewrite enforce_spec. reflexivity. Qed.

(** One step of a run: the head of the computation is reduced, and a call
    that may raise is split into its two outcomes. *)
Ltac run_step :=
  first
    [ rewrite bindM_assoc
    | rewrite bindM_lift_ok
    | rewrite bindM_lift_raise
    | rewrite bindM_ret
    | rewrite bindM_get
    | rewrite bindM_assign
    | rewrite bindM_deny
    | rewrite bindM_enforce
    | match goal with
      | |- context [bindM (lift ?r) _ _] =>
          let E := fresh "E" in destruct r eqn:E
      end ].

Ltac run := repeat run_step; try reflexivity.

(** [execute_try] is [decide] followed by the audit lines. *)
Lemma execute_try_decide env raw t fr :
  execute_try env raw t fr
  = bindM (decide env raw) (fun p => log_and_return env (fst p) (snd p) t) fr.
Proof.
  unfold execute_try, decide.
  destruct (json_loads raw) as [obj|e].
  - destruct (ExecutionRequest.model_validate obj) as [req|[]]; try reflexivity.
    + run. destruct (negb _).
      * run.
      * run. destruct (load_profile env _ _) as [[pm ph]|[]]; run.
    + run.
  - run.
Qed.

Lemma decide_ok env raw fr d h fr' :
  decide env raw fr = (Ok (d, h), fr') -> Decided env raw fr d h fr'.
Proof.
  unfold decide.
  destruct (json_loads raw) as [obj|e] eqn:EL.
  - destruct (ExecutionRequest.model_validate obj) as [req|[]] eqn:EV;
      try (unfold lift; discriminate).
    + run; try discriminate. destruct (negb _) eqn:EN.
      * run; try discriminate.
        unfold ret. intros H; injection H as <- <- <-.
        apply negb_true_iff, str_eqb_neq in EN.
        eapply DContext; eauto.
      * apply negb_false_iff, str_eqb_eq in EN. subst.
        run.
        change (profile_id (set_request req fr))
          with (ProfileRef.id (ExecutionRequest.profile req)).
        change (profile_version (set_request req fr))
          with (ProfileRef.version (ExecutionRequest.profile req)).
        destruct (load_profile env _ _) as [[pm ph]|[]] eqn:ELP;
          run; try discriminate;
          unfold ret; intros H; injection H as <- <- <-.
        -- eapply DEnforce; eauto.
        -- eapply DLoad; eauto.
    + run; try discriminate.
      unfold ret. intros H; injection H as <- <- <-.
      eapply DSchema; eauto.
  - run; try discriminate.
    unfold ret. intros H; injection H as <- <- <-.
    eapply DParse; eauto.
Qed.

Lemma decide_frame env raw fr r fr' :
  decide env raw fr = (r, fr') -> frame_after env raw fr fr'.
Proof.
  unfold decide, frame_after.
  destruct (json_loads raw) as [obj|e] eqn:EL.
  - destruct (ExecutionRequest.model_validate obj) as [req|[]] eqn:EV;
      try (unfold lift; intros H; injection H as _ <-; reflexivity).
    + run; try (intros H; injection H as _ <-; now left).
      destruct (negb _) eqn:EN.
      * run; unfold ret; intros H; injection H as _ <-; now left.
      * apply negb_false_iff, str_eqb_eq in EN. subst.
        run.
        change (profile_id (set_request req fr))
          with (ProfileRef.id (ExecutionRequest.profile req)).
        change (profile_version (set_request req fr))
          with (ProfileRef.version (ExecutionRequest.profile req)).
        destruct (load_profile env _ _) as [[pm ph]|[]] eqn:ELP;
          run; unfold ret, lift; intros H; injection H as _ <-;
          try (now left); right; exists pm, ph; auto.
    + run; unfold ret; intros H; injection H as _ <-; reflexivity.
  - run; unfold ret; intros H; injection H as _ <-; reflexivity.
Qed.

Lemma locals_eq fr1 fr2 :
  locals fr1 = locals fr2 ->
  request_id fr1 = request_id fr2 /\ profile_id fr1 = profile_id fr2
  /\ profile_version fr1 = profile_version fr2
  /\ profile_ref_hash fr1 = profile_ref_hash fr2.
Proof. unfold locals. intros H. injection H as -> -> -> ->. auto. Qed.

(** The [except] clause returns the INTERNAL_ERROR decision made from the
    raw bytes and the variables as the failure left them. *)
Lemma execute_except_ok env raw t fr d fr' :
  execute_except env raw t fr = (Ok d, fr') ->
  deny_decision INTERNAL_ERROR (sha256_prefixed raw) (profile_id fr)
    (profile_version fr) (profile_ref_hash fr) (runtime env) = Ok d.
Proof.
  unfold execute_except. run; try discriminate.
  intros H. apply log_and_return_spec in H as [_ H].
  now rewrite (H d eq_refl).
Qed.

(** Where a decision that [execute] returns comes from: a branch of the
    [try], or the [except] clause with the variables of the failed run. *)
Lemma execute_cases env raw w d w' :
  execute env raw w = (Ok d, w') ->
  exists h0 fr1,
    fallback_profile_ref_hash = Ok h0
    /\ frame_after env raw (frame0 (snd (now env w)) h0) fr1
    /\ ((exists h, Decided env raw (frame0 (snd (now env w)) h0) d h fr1)
        \/ deny_decision INTERNAL_ERROR (sha256_prefixed raw) (profile_id fr1)
             (profile_version fr1) (profile_ref_hash fr1) (runtime env) = Ok d).
Proof.
  unfold execute. destruct (now env w) as [t w1] eqn:EN. simpl snd.
  destruct fallback_profile_ref_hash as [h0|]; [|discriminate].
  fold (frame0 w1 h0). unfold try_except. rewrite execute_try_decide.
  unfold bindM.
  destruct (decide env raw (frame0 w1 h0)) as [[[d0 h]|e] fr1] eqn:ED.
  - pose proof (decide_frame _ _ _ _ _ ED) as FA. simpl fst; simpl snd.
    destruct (log_and_return env d0 h t fr1) as [[d1|e] fr2] eqn:EL.
    + apply log_and_return_spec in EL as [_ EL]. rewrite (EL d1 eq_refl).
      intros H; injection H as <- _.
      exists h0, fr1. repeat split; auto. left. exists h. now apply decide_ok.
    + apply log_and_return_spec in EL as [L _].
      apply locals_eq in L as (_ & L1 & L2 & L3).
      destruct (execute_except env raw t fr2) as [[d1|] fr3] eqn:EX;
        [|discriminate].
      intros H; injection H as <- _.
      apply execute_except_ok in EX. rewrite L1, L2, L3 in EX.
      exists h0, fr1. repeat split; auto.
  - pose proof (decide_frame _ _ _ _ _ ED) as FA.
    destruct (execute_except env raw t fr1) as [[d1|] fr3] eqn:EX;
      [|discriminate].
    intros H; injection H as <- _.
    apply execute_except_ok in EX.
    exists h0, fr1. repeat split; auto.
Qed.

(** ** The decisions of the gate *)

Lemma fallback_value :
  fallback_profile_ref_hash = Ok (sha256_prefixed (raw_of "{}")).
Proof. reflexivity. Qed.

Lemma allow_run_eq :
  execute example_env allow_request fresh_world = allow_run.
Proof. vm_compute. reflexivity. Qed.

Lemma array_run_eq :
  execute example_env array_request fresh_world = array_run.
Proof. vm_compute. reflexivity. Qed.

Lemma garbage_run_eq :
  execute example_env garbage_request fresh_world = garbage_run.
Proof. vm_compute. reflexivity. Qed.

Lemma mismatch_run_eq :
  execute example_env mismatch_request fresh_world = mismatch_run.
Proof. vm_compute. reflexivity. Qed.

(** The cases of a decision that [execute] returned: the five branches of
    the [try] that decide, then the [except] clause. *)
Ltac decision_cases H :=
  let h0 := fresh "h0" in
  let fr1 := fresh "fr1" in
  let FB := fresh "FB" in
  let FA := fresh "FA" in
  let h := fresh "h" in
  let D := fresh "D" in
  apply execute_cases in H as (h0 & fr1 & FB & FA & [[h D] | D]);
  [ destruct D as [e EL Hh Hf D | obj b EL EV EB Hh Hf D
                  | obj req c EL EV EH EC NE Hf D
                  | obj req args EL EV EH EC ELP Hf D
                  | obj req pm ph EL EV EH EC ELP Hf D]
  | ].

(** C1 (fail-closed). Every decision that [execute] returns is ALLOW or
    DENY; a decision whose reason code is not OK is DENY; and a decision is
    ALLOW only on the success path: the body parsed, the request validated,
    the snapshot hash matched, the profile loaded, a permit was found, its
    required controls were satisfied and all its argument constraints
    passed, and then the reason code is OK. *)
Theorem execute_fail_closed env raw w d w' :
  execute env raw w = (Ok d, w') ->
  (ExecutionDecision.decision_type d = ALLOW
   \/ ExecutionDecision.decision_type d = DENY)
  /\ (ExecutionDecision.reason_code d <> OK ->
      ExecutionDecision.decision_type d = DENY)
  /\ (ExecutionDecision.decision_type d = ALLOW ->
      ExecutionDecision.reason_code d = OK
      /\ exists obj req pm ph permit,
           json_loads raw = Ok obj
           /\ ExecutionRequest.model_validate obj = Ok req
           /\ hash_json (Context.snapshot (ExecutionRequest.context req))
              = Ok (Context.snapshot_hash (ExecutionRequest.context req))
           /\ load_profile env (ProfileRef.id (ExecutionRequest.profile req))
                (ProfileRef.version (ExecutionRequest.profile req))
              = Ok (pm, ph)
           /\ find_tool_permit pm (ToolCall.name (ExecutionRequest.tool req))
              = Some permit
           /\ require_controls req permit = None
           /\ enforce_constraints req permit = None).
Proof.
  intros H. decision_cases H;
    try (apply deny_decision_inv in D as (prov & _ & ->); simpl;
         repeat split; auto; discriminate).
  unfold enforce_result in D.
  destruct (find_tool_permit _ _) as [permit|] eqn:EP;
    [destruct (require_controls req permit) eqn:ER;
     [|destruct (enforce_constraints req permit) eqn:ECo]|];
    try (apply deny_decision_inv in D as (prov & _ & ->); simpl;
         repeat split; auto; discriminate).
  apply allow_decision_inv in D as (prov & _ & ->). simpl.
  repeat split; auto; try congruence.
  exists obj, req, pm, ph, permit. auto 10.
Qed.

Lemma execute_fail_closed_witness :
  exists d w',
    execute example_env allow_request fresh_world = (Ok d, w')
    /\ ExecutionDecision.decision_type d = ALLOW
    /\ ExecutionDecision.reason_code d = OK.
Proof.
  pose proof allow_run_eq as E. unfold allow_run in E.
  match type of E with
  | _ = (Ok ?d, ?w) => exists d, w
  end.
  split; [exact E|]. split; [reflexivity|].
  exact (proj1 (proj2 (proj2 (execute_fail_closed _ _ _ _ _ E)) eq_refl)).
Defined.

(** C2. A decision that [execute] returns carries an approved call if and
    only if it is ALLOW, and the approved call then has the name and the
    arguments of the tool call of the validated request, so that their
    canonical bytes are the same. *)
Theorem approved_call_iff_allow env raw w d w' :
  execute env raw w = (Ok d, w') ->
  (ExecutionDecision.approved_call d <> None
   <-> ExecutionDecision.decision_type d = ALLOW)
  /\ (forall ac, ExecutionDecision.approved_call d = Some ac ->
      exists obj req,
        json_loads raw = Ok obj
        /\ ExecutionRequest.model_validate obj = Ok req
        /\ ApprovedCall.tool_name ac = ToolCall.name (ExecutionRequest.tool req)
        /\ ApprovedCall.tool_args ac = ToolCall.args (ExecutionRequest.tool req)
        /\ canonical_json_bytes (ApprovedCall.tool_args ac)
           = canonical_json_bytes (ToolCall.args (ExecutionRequest.tool req))).
Proof.
  intros H. decision_cases H;
    try (apply deny_decision_inv in D as (prov & _ & ->); simpl;
         split; [split; [congruence | discriminate] | discriminate]).
  unfold enforce_result in D.
  destruct (find_tool_permit _ _) as [permit|] eqn:EP;
    [destruct (require_controls req permit) eqn:ER;
     [|destruct (enforce_constraints req permit) eqn:ECo]|];
    try (apply deny_decision_inv in D as (prov & _ & ->); simpl;
         split; [split; [congruence | discriminate] | discriminate]).
  apply allow_decision_inv in D as (prov & _ & ->). simpl.
  split; [split; [reflexivity | discriminate]|].
  intros ac Hac. injection Hac as <-. simpl.
  exists obj, req. auto.
Qed.

Lemma approved_call_iff_allow_witness :
  exists d w' ac,
    execute example_env allow_request fresh_world = (Ok d, w')
    /\ ExecutionDecision.approved_call d = Some ac
    /\ ExecutionDecision.decision_type d = ALLOW
    /\ ApprovedCall.tool_name ac = py "email.send".
Proof.
  pose proof allow_run_eq as E. unfold allow_run in E.
  match type of E with
  | _ = (Ok ?d, ?w) =>
      match eval cbv in (ExecutionDecision.approved_call d) with
      | Some ?ac => exists d, w, ac
      end
  end.
  split; [exact E|]. split; [reflexivity|]. split; [|reflexivity].
  apply (proj1 (approved_call_iff_allow _ _ _ _ _ E)). discriminate.
Defined.

(** C4, as the code has it. When the body does not parse, the request hash
    of the decision is the digest of the raw bytes. When the body parses
    but does not validate, the request hash of a REQUEST_SCHEMA_INVALID
    decision is the digest of the canonical bytes of the parsed value, and
    the only other decision is the INTERNAL_ERROR one, with the digest of
    the raw bytes. When the request validates, the request hash is
    [hash_json] of the validated request, or again the raw digest of an
    INTERNAL_ERROR decision; so [hash_json] of the request is used only
    where validation succeeded. *)
Theorem request_hash_by_path env raw w d w' :
  execute env raw w = (Ok d, w') ->
  (forall e, json_loads raw = Raise e ->
     ExecutionDecision.request_hash d = sha256_prefixed raw)
  /\ (forall obj e,
        json_loads raw = Ok obj ->
        ExecutionRequest.model_validate obj = Raise e ->
        (ExecutionDecision.reason_code d = REQUEST_SCHEMA_INVALID
         /\ exists b, canonical_json_bytes obj = Ok b
                      /\ ExecutionDecision.request_hash d = sha256_prefixed b)
        \/ (ExecutionDecision.reason_code d = INTERNAL_ERROR
            /\ ExecutionDecision.request_hash d = sha256_prefixed raw))
  /\ (forall obj req,
        json_loads raw = Ok obj ->
        ExecutionRequest.model_validate obj = Ok req ->
        hash_json (ExecutionRequest.model_dump req)
        = Ok (ExecutionDecision.request_hash d)
        \/ (ExecutionDecision.reason_code d = INTERNAL_ERROR
            /\ ExecutionDecision.request_hash d = sha256_prefixed raw)).
Proof.
  intros H. decision_cases H.
  6:{ apply deny_decision_inv in D as (prov & _ & ->). simpl.
      repeat split; intros; auto. }
  5:{ assert (ExecutionDecision.request_hash d = h) as ->.
      { unfold enforce_result in D.
        destruct (find_tool_permit _ _) as [permit|];
          [destruct (require_controls req permit);
           [|destruct (enforce_constraints req permit)]|];
          try (apply deny_decision_inv in D as (prov & _ & ->); reflexivity).
        apply allow_decision_inv in D as (prov & _ & ->). reflexivity. }
      repeat split; intros; try congruence.
      left. congruence. }
  all: apply deny_decision_inv in D as (prov & _ & ->); simpl;
    repeat split; intros; try congruence.
  - left. split; [reflexivity|]. exists b. split; congruence.
  - left. congruence.
  - left. congruence.
Qed.

Lemma request_hash_by_path_witness :
  exists d w',
    execute example_env garbage_request fresh_world = (Ok d, w')
    /\ ExecutionDecision.request_hash d = sha256_prefixed garbage_request.
Proof.
  pose proof garbage_run_eq as E. unfold garbage_run in E.
  match type of E with
  | _ = (Ok ?d, ?w) => exists d, w
  end.
  split; [exact E|].
  apply (proj1 (request_hash_by_path _ _ _ _ _ E) JSONDecodeError).
  reflexivity.
Defined.

(** C4 as stated fails: the body [[ ]] is valid JSON and not a request, and
    the request hash of its REQUEST_SCHEMA_INVALID decision is the digest of
    the canonical form [[]], which is not the digest of the raw bytes. *)
Lemma schema_invalid_hash_is_not_raw :
  exists d w',
    json_loads array_request = Ok (JList [])
    /\ execute example_env array_request fresh_world = (Ok d, w')
    /\ ExecutionDecision.reason_code d = REQUEST_SCHEMA_INVALID
    /\ ExecutionDecision.request_hash d = sha256_prefixed (raw_of "[]")
    /\ ExecutionDecision.request_hash d <> sha256_prefixed array_request.
Proof.
  pose proof array_run_eq as E. unfold array_run in E.
  match type of E with
  | _ = (Ok ?d, ?w) => exists d, w
  end.
  split; [reflexivity|]. split; [exact E|]. split; [reflexivity|].
  split; [vm_compute; reflexivity | vm_compute; discriminate].
Qed.

(** C10. A decision for a request that fails before the profile is loaded
    has its profile fields filled: after a parse failure or a validation
    failure they are UNKNOWN, UNKNOWN and the digest of the canonical empty
    object; after a snapshot hash that does not match (or cannot be
    computed) they are the profile id and version of the request and the
    same fallback digest. *)
Theorem early_failure_profile_fields env raw w d w' :
  execute env raw w = (Ok d, w') ->
  ((exists e, json_loads raw = Raise e)
   \/ (exists obj e, json_loads raw = Ok obj
                     /\ ExecutionRequest.model_validate obj = Raise e) ->
   ExecutionDecision.profile d
   = DecisionProfileInfo.mk (py "UNKNOWN") (py "UNKNOWN")
       (sha256_prefixed (raw_of "{}")))
  /\ (forall obj req,
        json_loads raw = Ok obj ->
        ExecutionRequest.model_validate obj = Ok req ->
        hash_json (Context.snapshot (ExecutionRequest.context req))
        <> Ok (Context.snapshot_hash (ExecutionRequest.context req)) ->
        ExecutionDecision.profile d
        = DecisionProfileInfo.mk
            (ProfileRef.id (ExecutionRequest.profile req))
            (ProfileRef.version (ExecutionRequest.profile req))
            (sha256_prefixed (raw_of "{}"))).
Proof.
  intros H. decision_cases H;
    rewrite fallback_value in FB; injection FB as <-;
    unfold frame_after in FA;
    try (unfold enforce_result in D;
         destruct (find_tool_permit _ _) as [permit|];
         [destruct (require_controls req permit);
          [|destruct (enforce_constraints req permit)]|]);
    try (apply deny_decision_inv in D as (prov & _ & ->));
    try (apply allow_decision_inv in D as (prov & _ & ->));
    subst; simpl; (split; [intros [[e' E'] | (obj' & e' & E1 & E2)]
                          | intros obj' req' E1 E2 E3]);
    try congruence; try reflexivity.
  all: try (rewrite E1 in EL; injection EL as ->;
            rewrite E2 in EV; injection EV as ->; reflexivity).
  - rewrite E' in FA. subst. reflexivity.
  - rewrite E1, E2 in FA. subst. reflexivity.
  - rewrite E1, E2 in FA. destruct FA as [-> | (pm & ph & EC & _)];
      [reflexivity | contradiction].
Qed.

Lemma early_failure_profile_fields_witness :
  (exists d w',
     execute example_env garbage_request fresh_world = (Ok d, w')
     /\ ExecutionDecision.profile d
        = DecisionProfileInfo.mk (py "UNKNOWN") (py "UNKNOWN")
            (sha256_prefixed (raw_of "{}")))
  /\ (exists d w',
        execute example_env mismatch_request fresh_world = (Ok d, w')
        /\ ExecutionDecision.reason_code d = CTX_HASH_MISMATCH
        /\ ExecutionDecision.profile d
           = DecisionProfileInfo.mk (py "example") (py "1.0.0")
               (sha256_prefixed (raw_of "{}"))).
Proof.
  split.
  - pose proof garbage_run_eq as E. unfold garbage_run in E.
    match type of E with
    | _ = (Ok ?d, ?w) => exists d, w
    end.
    split; [exact E|].
    apply (proj1 (early_failure_profile_fields _ _ _ _ _ E)).
    left. exists JSONDecodeError. reflexivity.
  - pose proof mismatch_run_eq as E. unfold mismatch_run in E.
    match type of E with
    | _ = (Ok ?d, ?w) => exists d, w
    end.
    split; [exact E|]. split; [reflexivity|].
    match eval cbv delta [mismatch_parsed] in mismatch_parsed with
    | Ok ?obj =>
        match eval cbv delta [mismatch_validated] in mismatch_validated with
        | Ok ?req =>
            apply (proj2 (early_failure_profile_fields _ _ _ _ _ E) obj req);
            [ vm_compute; reflexivity
            | vm_compute; reflexivity
            | vm_compute; discriminate ]
        end
    end.
Defined.

(** ** Two runs on the same bytes *)

Lemma bindM_utc {B} env (k : pystr -> M B) fr :
  bindM (utc_now_iso env) k fr
  = k (fst (now env (world fr))) (set_world (snd (now env (world fr))) fr).
Proof. reflexivity. Qed.

Lemma bindM_append_ok {B} env record (k : unit -> M B) fr :
  write_fails env (attempts (world fr)) = false ->
  bindM (append_audit_record env record) k fr
  = k tt (set_world
            (mkWorld (ticks (world fr)) (S (attempts (world fr)))
               (audit_log (world fr)
                ++ [JDict (dict_set record (py "seq")
                             (JInt (Z.of_nat (List.length (audit_log (world fr))))))]))
            fr).
Proof.
  intros H. unfold bindM, append_audit_record. rewrite H. reflexivity.
Qed.

Section TwoRuns.

Variables env1 env2 : Env.
Hypothesis same_runtime : runtime env1 = runtime env2.
Hypothesis same_store :
  forall id version, load_profile env1 id version = load_profile env2 id version.

(** The appends tried so far in each run, and neither run's next write
    fails. *)
Variables a1 a2 : nat.
Hypothesis write1 : write_fails env1 a1 = false.
Hypothesis write2 : write_fails env2 a2 = false.

Lemma alike_bind {A B} (m1 m2 : M A) (k1 k2 : A -> M B) f1 f2 :
  alike_paired a1 a2 (m1 f1) (m2 f2) ->
  (forall a g1 g2, paired a1 a2 g1 g2 -> alike a1 a2 (k1 a g1) (k2 a g2)) ->
  alike a1 a2 (bindM m1 k1 f1) (bindM m2 k2 f2).
Proof.
  unfold bindM, alike_paired.
  destruct (m1 f1) as [[x|e] g1], (m2 f2) as [[y|e'] g2]; try contradiction.
  - intros [-> P] K. now apply K.
  - intros P _. exact P.
Qed.

Lemma alike_try {A} (b1 b2 h1 h2 : M A) f1 f2 :
  alike a1 a2 (b1 f1) (b2 f2) ->
  (forall g1 g2, paired a1 a2 g1 g2 -> alike a1 a2 (h1 g1) (h2 g2)) ->
  alike a1 a2 (try_except b1 h1 f1) (try_except b2 h2 f2).
Proof.
  unfold try_except, alike at 1.
  destruct (b1 f1) as [[x|e] g1], (b2 f2) as [[y|e'] g2]; try contradiction.
  - intros -> _. reflexivity.
  - intros P K. now apply K.
Qed.

Lemma paired_fields f1 f2 :
  paired a1 a2 f1 f2 ->
  request_id f1 = request_id f2 /\ profile_id f1 = profile_id f2
  /\ profile_version f1 = profile_version f2
  /\ profile_ref_hash f1 = profile_ref_hash f2.
Proof. intros [L _]. now apply locals_eq. Qed.

Lemma paired_set_request req f1 f2 :
  paired a1 a2 f1 f2 ->
  paired a1 a2 (set_request req f1) (set_request req f2).
Proof.
  intros P. pose proof (paired_fields _ _ P) as (_ & _ & _ & Hh).
  destruct P as (_ & A1 & A2).
  unfold paired, locals. simpl. rewrite Hh. auto.
Qed.

Lemma paired_set_hash h f1 f2 :
  paired a1 a2 f1 f2 ->
  paired a1 a2 (set_profile_ref_hash h f1) (set_profile_ref_hash h f2).
Proof.
  intros P. pose proof (paired_fields _ _ P) as (Hr & Hi & Hv & _).
  destruct P as (_ & A1 & A2).
  unfold paired, locals. simpl. rewrite Hr, Hi, Hv. auto.
Qed.

Lemma alike_lift {A} (r : result A) f1 f2 :
  paired a1 a2 f1 f2 -> alike_paired a1 a2 (lift r f1) (lift r f2).
Proof. intros P. unfold lift, alike_paired. destruct r; auto. Qed.

Lemma deny_alike reason h f1 f2 :
  paired a1 a2 f1 f2 ->
  alike_paired a1 a2 (deny env1 reason h f1) (deny env2 reason h f2).
Proof.
  intros P. pose proof (paired_fields _ _ P) as (_ & Hi & Hv & Hh).
  rewrite !deny_spec, Hi, Hv, Hh, same_runtime. now apply alike_lift.
Qed.

Lemma enforce_alike req pm h f1 f2 :
  paired a1 a2 f1 f2 ->
  alike_paired a1 a2 (enforce env1 req pm h f1) (enforce env2 req pm h f2).
Proof.
  intros P. pose proof (paired_fields _ _ P) as (_ & Hi & Hv & Hh).
  rewrite !enforce_spec. unfold enforce_result.
  rewrite Hi, Hv, Hh, same_runtime. now apply alike_lift.
Qed.

Lemma alike_paired_bind {A B} (m1 m2 : M A) (k1 k2 : A -> M B) f1 f2 :
  alike_paired a1 a2 (m1 f1) (m2 f2) ->
  (forall a g1 g2,
      paired a1 a2 g1 g2 -> alike_paired a1 a2 (k1 a g1) (k2 a g2)) ->
  alike_paired a1 a2 (bindM m1 k1 f1) (bindM m2 k2 f2).
Proof.
  unfold bindM, alike_paired at 1.
  destruct (m1 f1) as [[x|e] g1], (m2 f2) as [[y|e'] g2]; try contradiction.
  - intros [-> P] K. now apply K.
  - intros P _. exact P.
Qed.

Lemma ret_alike {A} (a : A) f1 f2 :
  paired a1 a2 f1 f2 -> alike_paired a1 a2 (ret a f1) (ret a f2).
Proof. intros P. split; [reflexivity | exact P]. Qed.

(** The two runs reach the same decision and request hash, or both raise. *)
Lemma decide_alike raw f1 f2 :
  paired a1 a2 f1 f2 ->
  alike_paired a1 a2 (decide env1 raw f1) (decide env2 raw f2).
Proof.
  intros P. unfold decide.
  destruct (json_loads raw) as [obj|e].
  2:{ apply alike_paired_bind; [now apply deny_alike|].
      intros; now apply ret_alike. }
  destruct (ExecutionRequest.model_validate obj) as [req|[]];
    try (now apply alike_lift).
  - apply alike_paired_bind.
    { unfold assign. split; [reflexivity | now apply paired_set_request]. }
    intros _ g1 g2 P1.
    apply alike_paired_bind; [now apply alike_lift|]. intros h g3 g4 P2.
    apply alike_paired_bind; [now apply alike_lift|]. intros c g5 g6 P3.
    destruct (negb _).
    + apply alike_paired_bind; [now apply deny_alike|].
      intros; now apply ret_alike.
    + rewrite !bindM_get.
      pose proof (paired_fields _ _ P3) as (_ & Hi & Hv & _).
      rewrite Hi, Hv, same_store.
      destruct (load_profile env2 _ _) as [[pm ph]|[]];
        try (now apply alike_lift).
      * apply alike_paired_bind.
        { unfold assign. split; [reflexivity | now apply paired_set_hash]. }
        intros _ g7 g8 P4.
        apply alike_paired_bind; [now apply enforce_alike|].
        intros; now apply ret_alike.
      * apply alike_paired_bind; [now apply deny_alike|].
        intros; now apply ret_alike.
  - apply alike_paired_bind; [now apply alike_lift|]. intros b g1 g2 P1.
    apply alike_paired_bind; [now apply deny_alike|].
    intros; now apply ret_alike.
Qed.

(** With a write that does not fail, the audit lines of the two runs both
    return the decision, or both raise before the append. *)
Lemma log_alike d h t1 t2 f1 f2 :
  paired a1 a2 f1 f2 ->
  alike a1 a2 (log_and_return env1 d h t1 f1) (log_and_return env2 d h t2 f2).
Proof.
  intros P. pose proof (paired_fields _ _ P) as (Hr & Hi & Hv & Hh).
  destruct P as (L & A1 & A2).
  unfold log_and_return, _audit_record_from_denied.
  rewrite !bindM_utc, !bindM_get, !bindM_assoc, !bindM_utc, !bindM_assoc.
  cbn [profile_ref_hash set_world].
  rewrite Hh.
  destruct (provenance_id_from_inputs h (profile_ref_hash f2) _) as [prov|].
  - rewrite !bindM_lift_ok, !bindM_ret.
    rewrite !bindM_append_ok;
      [reflexivity | cbn [attempts snd now world set_world]; congruence ..].
  - rewrite !bindM_lift_raise.
    unfold alike, paired, locals. cbn [attempts snd now world set_world
      request_id profile_id profile_version profile_ref_hash].
    rewrite Hr, Hi, Hv, Hh. auto.
Qed.

Lemma execute_except_alike raw t1 t2 f1 f2 :
  paired a1 a2 f1 f2 ->
  alike a1 a2 (execute_except env1 raw t1 f1) (execute_except env2 raw t2 f2).
Proof.
  intros P. unfold execute_except.
  apply alike_bind; [now apply deny_alike|].
  intros d g1 g2 P1. now apply log_alike.
Qed.

Lemma execute_alike raw w1 w2 d1 d2 w1' w2' :
  attempts w1 = a1 -> attempts w2 = a2 ->
  execute env1 raw w1 = (Ok d1, w1') ->
  execute env2 raw w2 = (Ok d2, w2') ->
  d1 = d2.
Proof.
  intros A1 A2. unfold execute.
  destruct (now env1 w1) as [t1 u1] eqn:N1.
  destruct (now env2 w2) as [t2 u2] eqn:N2.
  destruct fallback_profile_ref_hash as [h0|]; [|discriminate].
  set (F1 := mkFrame u1 (py "UNKNOWN") (py "UNKNOWN") (py "UNKNOWN") h0).
  set (F2 := mkFrame u2 (py "UNKNOWN") (py "UNKNOWN") (py "UNKNOWN") h0).
  assert (P : paired a1 a2 F1 F2).
  { unfold now in N1, N2. injection N1 as _ <-. injection N2 as _ <-.
    unfold paired, locals. simpl. auto. }
  pose proof (alike_try (execute_try env1 raw t1) (execute_try env2 raw t2)
                (execute_except env1 raw t1) (execute_except env2 raw t2)
                F1 F2) as T.
  destruct (try_except (execute_try env1 raw t1) _ F1) as [r1 g1].
  destruct (try_except (execute_try env2 raw t2) _ F2) as [r2 g2].
  intros E1 E2. injection E1 as -> _. injection E2 as -> _.
  apply T.
  - rewrite !execute_try_decide.
    apply alike_bind; [now apply decide_alike|].
    intros [d h] g3 g4 P1. now apply log_alike.
  - intros g3 g4 P1. now apply execute_except_alike.
Qed.

End TwoRuns.

Lemma allow_rerun_eq :
  execute late_env allow_request (snd allow_run) = allow_rerun.
Proof. vm_compute. reflexivity. Qed.

Lemma flaky_run_eq :
  execute flaky_env allow_request fresh_world = flaky_run.
Proof. vm_compute. reflexivity. Qed.

Lemma flaky_rerun_eq :
  execute flaky_env allow_request (snd flaky_run) = flaky_rerun.
Proof. vm_compute. reflexivity. Qed.

(** C5, as the code has it. Two runs of the gate on the same request bytes,
    with the same runtime identity and the same profile store, return
    decisions with the same provenance id whatever the clock and the audit
    log are, provided the write to the audit file fails in neither run. *)
Theorem provenance_deterministic env1 env2 raw w1 w2 d1 d2 w1' w2' :
  runtime env1 = runtime env2 ->
  (forall id version,
     load_profile env1 id version = load_profile env2 id version) ->
  write_fails env1 (attempts w1) = false ->
  write_fails env2 (attempts w2) = false ->
  execute env1 raw w1 = (Ok d1, w1') ->
  execute env2 raw w2 = (Ok d2, w2') ->
  ExecutionDecision.provenance_id d1 = ExecutionDecision.provenance_id d2.
Proof.
  intros Hr Hs F1 F2 E1 E2. f_equal.
  exact (execute_alike env1 env2 Hr Hs _ _ F1 F2 raw w1 w2 d1 d2 w1' w2'
           eq_refl eq_refl E1 E2).
Qed.

Lemma provenance_deterministic_witness :
  exists d1 w1 d2 w2,
    execute example_env allow_request fresh_world = (Ok d1, w1)
    /\ execute late_env allow_request w1 = (Ok d2, w2)
    /\ ExecutionDecision.provenance_id d1 = ExecutionDecision.provenance_id d2.
Proof.
  pose proof allow_run_eq as E1. pose proof allow_rerun_eq as E2.
  unfold allow_rerun in E2. unfold allow_run in E1, E2. cbn [snd] in E2.
  match type of E1 with
  | _ = (Ok ?d1, ?w1) =>
      match type of E2 with
      | _ = (Ok ?d2, ?w2) => exists d1, w1, d2, w2
      end
  end.
  split; [exact E1|]. split; [exact E2|].
  exact (provenance_deterministic example_env late_env allow_request _ _ _ _ _ _
           eq_refl (fun _ _ => eq_refl) eq_refl eq_refl E1 E2).
Defined.

(** C5 as stated fails: when the first write to the audit file fails, the
    run falls back to the INTERNAL_ERROR decision, whose request hash is the
    digest of the raw bytes; the same bytes sent again, against the same
    profile and runtime, get another provenance id. *)
Lemma provenance_changes_after_failed_write :
  exists d1 w1 d2 w2,
    execute flaky_env allow_request fresh_world = (Ok d1, w1)
    /\ execute flaky_env allow_request w1 = (Ok d2, w2)
    /\ ExecutionDecision.reason_code d1 = INTERNAL_ERROR
    /\ ExecutionDecision.reason_code d2 = OK
    /\ ExecutionDecision.provenance_id d1 <> ExecutionDecision.provenance_id d2.
Proof.
  pose proof flaky_run_eq as E1. pose proof flaky_rerun_eq as E2.
  unfold flaky_rerun in E2. unfold flaky_run in E1, E2. cbn [snd] in E2.
  match type of E1 with
  | _ = (Ok ?d1, ?w1) =>
      match type of E2 with
      | _ = (Ok ?d2, ?w2) => exists d1, w1, d2, w2
      end
  end.
  split; [exact E1|]. split; [exact E2|].
  split; [reflexivity|]. split; [reflexivity|]. discriminate.
Qed.

(** ** Enforcement *)

Lemma bool_run_eq : execute number_env bool_request fresh_world = bool_run.
Proof. vm_compute. reflexivity. Qed.

(** C3 (the code departs from the claim). A rule of type [number] takes a
    boolean for a number: with no bounds the rule passes for [true] and for
    [false], with bounds the boolean is compared as 1.0 or 0.0; and the gate
    allows the call [counter.set] with [n = true] under a profile whose rule
    asks for a number from 0 to 10. *)
Theorem number_rule_accepts_bool :
  (forall (b : bool) (key : pystr) (d : pydict json),
     dict_get d key = Some (JBool b) ->
     check_rule (JDict d)
       (ArgRule.mk (py "$." ++ key) (py "number") None None None None None)
     = Ok None)
  /\ check_rule (JDict [(py "n", JBool true)]) number_rule = Ok None
  /\ exists d w',
       execute number_env bool_request fresh_world = (Ok d, w')
       /\ ExecutionDecision.decision_type d = ALLOW
       /\ ExecutionDecision.reason_code d = OK.
Proof.
  split; [|split].
  - intros b key d Hk. unfold check_rule, _get_arg_value.
    cbn [ArgRule.path ArgRule.type ArgRule.min ArgRule.max].
    assert (S : startswith (py "$." ++ key) (py "$.") = true)
      by (apply startswith_app; now exists key).
    rewrite S. cbn [negb].
    change (slice_from 2 (py "$." ++ key)) with key.
    rewrite Hk. cbn [bind]. reflexivity.
  - vm_compute. reflexivity.
  - pose proof bool_run_eq as E. unfold bool_run in E.
    match type of E with
    | _ = (Ok ?d, ?w) => exists d, w
    end.
    split; [exact E|]. split; reflexivity.
Qed.

Lemma check_rules_app args pre rest :
  check_rules args pre = Ok None ->
  check_rules args (pre ++ rest) = check_rules args rest.
Proof.
  induction pre as [|r pre IH]; simpl; [reflexivity|].
  destruct (check_rule args r) as [[rc|]|]; simpl; try discriminate.
  exact IH.
Qed.






(** ** Patterns *)

Module ReFacts.
Import Re.

Section Text.

Variable s : pystr.

Lemma step_char_In ok I j :
  In j (step_char ok s I)
  <-> exists i c, In i I /\ j = S i /\ nth_error s i = Some c /\ ok c = true.
Proof.
  unfold step_char. rewrite in_flat_map. split.
  - intros (i & Hi & Hj). destruct (nth_error s i) as [c|] eqn:E; [|destruct Hj].
    destruct (ok c) eqn:O; [|destruct Hj].
    destruct Hj as [<- | []]. now exists i, c.
  - intros (i & c & Hi & -> & E & O). exists i. split; [exact Hi|].
    rewrite E, O. now left.
Qed.

(** A match goes forward, and a match that consumes text stays in it. *)
Lemma match_bounds r i j :
  Match s r i j -> (i <= j)%nat /\ ((i < j)%nat -> (j <= List.length s)%nat).
Proof.
  assert (C : forall i c, nth_error s i = Some c -> (S i <= List.length s)%nat).
  { intros i' c E. apply Nat.le_succ_l, nth_error_Some. rewrite E. discriminate. }
  induction 1 as [i | c i E | c i E NE | neg ranges c i E O | | i E
                  | r1 r2 i j k M1 IH1 M2 IH2 | r1 r2 i j M IH
                  | r1 r2 i j M IH | r i | r i j k M1 IH1 M2 IH2];
    try (split; [lia | intros; lia]);
    try (split; [lia | intros _; eapply C; eassumption]);
    try assumption.
Qed.

Section Closure.

Variable r : regex.
Variable step : list nat -> list nat.
Hypothesis step_spec :
  forall J x, In x (step J) <-> exists i, In i J /\ Match s r i x.

Lemma closure_sound n I j :
  In j (closure n step I) -> exists i, In i I /\ Match s (Star r) i j.
Proof.
  revert I. induction n as [|n IH]; intros I; simpl.
  - intros H. exists j. split; [exact H | apply MStar0].
  - rewrite in_app_iff. intros [H | H].
    + exists j. split; [exact H | apply MStar0].
    + apply IH in H as (i' & Hi' & M). apply nodup_In, step_spec in Hi'.
      destruct Hi' as (i & Hi & M1). exists i. split; [exact Hi|].
      eapply MStarS; eauto.
Qed.

Lemma closure_complete i k :
  Match s (Star r) i k ->
  forall n I, In i I -> (List.length s - i <= n)%nat -> In k (closure n step I).
Proof.
  intros M. remember (Star r) as R eqn:ER. revert ER.
  induction M; intros ER; try discriminate; injection ER as ->.
  - intros n I Hi _. destruct n; simpl; [exact Hi | apply in_app_iff; now left].
  - intros n I Hi Hn. destruct (Nat.eq_dec i j) as [-> | NE].
    + now apply IHM2.
    + pose proof (match_bounds _ _ _ M1) as [B1 B2].
      assert (i < j)%nat by lia. specialize (B2 H).
      destruct n as [|n]; [lia|]. simpl. apply in_app_iff. right.
      apply IHM2; [reflexivity | | lia].
      apply nodup_In, step_spec. now exists i.
Qed.

End Closure.

(** [reach] computes the ends of the matches. *)
Lemma reach_spec r :
  forall I j, In j (reach r s I) <-> exists i, In i I /\ Match s r i j.
Proof.
  induction r as [| c | | neg ranges | | | r1 IH1 r2 IH2 | r1 IH1 r2 IH2 | r IH];
    intros I j; simpl.
  - split.
    + intros H. exists j. split; [exact H | constructor].
    + intros (i & Hi & M). inversion M; subst. exact Hi.
  - rewrite step_char_In. split.
    + intros (i & c' & Hi & -> & E & O). apply N.eqb_eq in O. subst c'.
      exists i. split; [exact Hi | now constructor].
    + intros (i & Hi & M). inversion M; subst.
      exists i, c. repeat split; auto. apply N.eqb_refl.
  - rewrite step_char_In. split.
    + intros (i & c' & Hi & -> & E & O). exists i. split; [exact Hi|].
      econstructor; [exact E|]. unfold not_newline in O.
      apply negb_true_iff, N.eqb_neq in O. exact O.
    + intros (i & Hi & M). inversion M; subst.
      exists i, c. repeat split; auto. unfold not_newline.
      apply negb_true_iff, N.eqb_neq. assumption.
  - rewrite step_char_In. split.
    + intros (i & c' & Hi & -> & E & O). exists i. split; [exact Hi|].
      econstructor; eauto.
    + intros (i & Hi & M). inversion M; subst. exists i, c. auto.
  - rewrite filter_In. split.
    + intros [Hj E]. destruct j; [|discriminate].
      exists O. split; [exact Hj | constructor].
    + intros (i & Hi & M). inversion M; subst. split; [exact Hi | reflexivity].
  - rewrite filter_In. split.
    + intros [Hj E]. exists j. split; [exact Hj | now constructor].
    + intros (i & Hi & M). inversion M; subst. split; assumption.
  - rewrite IH2. split.
    + intros (m & Hm & M2). apply IH1 in Hm as (i & Hi & M1).
      exists i. split; [exact Hi | econstructor; eauto].
    + intros (i & Hi & M). inversion M; subst.
      exists j0. split; [|assumption]. apply IH1. now exists i.
  - rewrite nodup_In, in_app_iff, IH1, IH2. split.
    + intros [(i & Hi & M) | (i & Hi & M)]; exists i;
        (split; [exact Hi|]); [now apply MAltL | now apply MAltR].
    + intros (i & Hi & M). inversion M; subst; [left | right]; now exists i.
  - split.
    + apply closure_sound. exact IH.
    + intros (i & Hi & M).
      eapply closure_complete; eauto. lia.
Qed.

End Text.

(** [re.match] finds a match if and only if one starts at position 0. *)
Lemma match_spec r v :
  match_ (Compiled r) v = Ok true <-> exists j, Match v r O j.
Proof.
  unfold match_. split.
  - intros H. destruct (reach r v [O]) as [|j l] eqn:E; [discriminate|].
    assert (In j (reach r v [O])) by (rewrite E; now left).
    apply reach_spec in H0 as (i & [<- | []] & M). now exists j.
  - intros (j & M).
    assert (In j (reach r v [O])) by (apply reach_spec; exists O; split; [now left | exact M]).
    destruct (reach r v [O]); [destruct H | reflexivity].
Qed.

(** A match of a pattern without [$] is still one when text is added at
    the end. *)
Lemma match_extend p rest r i j :
  Match p r i j -> no_eol r = true -> Match (p ++ rest) r i j.
Proof.
  induction 1; simpl; intros N; try discriminate;
    try (apply andb_true_iff in N as [N1 N2]);
    try (econstructor; eauto; fail).
  - constructor. rewrite nth_error_app1; [assumption|].
    apply nth_error_Some. rewrite H. discriminate.
  - econstructor; eauto. rewrite nth_error_app1; [assumption|].
    apply nth_error_Some. rewrite H. discriminate.
  - econstructor; eauto. rewrite nth_error_app1; [assumption|].
    apply nth_error_Some. rewrite H. discriminate.
Qed.

End ReFacts.

Lemma pattern_fails_spec r v :
  pattern_fails (Some (Re.Compiled r)) v = Ok false
  <-> exists j, Re.Match v r O j.
Proof.
  rewrite <- ReFacts.match_spec. unfold pattern_fails, bind.
  destruct (Re.match_ (Re.Compiled r) v) as [[|]|]; simpl;
    split; intros H; try discriminate; reflexivity.
Qed.

Lemma pattern_fails_total r v :
  pattern_fails (Some (Re.Compiled r)) v = Ok false
  \/ pattern_fails (Some (Re.Compiled r)) v = Ok true.
Proof.
  unfold pattern_fails, bind, Re.match_.
  destruct (Re.reach r v [O]); simpl; auto.
Qed.

(** C6. The pattern check of a [string] rule passes if and only if the
    pattern has a match that starts at position 0 of the value and ends
    anywhere in it: for a value that is a string and passes the length and
    enumeration checks, the rule passes exactly then and is a
    CONSTRAINT_VIOLATION otherwise. So a value with a matching prefix passes
    whatever follows the prefix (for a pattern without [$]), as [abc] does
    for the pattern [ab], which has no match of the whole of [abc]. *)
Theorem pattern_is_prefix_match :
  (forall r v,
     pattern_fails (Some (Re.Compiled r)) v = Ok false
     <-> exists j, Re.Match v r O j)
  /\ (forall rule key d v r,
        ArgRule.path rule = py "$." ++ key ->
        ArgRule.type rule = py "string" ->
        ArgRule.pattern rule = Some (Re.Compiled r) ->
        dict_get d key = Some (JStr v) ->
        match ArgRule.max_len rule with
        | Some n => n <? py_len v
        | None => false
        end = false ->
        match ArgRule.enum rule with
        | Some l => negb (str_in v l)
        | None => false
        end = false ->
        (check_rule (JDict d) rule = Ok None <-> exists j, Re.Match v r O j)
        /\ (check_rule (JDict d) rule = Ok (Some CONSTRAINT_VIOLATION)
            <-> ~ exists j, Re.Match v r O j))
  /\ (forall r p rest,
        Re.no_eol r = true ->
        Re.Match p r O (List.length p) ->
        pattern_fails (Some (Re.Compiled r)) (p ++ rest) = Ok false)
  /\ (pattern_fails (Some (Re.Compiled (Re.Lit (py "ab")))) (py "abc") = Ok false
      /\ ~ Re.Match (py "abc") (Re.Lit (py "ab")) O 3).
Proof.
  split; [exact pattern_fails_spec|]. split; [|split].
  - intros rule key d v r Hp Ht Hpat Hk Hmax Henum.
    assert (S : startswith (py "$." ++ key) (py "$.") = true)
      by (apply startswith_app; now exists key).
    unfold check_rule, _get_arg_value.
    rewrite Hp, S, Ht, Hpat. cbn [negb].
    change (slice_from 2 (py "$." ++ key)) with key.
    rewrite Hk. cbn [bind]. rewrite str_eqb_refl, Hmax, Henum.
    rewrite <- pattern_fails_spec.
    destruct (pattern_fails_total r v) as [-> | ->]; cbn [bind];
      split; split; intros H; try discriminate; try reflexivity;
      try congruence.
  - intros r p rest N M. apply pattern_fails_spec.
    exists (List.length p). now apply ReFacts.match_extend.
  - split; [reflexivity|].
    intros M.
    assert (H : In 3%nat (Re.reach (Re.Lit (py "ab")) (py "abc") [O]))
      by (apply ReFacts.reach_spec; exists O; split; [now left | exact M]).
    vm_compute in H. destruct H as [H | []]. discriminate.
Qed.

Lemma pattern_is_prefix_match_witness :
  Re.no_eol (Re.Lit (py "ab")) = true
  /\ Re.Match (py "ab") (Re.Lit (py "ab")) O 2
  /\ pattern_fails (Some (Re.Compiled (Re.Lit (py "ab")))) (py "ab" ++ py "c")
     = Ok false.
Proof.
  assert (M : Re.Match (py "ab") (Re.Lit (py "ab")) O 2).
  { assert (H : In 2%nat (Re.reach (Re.Lit (py "ab")) (py "ab") [O]))
      by (now left).
    apply ReFacts.reach_spec in H as (i & [<- | []] & M). exact M. }
  split; [reflexivity|]. split; [exact M|].
  exact (proj1 (proj2 (proj2 pattern_is_prefix_match))
           (Re.Lit (py "ab")) (py "ab") (py "c") eq_refl M).
Defined.

(** ** Canonical form and key order *)

(** *** The order of keys *)

Lemma str_ltb_irrefl a : str_ltb a a = false.
Proof.
  induction a as [|x a IH]; simpl; [reflexivity|].
  rewrite N.ltb_irrefl, N.eqb_refl. exact IH.
Qed.

Lemma str_ltb_trans a b c :
  str_ltb a b = true -> str_ltb b c = true -> str_ltb a c = true.
Proof.
  revert b c. induction a as [|x a IH]; intros [|y b] [|z c]; simpl;
    try discriminate; try reflexivity.
  destruct (N.ltb_spec x y), (N.ltb_spec y z), (N.ltb_spec x z);
    try reflexivity; try lia;
    destruct (N.eqb_spec x y), (N.eqb_spec y z), (N.eqb_spec x z);
    try discriminate; try lia; try reflexivity.
  apply IH.
Qed.

Lemma str_ltb_total a b :
  a <> b -> str_ltb a b = false -> str_ltb b a = true.
Proof.
  revert b. induction a as [|x a IH]; intros [|y b]; simpl;
    try discriminate; try reflexivity; try congruence.
  intros NE.
  destruct (N.ltb_spec x y), (N.ltb_spec y x); try discriminate;
    try reflexivity; try lia.
  destruct (N.eqb_spec x y), (N.eqb_spec y x); try lia; try discriminate.
  subst. apply IH. congruence.
Qed.

Section Sorting.

Variable V : Type.

Lemma insert_perm kv (l : pydict V) : Permutation (kv :: l) (insert_by_key kv l).
Proof.
  induction l as [|kv' l IH]; simpl; [reflexivity|].
  destruct (str_ltb (fst kv) (fst kv')); [reflexivity|].
  rewrite perm_swap. now apply perm_skip.
Qed.

Lemma sort_perm (l : pydict V) : Permutation l (sort_items l).
Proof.
  induction l as [|kv l IH]; simpl; [reflexivity|].
  rewrite <- insert_perm. now apply perm_skip.
Qed.

Lemma insert_sorted kv (l : pydict V) :
  StronglySorted key_lt l ->
  ~ In (fst kv) (dict_keys l) ->
  StronglySorted key_lt (insert_by_key kv l).
Proof.
  induction 1 as [|kv' l S IH F]; simpl; intros NI.
  - repeat constructor.
  - destruct (str_ltb (fst kv) (fst kv')) eqn:E.
    + constructor; [now constructor|]. constructor; [exact E|].
      eapply Forall_impl; [|exact F]. intros x Hx.
      eapply str_ltb_trans; eauto.
    + assert (L : key_lt kv' kv).
      { apply str_ltb_total; [|exact E]. intros Q. apply NI. now left. }
      constructor; [apply IH; intros Q; apply NI; now right|].
      apply (Permutation_Forall (insert_perm kv l)).
      constructor; assumption.
Qed.

Lemma sort_sorted (l : pydict V) :
  NoDup (dict_keys l) -> StronglySorted key_lt (sort_items l).
Proof.
  induction l as [|kv l IH]; simpl; intros ND; [constructor|].
  inversion ND as [|k ks NI ND']; subst.
  apply insert_sorted; [now apply IH|].
  intros Q. apply NI. unfold dict_keys in *.
  eapply Permutation_in; [|exact Q].
  apply Permutation_map, Permutation_sym, sort_perm.
Qed.

(** Two sorted lists with the same entries are the same list. *)
Lemma sorted_perm_eq (l1 l2 : pydict V) :
  StronglySorted key_lt l1 -> StronglySorted key_lt l2 ->
  Permutation l1 l2 -> l1 = l2.
Proof.
  intros S1. revert l2. induction S1 as [|a t1 S1 IH F1]; intros l2 S2 Pm.
  - apply Permutation_nil in Pm. now subst.
  - destruct S2 as [|b t2 S2 F2].
    + apply Permutation_sym, Permutation_nil in Pm. discriminate.
    + assert (E : a = b).
      { assert (Ia : In a (b :: t2)) by (eapply Permutation_in; [exact Pm | now left]).
        assert (Ib : In b (a :: t1))
          by (eapply Permutation_in; [apply Permutation_sym; exact Pm | now left]).
        destruct Ia as [-> | Ia]; [reflexivity|].
        destruct Ib as [<- | Ib]; [reflexivity|].
        rewrite Forall_forall in F1, F2.
        specialize (F1 _ Ib). specialize (F2 _ Ia). unfold key_lt in *.
        pose proof (str_ltb_trans _ _ _ F1 F2) as C.
        rewrite str_ltb_irrefl in C. discriminate. }
      subst b. f_equal. apply IH; [exact S2|].
      eapply Permutation_cons_inv; exact Pm.
Qed.

(** Sorting forgets the order the entries came in. *)
Lemma sort_items_perm (l l' : pydict V) :
  NoDup (dict_keys l) -> Permutation l l' -> sort_items l = sort_items l'.
Proof.
  intros ND Pm. apply sorted_perm_eq.
  - now apply sort_sorted.
  - apply sort_sorted. unfold dict_keys.
    eapply Permutation_NoDup; [|exact ND]. now apply Permutation_map.
  - rewrite <- (sort_perm l), <- (sort_perm l'). exact Pm.
Qed.

End Sorting.

(** *** [dumps] on lists and objects *)

Lemma dumps_list l :
  dumps (JList l) = [91%N] ++ join [44%N] (List.map dumps l) ++ [93%N].
Proof. reflexivity. Qed.

Lemma dumps_dict d :
  dumps (JDict d)
  = [123%N]
      ++ join [44%N] (List.map encode_item (sort_items (List.map encode_entry d)))
      ++ [125%N].
Proof.
  change (dumps (JDict d))
    with ([123%N]
            ++ join [44%N]
                 (List.map encode_item
                    (sort_items
                       (List.map (fun kv => match kv with (k, x) => (k, dumps x) end) d)))
            ++ [125%N]).
  do 5 f_equal. apply map_ext. intros [k x]. reflexivity.
Qed.

Lemma encode_entry_keys d : dict_keys (List.map encode_entry d) = dict_keys d.
Proof. unfold dict_keys. rewrite map_map. reflexivity. Qed.

(** Reordering the keys of objects, at any depth, does not change what
    [dumps] writes. *)
Lemma dumps_reordered a :
  distinct_keys a -> forall b, reordered a b -> dumps a = dumps b.
Proof.
  induction a as [| | | | | l IH | d IH] using json_nested_ind;
    intros DK a' R; inversion R; subst; try reflexivity.
  - rewrite !dumps_list. do 3 f_equal.
    inversion DK as [| | | | | l0 DKl |]; subst.
    match goal with H : Forall2 reordered l _ |- _ => rename H into F2 end.
    clear DK R. induction F2 as [|x y l1 l2 Rxy F2 IHF]; [reflexivity|].
    inversion IH; subst. inversion DKl; subst. simpl. f_equal; auto.
  - rewrite !dumps_dict. do 3 f_equal.
    inversion DK as [| | | | | | d0 ND DKd]; subst.
    match goal with
    | H : Forall2 _ d ?d1, H' : Permutation ?d1 _ |- _ =>
        rename H into F2; rename H' into Pm; rename d1 into d'
    end.
    assert (E : List.map encode_entry d = List.map encode_entry d').
    { clear - F2 IH DKd.
      induction F2 as [|x y l1 l2 [K Rxy] F2 IHF]; [reflexivity|].
      inversion IH; subst. inversion DKd; subst. simpl. f_equal; auto.
      unfold encode_entry. rewrite K. f_equal. auto. }
    rewrite E. f_equal. apply sort_items_perm.
    + rewrite <- E, encode_entry_keys. exact ND.
    + now apply Permutation_map.
Qed.

(** The values of a list, and of an object, with distinct keys inside. *)
Lemma reordered_distinct a :
  distinct_keys a -> forall b, reordered a b -> distinct_keys b.
Proof.
  induction a as [| | | | | l IH | d IH] using json_nested_ind;
    intros DK a' R; inversion R; subst; try assumption.
  - constructor. inversion DK as [| | | | | l0 DKl |]; subst.
    match goal with H : Forall2 reordered l _ |- _ => rename H into F2 end.
    clear DK R. induction F2 as [|x y l1 l2 Rxy F2 IHF]; [constructor|].
    inversion IH; subst. inversion DKl; subst. constructor; eauto.
  - inversion DK as [| | | | | | d0 ND DKd]; subst.
    match goal with
    | H : Forall2 _ d ?d1, H' : Permutation ?d1 _ |- _ =>
        rename H into F2; rename H' into Pm; rename d1 into d'
    end.
    assert (K : dict_keys d = dict_keys d').
    { clear - F2. induction F2 as [|x y l1 l2 [K _] F2 IHF]; [reflexivity|].
      unfold dict_keys in *. simpl. now f_equal. }
    assert (W : Forall (fun kv => distinct_keys (snd kv)) d').
    { clear - F2 IH DKd.
      induction F2 as [|x y l1 l2 [_ Rxy] F2 IHF]; [constructor|].
      inversion IH; subst. inversion DKd; subst. constructor; eauto. }
    constructor.
    + unfold dict_keys in *. eapply Permutation_NoDup;
        [apply Permutation_map; exact Pm|]. rewrite <- K. exact ND.
    + eapply Permutation_Forall; eauto.
Qed.

(** What the decoder returns has distinct keys in every object. *)
Lemma dict_set_keys {V} (d : pydict V) k v :
  NoDup (dict_keys d) -> NoDup (dict_keys (dict_set d k v))
  /\ forall k', In k' (dict_keys (dict_set d k v)) -> k' = k \/ In k' (dict_keys d).
Proof.
  unfold dict_keys. induction d as [|[k0 v0] d IH]; simpl; intros ND.
  - split; [repeat constructor; auto | intros k' [<- | []]; auto].
  - inversion ND as [|x xs NI ND']; subst.
    destruct (str_eqb k0 k) eqn:E; simpl.
    + split; [exact ND | auto].
    + destruct (IH ND') as [N1 N2]. split.
      * constructor; [|exact N1]. intros Q.
        apply N2 in Q as [-> | Q]; [|contradiction].
        rewrite str_eqb_refl in E. discriminate.
      * intros k' [<- | Q]; [auto|]. apply N2 in Q as [-> | Q]; auto.
Qed.

(** *** Validation and key order *)

Lemma Forall2_entry_refl d : Forall2 entry_reordered d d.
Proof.
  induction d; constructor; auto. split; [reflexivity | apply RO_same].
Qed.

Lemma reordered_dict_inv d b :
  reordered (JDict d) b -> exists d'', b = JDict d'' /\ shuffled d d''.
Proof.
  intros R. inversion R; subst.
  - exists d. split; [reflexivity|]. exists d. split; [apply Forall2_entry_refl | reflexivity].
  - exists d''. split; [reflexivity|]. exists d'. auto.
Qed.

Lemma Forall2_entry_keys d d' :
  Forall2 entry_reordered d d' -> dict_keys d = dict_keys d'.
Proof.
  unfold dict_keys. induction 1 as [|x y l l' [K _] F IH]; simpl; [reflexivity|].
  now f_equal.
Qed.

Lemma shuffled_keys d d'' :
  shuffled d d'' -> Permutation (dict_keys d) (dict_keys d'').
Proof.
  intros (d' & F & Pm). rewrite (Forall2_entry_keys _ _ F).
  unfold dict_keys. now apply Permutation_map.
Qed.

Lemma dict_get_None {V} (d : pydict V) k :
  dict_get d k = None <-> ~ In k (dict_keys d).
Proof.
  unfold dict_keys. induction d as [|[k0 v0] d IH]; simpl.
  - split; auto.
  - destruct (str_eqb k0 k) eqn:E.
    + apply str_eqb_eq in E. subst. split; [discriminate | intros H; destruct H; auto].
    + apply str_eqb_neq in E. rewrite IH. split.
      * intros H [Q | Q]; auto.
      * intros H Q. apply H. auto.
Qed.

Lemma dict_get_In {V} (d : pydict V) k v :
  NoDup (dict_keys d) -> (dict_get d k = Some v <-> In (k, v) d).
Proof.
  unfold dict_keys. induction d as [|[k0 v0] d IH]; simpl; intros ND.
  - split; [discriminate | intros []].
  - inversion ND as [|x xs NI ND']; subst.
    destruct (str_eqb k0 k) eqn:E.
    + apply str_eqb_eq in E. subst. split.
      * intros H; injection H as ->. now left.
      * intros [H | H]; [now injection H as -> |].
        exfalso. apply NI. change k with (fst (k, v)). now apply in_map.
    + apply str_eqb_neq in E. rewrite (IH ND'). split.
      * intros H. now right.
      * intros [H | H]; [injection H as -> _; contradiction | exact H].
Qed.

Lemma Forall2_entry_In d d' k v :
  Forall2 entry_reordered d d' -> In (k, v) d ->
  exists v', In (k, v') d' /\ reordered v v'.
Proof.
  induction 1 as [|x [k' v'] l l' [K R] F IH]; simpl; [intros []|].
  intros [-> | H].
  - simpl in K, R. subst k'. exists v'. auto.
  - destruct (IH H) as (v2 & I2 & R2). exists v2. auto.
Qed.

(** Looking a key up in a shuffled object gives the value reordered. *)
Lemma shuffled_get d d'' k :
  NoDup (dict_keys d) -> shuffled d d'' ->
  match dict_get d k, dict_get d'' k with
  | Some v, Some v' => reordered v v'
  | None, None => True
  | _, _ => False
  end.
Proof.
  intros ND S. pose proof (shuffled_keys _ _ S) as PK.
  assert (ND'' : NoDup (dict_keys d'')) by (eapply Permutation_NoDup; eauto).
  destruct S as (d' & F & Pm).
  destruct (dict_get d k) as [v|] eqn:E.
  - apply dict_get_In in E; [|exact ND].
    destruct (Forall2_entry_In _ _ _ _ F E) as (v' & I' & R).
    assert (G : dict_get d'' k = Some v').
    { apply dict_get_In; [exact ND''|]. eapply Permutation_in; eauto. }
    rewrite G. exact R.
  - apply dict_get_None in E.
    assert (G : dict_get d'' k = None).
    { apply dict_get_None. intros Q. apply E.
      eapply Permutation_in; [apply Permutation_sym; exact PK | exact Q]. }
    rewrite G. exact I.
Qed.

Lemma forallb_perm {A} (f : A -> bool) l l' :
  Permutation l l' -> forallb f l = forallb f l'.
Proof.
  induction 1; simpl; try congruence.
  - destruct (f x), (f y); reflexivity.
Qed.

Lemma forbid_extra_shuffled fields d d'' :
  shuffled d d'' -> forbid_extra fields d = forbid_extra fields d''.
Proof.
  intros S. unfold forbid_extra.
  rewrite (forallb_perm _ _ _ (shuffled_keys _ _ S)). reflexivity.
Qed.

Lemma both_bind {A B} (R : A -> A -> Prop) (S : B -> B -> Prop) x y k k' :
  both R x y ->
  (forall a b, R a b -> both S (k a) (k' b)) ->
  both S (bind x k) (bind y k').
Proof.
  unfold both at 1. destruct x, y; simpl; intros H K; try contradiction; auto.
Qed.

Lemma both_eq {A} (x : result A) : both eq x x.
Proof. destruct x; simpl; auto. Qed.

Section Fields.

Variables d d'' : pydict json.
Hypothesis ND : NoDup (dict_keys d).
Hypothesis SH : shuffled d d''.

Lemma field_str1_shuffled k : field_str1 d k = field_str1 d'' k.
Proof.
  unfold field_str1. pose proof (shuffled_get d d'' (py k) ND SH) as G.
  destruct (dict_get d (py k)) as [v|], (dict_get d'' (py k)) as [v'|];
    try contradiction; try reflexivity.
  destruct v; inversion G; subst; reflexivity.
Qed.

Lemma field_opt_str_shuffled k : field_opt_str d k = field_opt_str d'' k.
Proof.
  unfold field_opt_str. pose proof (shuffled_get d d'' (py k) ND SH) as G.
  destruct (dict_get d (py k)) as [v|], (dict_get d'' (py k)) as [v'|];
    try contradiction; try reflexivity.
  destruct v; inversion G; subst; reflexivity.
Qed.

Lemma field_any_shuffled k :
  both reordered (field_any d k) (field_any d'' k).
Proof.
  unfold field_any. pose proof (shuffled_get d d'' (py k) ND SH) as G.
  destruct (dict_get d (py k)) as [v|], (dict_get d'' (py k)) as [v'|];
    try contradiction; simpl; auto.
Qed.

Lemma field_model_shuffled k :
  both shuffled (field_model d k) (field_model d'' k).
Proof.
  unfold field_model. pose proof (shuffled_get d d'' (py k) ND SH) as G.
  destruct (dict_get d (py k)) as [v|], (dict_get d'' (py k)) as [v'|];
    try contradiction; simpl; auto.
  destruct v; inversion G; subst; simpl; auto.
  - exists d0. split; [apply Forall2_entry_refl | reflexivity].
  - eexists; eauto.
Qed.

End Fields.

Lemma dict_get_distinct d k v :
  distinct_keys (JDict d) -> dict_get d k = Some v -> distinct_keys v.
Proof.
  intros DK G. inversion DK as [| | | | | | d0 ND F]; subst.
  apply dict_get_In in G; [|exact ND].
  rewrite Forall_forall in F. exact (F _ G).
Qed.

Lemma str_values_keys d l : str_values d = Ok l -> dict_keys l = dict_keys d.
Proof.
  unfold dict_keys. revert l. induction d as [|[k v] d IH]; simpl; intros l.
  - intros H; injection H as <-. reflexivity.
  - destruct v; try discriminate. unfold bind.
    destruct (str_values d) as [r|]; [|discriminate].
    intros H; injection H as <-. simpl. f_equal. now apply IH.
Qed.

Lemma str_values_entries d d' :
  Forall2 entry_reordered d d' -> str_values d = str_values d'.
Proof.
  induction 1 as [|[k v] [k' v'] l l' [K R] F IH]; [reflexivity|].
  simpl in K, R. subst k'. simpl.
  destruct v; inversion R; subst; try reflexivity.
  now rewrite IH.
Qed.

Lemma str_values_perm d d' :
  Permutation d d' -> both (@Permutation _) (str_values d) (str_values d').
Proof.
  induction 1 as [| [k v] l l' Pm IH | [k v] [k' v'] l | l1 l2 l3 P1 IH1 P2 IH2].
  - simpl. constructor.
  - simpl. destruct v; simpl; try exact I.
    unfold both in *.
    destruct (str_values l), (str_values l'); simpl; try contradiction; auto.
  - simpl. destruct v, v'; simpl; try exact I;
      destruct (str_values l); simpl; try exact I. apply perm_swap.
  - unfold both in *.
    destruct (str_values l1), (str_values l2), (str_values l3);
      try contradiction; auto. etransitivity; eauto.
Qed.

Lemma str_values_shuffled d d'' :
  shuffled d d'' -> both (@Permutation _) (str_values d) (str_values d'').
Proof.
  intros (d' & F & Pm). rewrite (str_values_entries _ _ F).
  now apply str_values_perm.
Qed.

Lemma Actor_shuffled m m' :
  distinct_keys (JDict m) -> shuffled m m' ->
  both actor_alike (Actor.model_validate m) (Actor.model_validate m').
Proof.
  intros DK SH. inversion DK as [| | | | | | d0 ND F]; subst.
  unfold Actor.model_validate.
  rewrite (forbid_extra_shuffled _ _ _ SH).
  rewrite !(field_str1_shuffled m m' ND SH).
  apply (both_bind eq); [apply both_eq|]. intros _ _ _.
  apply (both_bind eq); [apply both_eq|]. intros pid _ <-.
  apply (both_bind eq); [apply both_eq|]. intros pty _ <-.
  apply (both_bind (fun l l' => Permutation l l' /\ NoDup (dict_keys l))).
  - pose proof (shuffled_get m m' (py "attributes") ND SH) as G.
    destruct (dict_get m (py "attributes")) as [v|] eqn:E,
             (dict_get m' (py "attributes")) as [v'|];
      try contradiction.
    + pose proof (dict_get_distinct _ _ _ DK E) as DKv.
      destruct v; inversion G; subst; simpl; auto.
      * pose proof (str_values_keys d) as K.
        destruct (str_values d) as [l|]; simpl; auto.
        split; [reflexivity|]. rewrite (K l eq_refl).
        now inversion DKv.
      * match goal with
        | H1 : Forall2 _ d ?x, H2 : Permutation ?x _ |- _ =>
            assert (S2 : shuffled d d'') by (exists x; auto)
        end.
        pose proof (str_values_shuffled _ _ S2) as B.
        pose proof (str_values_keys d) as K.
        destruct (str_values d) as [l|], (str_values d'') as [l'|];
          simpl in *; auto.
        split; [exact B|]. rewrite (K l eq_refl). now inversion DKv.
    + simpl. split; [reflexivity | constructor].
  - intros l l' [Pm NDl]. simpl. unfold actor_alike. simpl. auto.
Qed.

Lemma ToolCall_shuffled m m' :
  distinct_keys (JDict m) -> shuffled m m' ->
  both tool_alike (ToolCall.model_validate m) (ToolCall.model_validate m').
Proof.
  intros DK SH. inversion DK as [| | | | | | d0 ND F]; subst.
  unfold ToolCall.model_validate.
  rewrite (forbid_extra_shuffled _ _ _ SH).
  rewrite !(field_str1_shuffled m m' ND SH).
  apply (both_bind eq); [apply both_eq|]. intros _ _ _.
  apply (both_bind eq); [apply both_eq|]. intros n _ <-.
  apply (both_bind (fun v v' => reordered v v' /\ distinct_keys v)).
  - pose proof (field_any_shuffled m m' ND SH "args") as B.
    unfold field_any in *.
    destruct (dict_get m (py "args")) as [v|] eqn:E,
             (dict_get m' (py "args")) as [v'|]; simpl in *; auto.
    split; [exact B | eapply dict_get_distinct; eauto].
  - intros v v' [R D]. simpl. unfold tool_alike. simpl. auto.
Qed.

Lemma ProfileRef_shuffled m m' :
  NoDup (dict_keys m) -> shuffled m m' ->
  ProfileRef.model_validate m = ProfileRef.model_validate m'.
Proof.
  intros ND SH. unfold ProfileRef.model_validate.
  rewrite (forbid_extra_shuffled _ _ _ SH).
  rewrite !(field_str1_shuffled m m' ND SH). reflexivity.
Qed.

Lemma Controls_shuffled m m' :
  NoDup (dict_keys m) -> shuffled m m' ->
  Controls.model_validate m = Controls.model_validate m'.
Proof.
  intros ND SH. unfold Controls.model_validate.
  rewrite (forbid_extra_shuffled _ _ _ SH).
  rewrite !(field_opt_str_shuffled m m' ND SH). reflexivity.
Qed.

Lemma Context_shuffled m m' :
  distinct_keys (JDict m) -> shuffled m m' ->
  both context_alike (Context.model_validate m) (Context.model_validate m').
Proof.
  intros DK SH. inversion DK as [| | | | | | d0 ND F]; subst.
  unfold Context.model_validate.
  rewrite (forbid_extra_shuffled _ _ _ SH).
  rewrite !(field_str1_shuffled m m' ND SH).
  apply (both_bind eq); [apply both_eq|]. intros _ _ _.
  apply (both_bind (fun v v' => reordered v v' /\ distinct_keys v)).
  - pose proof (field_any_shuffled m m' ND SH "snapshot") as B.
    unfold field_any in *.
    destruct (dict_get m (py "snapshot")) as [v|] eqn:E,
             (dict_get m' (py "snapshot")) as [v'|]; simpl in *; auto.
    split; [exact B | eapply dict_get_distinct; eauto].
  - intros v v' [R D].
    apply (both_bind eq); [apply both_eq|]. intros h _ <-.
    simpl. unfold context_alike. simpl. auto.
Qed.

(** A field that holds a model, validated on both sides. *)
Lemma submodel_shuffled {A} (R : A -> A -> Prop) d d'' k
  (validate : pydict json -> result A) :
  distinct_keys (JDict d) -> shuffled d d'' ->
  (forall m m', distinct_keys (JDict m) -> shuffled m m' ->
                both R (validate m) (validate m')) ->
  both R (m <- field_model d k ;; validate m)
         (m <- field_model d'' k ;; validate m).
Proof.
  intros DK SH V. inversion DK as [| | | | | | d0 ND F]; subst.
  pose proof (shuffled_get d d'' (py k) ND SH) as G.
  unfold field_model.
  destruct (dict_get d (py k)) as [v|] eqn:E,
           (dict_get d'' (py k)) as [v'|]; try contradiction; simpl; auto.
  pose proof (dict_get_distinct _ _ _ DK E) as DKv.
  destruct v; inversion G; subst; simpl; auto.
  - apply V; [exact DKv|]. exists d0. split; [apply Forall2_entry_refl | reflexivity].
  - apply V; [exact DKv|]. eexists; eauto.
Qed.

(** Bodies that differ in key order validate together, to requests that
    are alike. *)
Lemma model_validate_reordered obj obj' :
  distinct_keys obj -> reordered obj obj' ->
  both request_alike (ExecutionRequest.model_validate obj)
                     (ExecutionRequest.model_validate obj').
Proof.
  intros DK R. destruct obj; inversion R; subst; simpl; auto;
    try apply both_eq.
  - (* the same object *)
    assert (S0 : shuffled d d)
      by (exists d; split; [apply Forall2_entry_refl | reflexivity]).
    revert S0. generalize d at 2 4 as d''. intros d'' SH.
    inversion DK as [| | | | | | d0 ND F]; subst.
    unfold ExecutionRequest.model_validate.
    rewrite (forbid_extra_shuffled _ _ _ SH).
    rewrite !(field_str1_shuffled d d'' ND SH), !(field_opt_str_shuffled d d'' ND SH).
    apply (both_bind eq); [apply both_eq|]. intros _ _ _.
    apply (both_bind eq); [apply both_eq|]. intros rid _ <-.
    apply (both_bind actor_alike);
      [apply submodel_shuffled; auto using Actor_shuffled|]. intros a a' Ha.
    apply (both_bind tool_alike);
      [apply submodel_shuffled; auto using ToolCall_shuffled|]. intros t t' Ht.
    apply (both_bind eq).
    { apply (submodel_shuffled eq); auto. intros m m' Dm Sm.
      inversion Dm; subst. rewrite (ProfileRef_shuffled m m'); auto. apply both_eq. }
    intros p _ <-.
    apply (both_bind context_alike);
      [apply submodel_shuffled; auto using Context_shuffled|]. intros c c' Hc.
    apply (both_bind eq).
    { pose proof (shuffled_get d d'' (py "controls") ND SH) as G.
      destruct (dict_get d (py "controls")) as [v|] eqn:E,
               (dict_get d'' (py "controls")) as [v'|];
        try contradiction; simpl; auto.
      pose proof (dict_get_distinct _ _ _ DK E) as DKv.
      destruct v; inversion G; subst; simpl; auto; try apply both_eq.
      inversion DKv; subst.
      match goal with
      | H1 : Forall2 _ ?m ?x, H2 : Permutation ?x ?m'' |- _ =>
          rewrite (Controls_shuffled m m''); [apply both_eq | assumption |]
      end.
      eexists; eauto. }
    intros ctl _ <-.
    apply (both_bind eq); [apply both_eq|]. intros sub _ <-.
    simpl. unfold request_alike. simpl. auto 10.
  - assert (SH : shuffled d d'') by (eexists; eauto).
    inversion DK as [| | | | | | d0 ND F]; subst.
    unfold ExecutionRequest.model_validate.
    rewrite (forbid_extra_shuffled _ _ _ SH).
    rewrite !(field_str1_shuffled d d'' ND SH), !(field_opt_str_shuffled d d'' ND SH).
    apply (both_bind eq); [apply both_eq|]. intros _ _ _.
    apply (both_bind eq); [apply both_eq|]. intros rid _ <-.
    apply (both_bind actor_alike);
      [apply submodel_shuffled; auto using Actor_shuffled|]. intros a a' Ha.
    apply (both_bind tool_alike);
      [apply submodel_shuffled; auto using ToolCall_shuffled|]. intros t t' Ht.
    apply (both_bind eq).
    { apply (submodel_shuffled eq); auto. intros m m' Dm Sm.
      inversion Dm; subst. rewrite (ProfileRef_shuffled m m'); auto. apply both_eq. }
    intros p _ <-.
    apply (both_bind context_alike);
      [apply submodel_shuffled; auto using Context_shuffled|]. intros c c' Hc.
    apply (both_bind eq).
    { pose proof (shuffled_get d d'' (py "controls") ND SH) as G.
      destruct (dict_get d (py "controls")) as [v|] eqn:E,
               (dict_get d'' (py "controls")) as [v'|];
        try contradiction; simpl; auto.
      pose proof (dict_get_distinct _ _ _ DK E) as DKv.
      destruct v; inversion G; subst; simpl; auto; try apply both_eq.
      inversion DKv; subst.
      match goal with
      | H1 : Forall2 _ ?m ?x, H2 : Permutation ?x ?m'' |- _ =>
          rewrite (Controls_shuffled m m''); [apply both_eq | assumption |]
      end.
      eexists; eauto. }
    intros ctl _ <-.
    apply (both_bind eq); [apply both_eq|]. intros sub _ <-.
    simpl. unfold request_alike. simpl. auto 10.
Qed.

Lemma str_in_In k l : str_in k l = true <-> In k l.
Proof.
  unfold str_in. rewrite existsb_exists. split.
  - intros (x & Hx & E). apply str_eqb_eq in E. now subst.
  - intros H. exists k. split; [exact H | apply str_eqb_refl].
Qed.

Lemma distinct_strs_NoDup l : distinct_strs l = true -> NoDup l.
Proof.
  induction l as [|k l IH]; simpl; intros H; constructor.
  - apply andb_true_iff in H as [H _]. apply negb_true_iff in H.
    intros Q. apply str_in_In in Q. congruence.
  - apply IH. now apply andb_true_iff in H as [_ H].
Qed.

(** A literal object: its keys are distinct by evaluation. *)
Ltac literal_keys := apply distinct_strs_NoDup; vm_compute; reflexivity.

Lemma attributes_dump_keys (l : pydict pystr) :
  dict_keys (List.map (fun kv => (fst kv, JStr (snd kv))) l) = dict_keys l.
Proof. unfold dict_keys. rewrite map_map. reflexivity. Qed.

Lemma dump_opt_str_distinct o : distinct_keys (dump_opt_str o).
Proof. destruct o; constructor. Qed.

Lemma literal_distinct d :
  distinct_strs (dict_keys d) = true ->
  Forall (fun kv => distinct_keys (snd kv)) d ->
  distinct_keys (JDict d).
Proof. intros K F. constructor; [now apply distinct_strs_NoDup | exact F]. Qed.

Lemma attributes_dump_distinct (l : pydict pystr) :
  NoDup (dict_keys l) ->
  distinct_keys (JDict (List.map (fun kv => (fst kv, JStr (snd kv))) l)).
Proof.
  intros ND. constructor; [now rewrite attributes_dump_keys|].
  apply Forall_forall. intros kv Hkv. apply in_map_iff in Hkv as (x & <- & _).
  constructor.
Qed.

(** The values of a literal object, one after the other. *)
Ltac literal_values tac :=
  repeat (apply Forall_cons; [cbn [snd]; tac|]); apply Forall_nil.

Ltac distinct_leaf :=
  first [ apply dump_opt_str_distinct | assumption | apply DK_str
        | apply DK_null | now apply attributes_dump_distinct ].

Ltac distinct_object :=
  first [ distinct_leaf
        | apply literal_distinct;
          [vm_compute; reflexivity | literal_values distinct_leaf] ].

Lemma controls_dump_distinct (o : option Controls.t) :
  distinct_keys match o with
                | Some c => Controls.model_dump c
                | None => JNull
                end.
Proof. destruct o; [unfold Controls.model_dump|]; distinct_object. Qed.

Ltac entries tac :=
  repeat (apply Forall2_cons; [split; [reflexivity | cbn [snd]; tac]|]);
  apply Forall2_nil.

Ltac same_or_given := first [ apply RO_same | assumption ].

(** The dumps of requests that are alike differ in key order only. *)
Lemma model_dump_alike r r' :
  request_alike r r' ->
  reordered (ExecutionRequest.model_dump r) (ExecutionRequest.model_dump r')
  /\ distinct_keys (ExecutionRequest.model_dump r).
Proof.
  intros (Hid & (Ha1 & Ha2 & Ha3 & Ha4) & (Ht1 & Ht2 & Ht3) & Hp
          & (Hc1 & Hc2 & Hc3) & Hctl & Hsub).
  assert (RA : reordered (Actor.model_dump (ExecutionRequest.actor r))
                         (Actor.model_dump (ExecutionRequest.actor r'))).
  { assert (reordered
              (JDict (List.map (fun kv => (fst kv, JStr (snd kv)))
                        (Actor.attributes (ExecutionRequest.actor r))))
              (JDict (List.map (fun kv => (fst kv, JStr (snd kv)))
                        (Actor.attributes (ExecutionRequest.actor r')))))
      by (eapply RO_dict; [apply Forall2_entry_refl | now apply Permutation_map]).
    unfold Actor.model_dump. rewrite Ha1, Ha2.
    eapply RO_dict; [|reflexivity]. entries same_or_given. }
  assert (RT : reordered (ToolCall.model_dump (ExecutionRequest.tool r))
                         (ToolCall.model_dump (ExecutionRequest.tool r'))).
  { unfold ToolCall.model_dump. rewrite Ht1.
    eapply RO_dict; [|reflexivity]. entries same_or_given. }
  assert (RC : reordered (Context.model_dump (ExecutionRequest.context r))
                         (Context.model_dump (ExecutionRequest.context r'))).
  { unfold Context.model_dump. rewrite Hc1.
    eapply RO_dict; [|reflexivity]. entries same_or_given. }
  assert (DA : distinct_keys (Actor.model_dump (ExecutionRequest.actor r)))
    by (unfold Actor.model_dump; distinct_object).
  assert (DT : distinct_keys (ToolCall.model_dump (ExecutionRequest.tool r)))
    by (unfold ToolCall.model_dump; distinct_object).
  assert (DP : distinct_keys (ProfileRef.model_dump (ExecutionRequest.profile r)))
    by (unfold ProfileRef.model_dump; distinct_object).
  assert (DC : distinct_keys (Context.model_dump (ExecutionRequest.context r)))
    by (unfold Context.model_dump; distinct_object).
  pose proof (controls_dump_distinct (ExecutionRequest.controls r)) as DO.
  unfold ExecutionRequest.model_dump. split.
  - rewrite Hid, Hp, Hctl, Hsub.
    eapply RO_dict; [|reflexivity]. entries same_or_given.
  - apply literal_distinct; [vm_compute; reflexivity|].
    literal_values distinct_leaf.
Qed.

(** C8. Reordering the keys of objects, at any depth of a value whose
    objects have distinct keys (as every value that [json.loads] returns
    has), changes neither its canonical bytes nor its hash; and two request
    bodies that differ only in the order of keys validate together, to
    requests whose request hash, [hash_json] of the validated request, is
    the same. *)
Theorem key_order_does_not_change_hash a b :
  distinct_keys a ->
  reordered a b ->
  canonical_json_bytes a = canonical_json_bytes b
  /\ hash_json a = hash_json b
  /\ both (fun r r' =>
             hash_json (ExecutionRequest.model_dump r)
             = hash_json (ExecutionRequest.model_dump r'))
       (ExecutionRequest.model_validate a) (ExecutionRequest.model_validate b).
Proof.
  intros DK R.
  assert (C : canonical_json_bytes a = canonical_json_bytes b).
  { unfold canonical_json_bytes. now rewrite (dumps_reordered a DK b R). }
  split; [exact C|]. split; [unfold hash_json; now rewrite C|].
  pose proof (model_validate_reordered a b DK R) as B. unfold both in *.
  destruct (ExecutionRequest.model_validate a) as [r|],
           (ExecutionRequest.model_validate b) as [r'|]; try contradiction; auto.
  apply model_dump_alike in B as [R' DK'].
  unfold hash_json, canonical_json_bytes.
  now rewrite (dumps_reordered _ DK' _ R').
Qed.

(** *** What the decoder returns has distinct keys *)

Lemma dict_set_distinct (d : pydict json) k v :
  Forall (fun kv => distinct_keys (snd kv)) d -> distinct_keys v ->
  Forall (fun kv => distinct_keys (snd kv)) (dict_set d k v).
Proof.
  induction 1 as [|[k0 v0] d H F IH]; simpl; intros Dv.
  - repeat constructor. exact Dv.
  - destruct (str_eqb k0 k); constructor; auto.
Qed.

Lemma number_distinct s v r : Loads.number s = Some (v, r) -> distinct_keys v.
Proof.
  unfold Loads.number.
  destruct (match s with
            | [] => (false, s)
            | c :: s' => if (c =? 45)%N then (true, s') else (false, s)
            end) as [neg s0].
  destruct (Loads.int_part s0) as [[ds s1]|]; [|discriminate].
  destruct (Loads.frac_part s1) as [fr s2].
  destruct (Loads.exp_part s2) as [ex s3].
  destruct fr, ex; intros H; injection H as <- _; constructor.
Qed.

Lemma decoder_distinct fuel :
  (forall s v r, Loads.value fuel s = Some (v, r) -> distinct_keys v)
  /\ (forall s acc v r,
        NoDup (dict_keys acc) ->
        Forall (fun kv => distinct_keys (snd kv)) acc ->
        Loads.members fuel s acc = Some (v, r) -> distinct_keys v)
  /\ (forall s acc v r,
        Forall distinct_keys acc ->
        Loads.elements fuel s acc = Some (v, r) -> distinct_keys v).
Proof.
  induction fuel as [|f (IHv & IHm & IHe)];
    [repeat split; intros; discriminate|].
  repeat split.
  - intros s v r. simpl.
    destruct s as [|c s']; [discriminate|].
    destruct (c =? 34)%N.
    { destruct (Loads.scanstring _ s') as [[t r0]|]; [|discriminate].
      intros H; injection H as <- _. constructor. }
    destruct (c =? 123)%N.
    { destruct (Loads.skip_ws s') as [|c1 r1]; [discriminate|].
      destruct (c1 =? 125)%N.
      - intros H; injection H as <- _. repeat constructor.
      - apply IHm; constructor. }
    destruct (c =? 91)%N.
    { destruct (Loads.skip_ws s') as [|c1 r1]; [discriminate|].
      destruct (c1 =? 93)%N.
      - intros H; injection H as <- _. repeat constructor.
      - apply IHe; constructor. }
    destruct (Loads.literal (py "null") (c :: s')).
    { intros H; injection H as <- _. constructor. }
    destruct (Loads.literal (py "true") (c :: s')).
    { intros H; injection H as <- _. constructor. }
    destruct (Loads.literal (py "false") (c :: s')).
    { intros H; injection H as <- _. constructor. }
    destruct (Loads.literal (py "NaN") (c :: s')).
    { intros H; injection H as <- _. constructor. }
    destruct (Loads.literal (py "Infinity") (c :: s')).
    { intros H; injection H as <- _. constructor. }
    destruct (Loads.literal (py "-Infinity") (c :: s')).
    { intros H; injection H as <- _. constructor. }
    apply number_distinct.
  - intros s acc v r ND F. simpl.
    destruct s as [|q s1]; [discriminate|].
    destruct (q =? 34)%N; [|discriminate].
    destruct (Loads.scanstring _ s1) as [[k s2]|]; [|discriminate].
    destruct (Loads.skip_ws s2) as [|c s3]; [discriminate|].
    destruct (c =? 58)%N; [|discriminate].
    destruct (Loads.value f (Loads.skip_ws s3)) as [[x s4]|] eqn:EV; [|discriminate].
    apply IHv in EV.
    destruct (Loads.skip_ws s4) as [|d s5]; [discriminate|].
    destruct (d =? 125)%N.
    { intros H; injection H as <- _. constructor.
      - apply dict_set_keys, ND.
      - now apply dict_set_distinct. }
    destruct (d =? 44)%N; [|discriminate].
    apply IHm; [apply dict_set_keys, ND | now apply dict_set_distinct].
  - intros s acc v r F. simpl.
    destruct (Loads.value f s) as [[x s1]|] eqn:EV; [|discriminate].
    apply IHv in EV.
    assert (F' : Forall distinct_keys (acc ++ [x]))
      by (apply Forall_app; split; [exact F | repeat constructor; exact EV]).
    destruct (Loads.skip_ws s1) as [|d s2]; [discriminate|].
    destruct (d =? 93)%N.
    { intros H; injection H as <- _. now constructor. }
    destruct (d =? 44)%N; [|discriminate].
    now apply IHe.
Qed.

(** Every value that [json_loads] returns has distinct keys in every
    object. *)
Lemma json_loads_distinct raw v : json_loads raw = Ok v -> distinct_keys v.
Proof.
  unfold json_loads, bind. destruct (decode_utf8 raw) as [s|]; [|discriminate].
  unfold Loads.loads.
  destruct (Loads.value _ _) as [[x r]|] eqn:E; [|discriminate].
  destruct (Loads.skip_ws r); [|discriminate].
  intros H; injection H as <-.
  eapply (proj1 (decoder_distinct _)); eauto.
Qed.

Lemma key_order_does_not_change_hash_witness :
  distinct_keys nested_value
  /\ reordered nested_value nested_value_reordered
  /\ hash_json nested_value = hash_json nested_value_reordered.
Proof.
  assert (D1 : distinct_keys (JDict [(py "q", JInt 1); (py "p", JInt 2)]))
    by (apply literal_distinct; [reflexivity | literal_values ltac:(apply DK_int)]).
  assert (D2 : distinct_keys (JList [JDict [(py "q", JInt 1); (py "p", JInt 2)]]))
    by (apply DK_list; apply Forall_cons; [exact D1 | apply Forall_nil]).
  assert (D3 : distinct_keys
                 (JDict [ (py "y", JNull);
                          (py "x", JList [JDict [ (py "q", JInt 1);
                                                  (py "p", JInt 2) ]]) ]))
    by (apply literal_distinct;
        [reflexivity | literal_values ltac:(first [apply DK_null | exact D2])]).
  assert (D : distinct_keys nested_value)
    by (apply literal_distinct;
        [reflexivity | literal_values ltac:(first [apply DK_int | exact D3])]).
  assert (R1 : reordered (JDict [(py "q", JInt 1); (py "p", JInt 2)])
                         (JDict [(py "p", JInt 2); (py "q", JInt 1)]))
    by (eapply RO_dict; [apply Forall2_entry_refl | apply perm_swap]).
  assert (R2 : reordered (JList [JDict [(py "q", JInt 1); (py "p", JInt 2)]])
                         (JList [JDict [(py "p", JInt 2); (py "q", JInt 1)]]))
    by (apply RO_list; apply Forall2_cons; [exact R1 | apply Forall2_nil]).
  assert (R3 : reordered
                 (JDict [ (py "y", JNull);
                          (py "x", JList [JDict [ (py "q", JInt 1);
                                                  (py "p", JInt 2) ]]) ])
                 (JDict [ (py "x", JList [JDict [ (py "p", JInt 2);
                                                  (py "q", JInt 1) ]]);
                          (py "y", JNull) ]))
    by (eapply RO_dict; cycle 1; [apply perm_swap | entries same_or_given]).
  assert (R : reordered nested_value nested_value_reordered)
    by (eapply RO_dict; cycle 1; [apply perm_swap | entries same_or_given]).
  split; [exact D|]. split; [exact R|].
  exact (proj1 (proj2 (key_order_does_not_change_hash _ _ D R))).
Defined.

(** ** Checks of the model against known values *)

(** The digests of the standard test messages. *)
Example sha256_test_vectors :
  sha256_hex [] = py "e3b0c44298fc1c149afbf4c8996fb92427ae41e4649b934ca495991b7852b855"
  /\ sha256_hex (raw_of "abc")
     = py "ba7816bf8f01cfea414140de5dae2223b00361a396177a9cb410ff61f20015ad"
  /\ sha256_hex (raw_of "abcdbcdecdefdefgefghfghighijhijkijkljklmklmnlmnomnopnopq")
     = py "248d6a61d20638b8e5c026930c3e6039a33ce45964ff2167f6ecedd419db06c1".
Proof. vm_compute. repeat split. Qed.

(** [hash_json({"x": 1})], the snapshot hash of the test requests. *)
Example snapshot_hash_value :
  hash_json (JDict [(py "x", JInt 1)])
  = Ok (py "sha256:5041bf1f713df204784353e82f6a4a535931cb64f1f4b4a5aeaffcb720918b22").
Proof. vm_compute. reflexivity. Qed.

(** The scenarios of the spec on the example profile: allow, context hash
    mismatch, and the body that is not JSON. *)
Example scenario_decisions :
  option_map (fun d => (ExecutionDecision.decision_type d,
                        ExecutionDecision.reason_code d))
    (decision_of allow_run) = Some (ALLOW, OK)
  /\ option_map (fun d => (ExecutionDecision.decision_type d,
                           ExecutionDecision.reason_code d))
       (decision_of mismatch_run) = Some (DENY, CTX_HASH_MISMATCH)
  /\ option_map (fun d => (ExecutionDecision.decision_type d,
                           ExecutionDecision.reason_code d))
       (decision_of garbage_run) = Some (DENY, REQUEST_PARSE_ERROR)
  /\ option_map (fun d => (ExecutionDecision.decision_type d,
                           ExecutionDecision.reason_code d))
       (decision_of array_run) = Some (DENY, REQUEST_SCHEMA_INVALID).
Proof. repeat split. Qed.

(** Scenario 1 and its reordered body parse to values that differ in key
    order, and validate to requests with the same request hash. *)
Example reordered_bodies_same_request_hash :
  exists a b r r' h,
    json_loads allow_request = Ok a
    /\ json_loads allow_request_reordered = Ok b
    /\ a <> b
    /\ ExecutionRequest.model_validate a = Ok r
    /\ ExecutionRequest.model_validate b = Ok r'
    /\ hash_json (ExecutionRequest.model_dump r) = Ok h
    /\ hash_json (ExecutionRequest.model_dump r') = Ok h.
Proof.
  do 5 eexists.
  split; [vm_compute; reflexivity|].
  split; [vm_compute; reflexivity|].
  split; [discriminate|].
  split; [vm_compute; reflexivity|].
  split; [vm_compute; reflexivity|].
  split; vm_compute; reflexivity.
Qed.

(** * Further properties of the code *)

(** ** The allowlist and the controls *)

Lemma first_permit_none l n :
  first_permit l n = None <-> forall p, In p l -> ToolPermit.name p <> n.
Proof.
  induction l as [|q l IH]; simpl.
  - split; [intros _ p [] | reflexivity].
  - destruct (str_eqb (ToolPermit.name q) n) eqn:E.
    + apply str_eqb_eq in E. split; [discriminate|].
      intros H. destruct (H q (or_introl eq_refl) E).
    + apply str_eqb_neq in E. rewrite IH. split.
      * intros H p [<-|Hp]; auto.
      * intros H p Hp. apply H. now right.
Qed.

Lemma first_permit_some l n p :
  first_permit l n = Some p -> In p l /\ ToolPermit.name p = n.
Proof.
  induction l as [|q l IH]; simpl; [discriminate|].
  destruct (str_eqb (ToolPermit.name q) n) eqn:E.
  - intros H. injection H as <-. apply str_eqb_eq in E. auto.
  - intros H. apply IH in H as [H1 H2]. auto.
Qed.

(** X1. [find_tool_permit] returns [None] exactly when no permit of the
    profile has the name of the tool (names are compared as they are, case
    and all), and a permit it returns is one of the profile with that
    name. *)
Theorem find_tool_permit_spec profile tool_name :
  (find_tool_permit profile tool_name = None
   <-> forall p, In p (ExecutionProfile.allowed_tools profile) ->
                 ToolPermit.name p <> tool_name)
  /\ (forall p, find_tool_permit profile tool_name = Some p ->
        In p (ExecutionProfile.allowed_tools profile)
        /\ ToolPermit.name p = tool_name).
Proof.
  unfold find_tool_permit. split.
  - apply first_permit_none.
  - intros p. apply first_permit_some.
Qed.

(** X2. [require_controls] returns nothing or CONTROL_REQUIRED, and it
    returns nothing exactly when the permit asks for no approval token or
    the controls of the request carry the token [APPROVED]; a request
    without controls, without a token, or with any other token (an empty
    one, another case) is refused, and the nonce is not looked at. *)
Theorem require_controls_spec req permit :
  (require_controls req permit = None
   <-> RequiredControls.approval_token (ToolPermit.required_controls permit)
       = false
       \/ exists c, ExecutionRequest.controls req = Some c
                    /\ Controls.approval_token c = Some (py "APPROVED"))
  /\ (require_controls req permit = None
      \/ require_controls req permit = Some CONTROL_REQUIRED).
Proof.
  unfold require_controls.
  destruct (RequiredControls.approval_token _).
  2:{ split; [split; auto | auto]. }
  destruct (ExecutionRequest.controls req) as [c|].
  2:{ split; [|auto]. split; [discriminate|].
      intros [H | (c & H & _)]; discriminate. }
  destruct (Controls.approval_token c) as [[|x t]|] eqn:Et.
  - split; [|auto]. split; [discriminate|].
    intros [H | (c' & H & H')]; [discriminate|].
    injection H as <-. rewrite Et in H'. discriminate.
  - destruct (str_eqb (x :: t) (py "APPROVED")) eqn:E; simpl.
    + apply str_eqb_eq in E. split; [|auto]. split; [|reflexivity].
      intros _. right. exists c. rewrite Et, E. auto.
    + apply str_eqb_neq in E. split; [|auto]. split; [discriminate|].
      intros [H | (c' & H & H')]; [discriminate|].
      injection H as <-. rewrite Et in H'. congruence.
  - split; [|auto]. split; [discriminate|].
    intros [H | (c' & H & H')]; [discriminate|].
    injection H as <-. rewrite Et in H'. discriminate.
Qed.

(** ** The rules one by one *)

Lemma get_arg_value_key d key :
  _get_arg_value (JDict d) (py "$." ++ key)
  = Ok match dict_get d key with
       | Some v => v
       | None => JNull
       end.
Proof.
  unfold _get_arg_value.
  assert (S : startswith (py "$." ++ key) (py "$.") = true)
    by (apply startswith_app; now exists key).
  rewrite S. reflexivity.
Qed.

Lemma enforce_constraints_first req permit c rule rest :
  ToolPermit.constraints permit = Some c ->
  Constraints.arg_rules c = rule :: rest ->
  enforce_constraints req permit
  = match check_rule (ToolCall.args (ExecutionRequest.tool req)) rule with
    | Ok (Some rc) => Some rc
    | Ok None =>
        match check_rules (ToolCall.args (ExecutionRequest.tool req)) rest with
        | Ok r => r
        | Raise _ => Some CONSTRAINT_EVAL_ERROR
        end
    | Raise _ => Some CONSTRAINT_EVAL_ERROR
    end.
Proof.
  intros Hc Hr. unfold enforce_constraints. rewrite Hc, Hr. simpl.
  destruct (check_rule _ rule) as [[rc|]|]; reflexivity.
Qed.

(** X3. A constrained argument that is missing from the arguments, or is
    null, is a CONSTRAINT_VIOLATION whatever the rule is: its type is not
    looked at, so even a rule of an unknown type gives CONSTRAINT_VIOLATION
    and not CONSTRAINT_EVAL_ERROR there. *)
Theorem missing_argument_is_violation rule key d :
  ArgRule.path rule = py "$." ++ key ->
  dict_get d key = None \/ dict_get d key = Some JNull ->
  check_rule (JDict d) rule = Ok (Some CONSTRAINT_VIOLATION)
  /\ forall req permit c rest,
       ToolPermit.constraints permit = Some c ->
       Constraints.arg_rules c = rule :: rest ->
       ToolCall.args (ExecutionRequest.tool req) = JDict d ->
       enforce_constraints req permit = Some CONSTRAINT_VIOLATION.
Proof.
  intros Hp Hk.
  assert (C : check_rule (JDict d) rule = Ok (Some CONSTRAINT_VIOLATION)).
  { unfold check_rule. rewrite Hp, get_arg_value_key.
    destruct Hk as [-> | ->]; reflexivity. }
  split; [exact C|].
  intros req permit c rest Hc Hr Ha.
  rewrite (enforce_constraints_first _ _ _ _ _ Hc Hr), Ha, C. reflexivity.
Qed.

Lemma missing_argument_is_violation_witness :
  check_rule (JDict [(py "m", JInt 1)]) integer_rule
  = Ok (Some CONSTRAINT_VIOLATION)
  /\ enforce_constraints (request_with (JDict [(py "n", JNull)]))
       (permit_with [integer_rule])
     = Some CONSTRAINT_VIOLATION.
Proof.
  split.
  - exact (proj1 (missing_argument_is_violation integer_rule (py "n")
                    [(py "m", JInt 1)] eq_refl (or_introl eq_refl))).
  - exact (proj2 (missing_argument_is_violation integer_rule (py "n")
                    [(py "n", JNull)] eq_refl (or_intror eq_refl))
             (request_with (JDict [(py "n", JNull)]))
             (permit_with [integer_rule]) _ [] eq_refl eq_refl eq_refl).
Defined.

(** X4. A rule whose type is not one of [string], [number] and [bool]
    (spelled so) turns an argument that is there into
    CONSTRAINT_EVAL_ERROR. *)
Theorem unknown_rule_type_is_eval_error rule key d v :
  ArgRule.path rule = py "$." ++ key ->
  dict_get d key = Some v -> v <> JNull ->
  ArgRule.type rule <> py "string" ->
  ArgRule.type rule <> py "number" ->
  ArgRule.type rule <> py "bool" ->
  check_rule (JDict d) rule = Ok (Some CONSTRAINT_EVAL_ERROR)
  /\ forall req permit c rest,
       ToolPermit.constraints permit = Some c ->
       Constraints.arg_rules c = rule :: rest ->
       ToolCall.args (ExecutionRequest.tool req) = JDict d ->
       enforce_constraints req permit = Some CONSTRAINT_EVAL_ERROR.
Proof.
  intros Hp Hk Hv Hs Hn Hb.
  assert (C : check_rule (JDict d) rule = Ok (Some CONSTRAINT_EVAL_ERROR)).
  { unfold check_rule. rewrite Hp, get_arg_value_key, Hk. cbn [bind].
    apply str_eqb_neq in Hs, Hn, Hb. rewrite Hs, Hn, Hb.
    destruct v; try reflexivity. contradiction. }
  split; [exact C|].
  intros req permit c rest Hc Hr Ha.
  rewrite (enforce_constraints_first _ _ _ _ _ Hc Hr), Ha, C. reflexivity.
Qed.

Lemma unknown_rule_type_is_eval_error_witness :
  check_rule (JDict [(py "n", JInt 1)]) integer_rule
  = Ok (Some CONSTRAINT_EVAL_ERROR).
Proof.
  refine (proj1 (unknown_rule_type_is_eval_error integer_rule (py "n")
                   [(py "n", JInt 1)] (JInt 1) eq_refl eq_refl _ _ _ _));
    discriminate.
Defined.

(** X5. The checks of a [string] rule come in the order type, length,
    enumeration, pattern. A value that is not a string, or has more code
    points than [max_len], or is not in [enum], is a CONSTRAINT_VIOLATION
    whatever the pattern is; a string that passes these passes the rule when
    there is no pattern, and raises (the pattern is compiled only then) when
    the pattern does not compile. *)
Theorem string_rule_checks rule key d v :
  ArgRule.path rule = py "$." ++ key ->
  ArgRule.type rule = py "string" ->
  dict_get d key = Some v -> v <> JNull ->
  ((forall s, v = JStr s -> ~ (fits_max_len rule s /\ in_enum rule s)) ->
   check_rule (JDict d) rule = Ok (Some CONSTRAINT_VIOLATION))
  /\ (forall s, v = JStr s -> fits_max_len rule s -> in_enum rule s ->
        (ArgRule.pattern rule = None -> check_rule (JDict d) rule = Ok None)
        /\ (ArgRule.pattern rule = Some Re.Malformed ->
            check_rule (JDict d) rule = Raise ReError)).
Proof.
  intros Hp Ht Hk Hv. unfold check_rule, fits_max_len, in_enum.
  rewrite Hp, get_arg_value_key, Hk, Ht. cbn [bind]. rewrite str_eqb_refl.
  split.
  - intros H. destruct v; try reflexivity; try contradiction.
    destruct (ArgRule.max_len rule) as [n|] eqn:Em.
    + destruct (n <? py_len s) eqn:El; [reflexivity|].
      apply Z.ltb_ge in El.
      destruct (ArgRule.enum rule) as [l|] eqn:Ee.
      * destruct (str_in s l) eqn:Ei; [|reflexivity].
        apply str_in_In in Ei. destruct (H s eq_refl). split.
        -- intros n' Hn'. injection Hn' as <-. exact El.
        -- intros l' Hl'. injection Hl' as <-. exact Ei.
      * destruct (H s eq_refl). split.
        -- intros n' Hn'. injection Hn' as <-. exact El.
        -- intros l' Hl'. discriminate.
    + destruct (ArgRule.enum rule) as [l|] eqn:Ee.
      * destruct (str_in s l) eqn:Ei; [|reflexivity].
        apply str_in_In in Ei. destruct (H s eq_refl). split.
        -- intros n' Hn'. discriminate.
        -- intros l' Hl'. injection Hl' as <-. exact Ei.
      * destruct (H s eq_refl). split; intros ? ?; discriminate.
  - intros s -> F L.
    assert (Em : match ArgRule.max_len rule with
                 | Some n => n <? py_len s
                 | None => false
                 end = false).
    { destruct (ArgRule.max_len rule) as [n|]; [|reflexivity].
      apply Z.ltb_ge. now apply F. }
    assert (Ee : match ArgRule.enum rule with
                 | Some l => negb (str_in s l)
                 | None => false
                 end = false).
    { destruct (ArgRule.enum rule) as [l|]; [|reflexivity].
      apply negb_false_iff, str_in_In. now apply L. }
    rewrite Em, Ee. split; intros ->; reflexivity.
Qed.

Lemma string_rule_checks_witness :
  check_rule (JDict [(py "to", JStr (py "abcd"))]) short_rule
  = Ok (Some CONSTRAINT_VIOLATION)
  /\ check_rule (JDict [(py "to", JStr (py "abc"))]) short_rule
     = Raise ReError.
Proof.
  split.
  - refine (proj1 (string_rule_checks short_rule (py "to")
                     [(py "to", JStr (py "abcd"))] (JStr (py "abcd"))
                     eq_refl eq_refl eq_refl _) _); [discriminate|].
    intros s E [F _]. injection E as <-.
    specialize (F 3 eq_refl). vm_compute in F. now apply F.
  - refine (proj2 (proj2 (string_rule_checks short_rule (py "to")
                            [(py "to", JStr (py "abc"))] (JStr (py "abc"))
                            eq_refl eq_refl eq_refl _)
                     (py "abc") eq_refl _ _) eq_refl); [discriminate | |].
    + intros n E. injection E as <-. vm_compute. discriminate.
    + intros l E. discriminate.
Defined.

Lemma ltb_nan_l m : PyFloat.ltb S754_nan m = false.
Proof. reflexivity. Qed.

Lemma ltb_nan_r m : PyFloat.ltb m S754_nan = false.
Proof. destruct m; reflexivity. Qed.

(** X6. Not-a-number passes every bound: under a [number] rule the value
    NaN (which [json.loads] reads from the literal [NaN]) is neither below
    [min] nor above [max], so the rule passes whatever the bounds are. *)
Theorem number_rule_nan_passes rule key d :
  ArgRule.path rule = py "$." ++ key ->
  ArgRule.type rule = py "number" ->
  dict_get d key = Some (JFloat S754_nan) ->
  check_rule (JDict d) rule = Ok None.
Proof.
  intros Hp Ht Hk. unfold check_rule.
  rewrite Hp, get_arg_value_key, Hk, Ht. cbn [bind].
  change (str_eqb (py "number") (py "string")) with false.
  rewrite str_eqb_refl. cbv iota.
  unfold below_min, above_max, to_float.
  destruct (ArgRule.min rule) as [lo|], (ArgRule.max rule) as [hi|];
    cbn [bind]; rewrite ?ltb_nan_l, ?ltb_nan_r; reflexivity.
Qed.

Lemma number_rule_nan_passes_witness :
  json_loads (body "{'n': NaN}") = Ok (JDict [(py "n", JFloat S754_nan)])
  /\ check_rule (JDict [(py "n", JFloat S754_nan)]) number_rule = Ok None.
Proof.
  split; [vm_compute; reflexivity|].
  exact (number_rule_nan_passes number_rule (py "n")
           [(py "n", JFloat S754_nan)] eq_refl eq_refl eq_refl).
Defined.

(** X7. An integer too large for a float is converted only when the rule
    has a bound: with no [min] and no [max] a [number] rule passes on it,
    and with a bound the conversion raises OverflowError, which
    [enforce_constraints] turns into CONSTRAINT_EVAL_ERROR. *)
Theorem number_rule_overflow rule key d z :
  ArgRule.path rule = py "$." ++ key ->
  ArgRule.type rule = py "number" ->
  dict_get d key = Some (JInt z) ->
  PyFloat.of_int z = Raise OverflowError ->
  (ArgRule.min rule = None -> ArgRule.max rule = None ->
   check_rule (JDict d) rule = Ok None)
  /\ (ArgRule.min rule <> None \/ ArgRule.max rule <> None ->
      check_rule (JDict d) rule = Raise OverflowError
      /\ forall req permit c rest,
           ToolPermit.constraints permit = Some c ->
           Constraints.arg_rules c = rule :: rest ->
           ToolCall.args (ExecutionRequest.tool req) = JDict d ->
           enforce_constraints req permit = Some CONSTRAINT_EVAL_ERROR).
Proof.
  intros Hp Ht Hk Hz.
  assert (E : check_rule (JDict d) rule
              = (lo <- below_min (JInt z) (ArgRule.min rule) ;;
                 if lo then Ok (Some CONSTRAINT_VIOLATION)
                 else hi <- above_max (JInt z) (ArgRule.max rule) ;;
                      Ok (if hi then Some CONSTRAINT_VIOLATION else None))).
  { unfold check_rule. rewrite Hp, get_arg_value_key, Hk, Ht. cbn [bind].
    change (str_eqb (py "number") (py "string")) with false.
    rewrite str_eqb_refl. reflexivity. }
  rewrite E. unfold below_min, above_max, to_float. split.
  - intros -> ->. reflexivity.
  - intros H.
    assert (C : (lo <- match ArgRule.min rule with
                       | Some m => f <- PyFloat.of_int z ;; Ok (PyFloat.ltb f m)
                       | None => Ok false
                       end ;;
                 if lo then Ok (Some CONSTRAINT_VIOLATION)
                 else hi <- match ArgRule.max rule with
                            | Some m =>
                                f <- PyFloat.of_int z ;; Ok (PyFloat.ltb m f)
                            | None => Ok false
                            end ;;
                      Ok (if hi then Some CONSTRAINT_VIOLATION else None))
                = Raise OverflowError).
    { rewrite Hz.
      destruct (ArgRule.min rule), (ArgRule.max rule); cbn [bind];
        try reflexivity.
      destruct H; contradiction. }
    split; [exact C|].
    intros req permit c rest Hc Hr Ha.
    rewrite (enforce_constraints_first _ _ _ _ _ Hc Hr), Ha, E.
    unfold below_min, above_max, to_float. rewrite C. reflexivity.
Qed.

Lemma number_rule_overflow_witness :
  check_rule (JDict [(py "n", JInt (2 ^ 1024))]) number_rule
  = Raise OverflowError
  /\ enforce_constraints (request_with (JDict [(py "n", JInt (2 ^ 1024))]))
       (permit_with [number_rule])
     = Some CONSTRAINT_EVAL_ERROR.
Proof.
  assert (Hz : PyFloat.of_int (2 ^ 1024) = Raise OverflowError)
    by (vm_compute; reflexivity).
  assert (Hb : ArgRule.min number_rule <> None \/ ArgRule.max number_rule <> None)
    by (left; discriminate).
  pose proof (proj2 (number_rule_overflow number_rule (py "n")
                       [(py "n", JInt (2 ^ 1024))] (2 ^ 1024)
                       eq_refl eq_refl eq_refl Hz) Hb) as [C F].
  split; [exact C|].
  exact (F (request_with (JDict [(py "n", JInt (2 ^ 1024))]))
           (permit_with [number_rule]) _ [] eq_refl eq_refl eq_refl).
Defined.

(** X8. A [bool] rule passes on the booleans and on nothing else: the
    integers 0 and 1, which a [number] rule takes together with the
    booleans, are a CONSTRAINT_VIOLATION here. *)
Theorem bool_rule_spec rule key d v :
  ArgRule.path rule = py "$." ++ key ->
  ArgRule.type rule = py "bool" ->
  dict_get d key = Some v ->
  (check_rule (JDict d) rule = Ok None <-> exists b, v = JBool b)
  /\ ((forall b, v <> JBool b) ->
      check_rule (JDict d) rule = Ok (Some CONSTRAINT_VIOLATION)).
Proof.
  intros Hp Ht Hk. unfold check_rule.
  rewrite Hp, get_arg_value_key, Hk, Ht. cbn [bind].
  change (str_eqb (py "bool") (py "string")) with false.
  change (str_eqb (py "bool") (py "number")) with false.
  rewrite str_eqb_refl.
  destruct v; cbv iota; (split; [split|]);
    try discriminate; try reflexivity;
    try (intros [b' Hb]; discriminate).
  - intros _. now exists b.
  - intros H. now destruct (H b).
Qed.

Lemma bool_rule_spec_witness :
  check_rule (JDict [(py "flag", JInt 1)])
    (ArgRule.mk (py "$.flag") (py "bool") None None None None None)
  = Ok (Some CONSTRAINT_VIOLATION).
Proof.
  refine (proj2 (bool_rule_spec
                   (ArgRule.mk (py "$.flag") (py "bool") None None None None None)
                   (py "flag") [(py "flag", JInt 1)] (JInt 1)
                   eq_refl eq_refl eq_refl) _).
  discriminate.
Defined.

(** ** The rules together *)

Lemma check_rules_pass args rules :
  check_rules args rules = Ok None <-> Forall (passes args) rules.
Proof.
  unfold passes. induction rules as [|r rules IH]; simpl.
  - split; [constructor | reflexivity].
  - destruct (check_rule args r) as [[rc|]|] eqn:E; simpl.
    + split; [discriminate|]. intros H. inversion H; subst. congruence.
    + rewrite IH. split.
      * intros H. constructor; assumption.
      * intros H. now inversion H.
    + split; [discriminate|]. intros H. inversion H; subst. congruence.
Qed.

Lemma enforce_constraints_rules req permit c :
  ToolPermit.constraints permit = Some c ->
  enforce_constraints req permit
  = match check_rules (ToolCall.args (ExecutionRequest.tool req))
            (Constraints.arg_rules c) with
    | Ok r => r
    | Raise _ => Some CONSTRAINT_EVAL_ERROR
    end.
Proof.
  intros Hc. unfold enforce_constraints. rewrite Hc.
  destruct (Constraints.arg_rules c); reflexivity.
Qed.

(** X9. [enforce_constraints] returns nothing exactly when every rule of
    the permit passes on the arguments. Otherwise the first rule that does
    not pass decides: its reason code is returned, or
    CONSTRAINT_EVAL_ERROR when it raises, and the rules after it are not
    evaluated. So a permit with some of the rules of another lets through
    whatever the other lets through. *)
Theorem enforce_constraints_all_pass req permit c :
  ToolPermit.constraints permit = Some c ->
  (enforce_constraints req permit = None
   <-> Forall (passes (ToolCall.args (ExecutionRequest.tool req)))
         (Constraints.arg_rules c))
  /\ (forall pre rule post,
        Constraints.arg_rules c = pre ++ rule :: post ->
        Forall (passes (ToolCall.args (ExecutionRequest.tool req))) pre ->
        (forall rc,
           check_rule (ToolCall.args (ExecutionRequest.tool req)) rule
           = Ok (Some rc) ->
           enforce_constraints req permit = Some rc)
        /\ (forall e,
              check_rule (ToolCall.args (ExecutionRequest.tool req)) rule
              = Raise e ->
              enforce_constraints req permit = Some CONSTRAINT_EVAL_ERROR))
  /\ (forall permit' c',
        ToolPermit.constraints permit' = Some c' ->
        incl (Constraints.arg_rules c') (Constraints.arg_rules c) ->
        enforce_constraints req permit = None ->
        enforce_constraints req permit' = None).
Proof.
  intros Hc.
  set (args := ToolCall.args (ExecutionRequest.tool req)).
  assert (A : enforce_constraints req permit = None
              <-> Forall (passes args) (Constraints.arg_rules c)).
  { rewrite (enforce_constraints_rules _ _ _ Hc). fold args.
    rewrite <- check_rules_pass.
    destruct (check_rules args (Constraints.arg_rules c)) as [[rc|]|];
      split; intros H; try discriminate; reflexivity. }
  split; [exact A|]. split.
  - intros pre rule post Hr Hpre.
    rewrite (enforce_constraints_rules _ _ _ Hc), Hr. fold args.
    apply check_rules_pass in Hpre. rewrite (check_rules_app _ _ _ Hpre).
    simpl. split.
    + intros rc ->. reflexivity.
    + intros e ->. reflexivity.
  - intros permit' c' Hc' Hi H. apply A in H.
    rewrite (enforce_constraints_rules _ _ _ Hc'). fold args.
    assert (F : Forall (passes args) (Constraints.arg_rules c')).
    { apply Forall_forall. intros r Hr.
      rewrite Forall_forall in H. apply H, Hi, Hr. }
    apply check_rules_pass in F. rewrite F. reflexivity.
Qed.

Lemma enforce_constraints_all_pass_witness :
  enforce_constraints (request_with (JDict [(py "n", JInt 11)]))
    (permit_with [number_rule; integer_rule])
  = Some CONSTRAINT_VIOLATION.
Proof.
  refine (proj1 (proj1 (proj2 (enforce_constraints_all_pass
                                 (request_with (JDict [(py "n", JInt 11)]))
                                 (permit_with [number_rule; integer_rule])
                                 _ eq_refl))
                   [] number_rule [integer_rule] eq_refl (Forall_nil _))
            CONSTRAINT_VIOLATION _).
  vm_compute. reflexivity.
Defined.

Lemma check_rule_codes args rule rc :
  check_rule args rule = Ok (Some rc) ->
  rc = CONSTRAINT_VIOLATION \/ rc = CONSTRAINT_EVAL_ERROR.
Proof.
  unfold check_rule.
  destruct (_get_arg_value args (ArgRule.path rule)) as [v|]; cbn [bind];
    [|discriminate].
  destruct (str_eqb (ArgRule.type rule) (py "string")).
  { destruct v; try (intros H; injection H as <-; now left).
    destruct (match ArgRule.max_len rule with
              | Some n => n <? py_len s
              | None => false
              end); [intros H; injection H as <-; now left|].
    destruct (match ArgRule.enum rule with
              | Some l => negb (str_in s l)
              | None => false
              end); [intros H; injection H as <-; now left|].
    destruct (pattern_fails (ArgRule.pattern rule) s) as [[|]|]; cbn [bind];
      try discriminate.
    intros H; injection H as <-; now left. }
  destruct (str_eqb (ArgRule.type rule) (py "number")).
  { destruct v; try (intros H; injection H as <-; now left);
      (destruct (below_min _ _) as [[|]|]; cbn [bind];
       [intros H; injection H as <-; now left | | discriminate];
       destruct (above_max _ _) as [[|]|]; cbn [bind]; try discriminate;
       intros H; injection H as <-; now left). }
  destruct (str_eqb (ArgRule.type rule) (py "bool")).
  { destruct v; try discriminate; intros H; injection H as <-; now left. }
  destruct v; intros H; injection H as <-; auto.
Qed.

Lemma check_rules_codes args rules rc :
  check_rules args rules = Ok (Some rc) ->
  rc = CONSTRAINT_VIOLATION \/ rc = CONSTRAINT_EVAL_ERROR.
Proof.
  induction rules as [|r rules IH]; simpl; [discriminate|].
  destruct (check_rule args r) as [[rc'|]|] eqn:E; simpl; try discriminate.
  - intros H. injection H as <-. eapply check_rule_codes, E.
  - exact IH.
Qed.

(** X10. [enforce_constraints] returns nothing, CONSTRAINT_VIOLATION or
    CONSTRAINT_EVAL_ERROR, and no other reason code; a permit without
    constraints, or with an empty list of rules, lets every arguments
    through, objects or not. *)
Theorem enforce_constraints_codes req permit :
  (enforce_constraints req permit = None
   \/ enforce_constraints req permit = Some CONSTRAINT_VIOLATION
   \/ enforce_constraints req permit = Some CONSTRAINT_EVAL_ERROR)
  /\ (ToolPermit.constraints permit = None ->
      enforce_constraints req permit = None)
  /\ (forall c, ToolPermit.constraints permit = Some c ->
        Constraints.arg_rules c = [] ->
        enforce_constraints req permit = None).
Proof.
  split; [|split].
  - unfold enforce_constraints.
    destruct (ToolPermit.constraints permit) as [c|]; [|now left].
    destruct (Constraints.arg_rules c) as [|r l]; [now left|].
    destruct (check_rules _ (r :: l)) as [[rc|]|] eqn:E; auto.
    apply check_rules_codes in E as [-> | ->]; auto.
  - unfold enforce_constraints. intros ->. reflexivity.
  - unfold enforce_constraints. intros c -> ->. reflexivity.
Qed.

(** ** The request model *)

(** X11. A reason code is found again from its value, and only from it:
    [ReasonCode(rc.value)] is [rc], and a string that gives a reason code is
    the value of that code, letter for letter. *)
Theorem reason_code_round_trip :
  (forall rc, reason_of_value (reason_value rc) = Some rc)
  /\ (forall s rc, reason_of_value s = Some rc -> s = reason_value rc)
  /\ (forall s, (forall rc, s <> reason_value rc) -> reason_of_value s = None).
Proof.
  split; [|split].
  - intros rc. destruct rc; vm_compute; reflexivity.
  - intros s rc H. unfold reason_of_value in H.
    apply find_some in H as [_ H]. apply str_eqb_eq in H. now subst.
  - intros s H. destruct (reason_of_value s) as [rc|] eqn:E; [|reflexivity].
    unfold reason_of_value in E.
    apply find_some in E as [_ E]. apply str_eqb_eq in E.
    destruct (H rc). now subst.
Qed.

Lemma forbid_extra_raise fields d k :
  In k (dict_keys d) -> ~ In k fields ->
  forbid_extra fields d = Raise ValidationError.
Proof.
  intros Hk Hf. unfold forbid_extra.
  destruct (forallb _ _) eqn:E; [|reflexivity].
  rewrite forallb_forall in E. apply E in Hk. apply str_in_In in Hk.
  contradiction.
Qed.

Lemma bind_raise {A B} (m : result A) (k : A -> result B) e :
  m = Raise e -> bind m k = Raise e.
Proof. intros ->. reflexivity. Qed.

Lemma Actor_raises m e :
  Actor.model_validate m = Raise e -> e = ValidationError.
Proof.
  unfold Actor.model_validate, forbid_extra, field_str1, bind.
  destruct (forallb _ _); [|congruence].
  destruct (dict_get m (py "principal_id")) as [[]|]; try congruence.
  destruct (valid_str1 _); [|congruence].
  destruct (dict_get m (py "principal_type")) as [[]|]; try congruence.
  destruct (valid_str1 _); [|congruence].
  destruct (dict_get m (py "attributes")) as [[]|]; try congruence.
  destruct (str_values d) eqn:E; [congruence|].
  intros H. injection H as <-.
  clear - E. revert e0 E. induction d as [|[k v] d IH]; simpl; intros e0;
    [discriminate|].
  destruct v; try congruence. unfold bind.
  destruct (str_values d); [discriminate|].
  intros H. injection H as <-. now apply IH.
Qed.

Lemma ToolCall_raises m e :
  ToolCall.model_validate m = Raise e -> e = ValidationError.
Proof.
  unfold ToolCall.model_validate, forbid_extra, field_str1, field_any, bind.
  destruct (forallb _ _); [|congruence].
  destruct (dict_get m (py "name")) as [[]|]; try congruence.
  destruct (valid_str1 _); [|congruence].
  destruct (dict_get m (py "args")); congruence.
Qed.

Lemma ProfileRef_raises m e :
  ProfileRef.model_validate m = Raise e -> e = ValidationError.
Proof.
  unfold ProfileRef.model_validate, forbid_extra, field_str1, bind.
  destruct (forallb _ _); [|congruence].
  destruct (dict_get m (py "id")) as [[]|]; try congruence.
  destruct (valid_str1 _); [|congruence].
  destruct (dict_get m (py "version")) as [[]|]; try congruence.
  destruct (valid_str1 _); congruence.
Qed.

Lemma Context_raises m e :
  Context.model_validate m = Raise e -> e = ValidationError.
Proof.
  unfold Context.model_validate, forbid_extra, field_str1, field_any, bind.
  destruct (forallb _ _); [|congruence].
  destruct (dict_get m (py "snapshot")); try congruence.
  destruct (dict_get m (py "snapshot_hash")) as [[]|]; try congruence.
  destruct (valid_str1 _); congruence.
Qed.

Lemma Controls_raises m e :
  Controls.model_validate m = Raise e -> e = ValidationError.
Proof.
  unfold Controls.model_validate, forbid_extra, field_opt_str, bind.
  destruct (forallb _ _); [|congruence].
  destruct (dict_get m (py "approval_token")) as [[]|]; try congruence;
    destruct (dict_get m (py "nonce")) as [[]|]; congruence.
Qed.

Lemma submodel_raises {A} (validate : pydict json -> result A) d k e :
  (forall m e, validate m = Raise e -> e = ValidationError) ->
  (m <- field_model d k ;; validate m) = Raise e -> e = ValidationError.
Proof.
  intros V. unfold field_model, bind.
  destruct (dict_get d (py k)) as [[]|]; try congruence. apply V.
Qed.

(** The validation of a request fails with a ValidationError and no other
    exception. *)
Lemma model_validate_raises obj e :
  ExecutionRequest.model_validate obj = Raise e -> e = ValidationError.
Proof.
  unfold ExecutionRequest.model_validate.
  destruct obj; try congruence.
  destruct (forbid_extra ExecutionRequest.fields d) eqn:E0; cbn [bind].
  2:{ unfold forbid_extra in E0. destruct (forallb _ _); congruence. }
  destruct (field_str1 d "request_id") eqn:E1; cbn [bind].
  2:{ unfold field_str1 in E1.
      destruct (dict_get d _) as [[]|]; try congruence.
      destruct (valid_str1 _); congruence. }
  destruct (m <- field_model d "actor" ;; Actor.model_validate m) eqn:E2;
    cbn [bind].
  2:{ apply submodel_raises in E2; [congruence | apply Actor_raises]. }
  destruct (m <- field_model d "tool" ;; ToolCall.model_validate m) eqn:E3;
    cbn [bind].
  2:{ apply submodel_raises in E3; [congruence | apply ToolCall_raises]. }
  destruct (m <- field_model d "profile" ;; ProfileRef.model_validate m) eqn:E4;
    cbn [bind].
  2:{ apply submodel_raises in E4; [congruence | apply ProfileRef_raises]. }
  destruct (m <- field_model d "context" ;; Context.model_validate m) eqn:E5;
    cbn [bind].
  2:{ apply submodel_raises in E5; [congruence | apply Context_raises]. }
  destruct (dict_get d (py "controls")) as [[]|] eqn:E6; cbn [bind];
    try congruence;
    try (unfold field_opt_str;
         destruct (dict_get d (py "submitted_at")) as [[]|]; cbn [bind];
         congruence).
  destruct (Controls.model_validate d0) eqn:E7; cbn [bind].
  - unfold field_opt_str;
      destruct (dict_get d (py "submitted_at")) as [[]|]; cbn [bind];
      congruence.
  - apply Controls_raises in E7. congruence.
Qed.

Lemma model_validate_not_ok obj :
  (forall req, ExecutionRequest.model_validate obj <> Ok req) ->
  ExecutionRequest.model_validate obj = Raise ValidationError.
Proof.
  intros H. destruct (ExecutionRequest.model_validate obj) as [req|e] eqn:E.
  - destruct (H req eq_refl).
  - apply model_validate_raises in E. now subst.
Qed.

Lemma field_str1_inv d k s :
  field_str1 d k = Ok s ->
  dict_get d (py k) = Some (JStr s) /\ valid_str1 s = true.
Proof.
  unfold field_str1. destruct (dict_get d (py k)) as [[]|]; try discriminate.
  destruct (valid_str1 s0) eqn:E; [|discriminate].
  intros H. injection H as <-. auto.
Qed.

Lemma field_any_inv d k v : field_any d k = Ok v -> dict_get d (py k) = Some v.
Proof.
  unfold field_any. destruct (dict_get d (py k)); [|discriminate].
  intros H. now injection H as <-.
Qed.

Lemma submodel_inv {A} (validate : pydict json -> result A) d k a :
  (m <- field_model d k ;; validate m) = Ok a ->
  exists m, dict_get d (py k) = Some (JDict m) /\ validate m = Ok a.
Proof.
  unfold field_model, bind.
  destruct (dict_get d (py k)) as [[]|]; try discriminate.
  intros H. eauto.
Qed.

Lemma forbid_extra_inv fields d :
  forbid_extra fields d = Ok tt <->
  forall k, In k (dict_keys d) -> In k fields.
Proof.
  unfold forbid_extra. destruct (forallb _ _) eqn:E.
  - split; [|reflexivity]. intros _ k Hk.
    rewrite forallb_forall in E. now apply str_in_In, E.
  - split; [discriminate|]. intros H.
    assert (forallb (fun k => str_in k fields) (dict_keys d) = true).
    { apply forallb_forall. intros k Hk. now apply str_in_In, H. }
    congruence.
Qed.

Lemma valid_str1_nonempty s : valid_str1 s = true -> s <> [].
Proof. destruct s; [discriminate | discriminate]. Qed.

Lemma Actor_inv m a :
  Actor.model_validate m = Ok a ->
  forbid_extra [py "principal_id"; py "principal_type"; py "attributes"] m
  = Ok tt
  /\ field_str1 m "principal_id" = Ok (Actor.principal_id a)
  /\ field_str1 m "principal_type" = Ok (Actor.principal_type a)
  /\ match dict_get m (py "attributes") with
     | None => Actor.attributes a = []
     | Some (JDict x) => str_values x = Ok (Actor.attributes a)
     | Some _ => False
     end.
Proof.
  unfold Actor.model_validate.
  destruct (forbid_extra _ m) as [[]|]; cbn [bind]; [|discriminate].
  destruct (field_str1 m "principal_id"); cbn [bind]; [|discriminate].
  destruct (field_str1 m "principal_type"); cbn [bind]; [|discriminate].
  destruct (dict_get m (py "attributes")) as [[]|]; cbn [bind];
    try discriminate.
  - destruct (str_values d); cbn [bind]; [|discriminate].
    intros H. injection H as <-. auto.
  - intros H. injection H as <-. auto.
Qed.

Lemma ToolCall_inv m t :
  ToolCall.model_validate m = Ok t ->
  forbid_extra [py "name"; py "args"] m = Ok tt
  /\ field_str1 m "name" = Ok (ToolCall.name t)
  /\ dict_get m (py "args") = Some (ToolCall.args t).
Proof.
  unfold ToolCall.model_validate.
  destruct (forbid_extra _ m) as [[]|]; cbn [bind]; [|discriminate].
  destruct (field_str1 m "name"); cbn [bind]; [|discriminate].
  destruct (field_any m "args") eqn:E; cbn [bind]; [|discriminate].
  apply field_any_inv in E.
  intros H. injection H as <-. auto.
Qed.

Lemma ProfileRef_inv m p :
  ProfileRef.model_validate m = Ok p ->
  forbid_extra [py "id"; py "version"] m = Ok tt
  /\ field_str1 m "id" = Ok (ProfileRef.id p)
  /\ field_str1 m "version" = Ok (ProfileRef.version p).
Proof.
  unfold ProfileRef.model_validate.
  destruct (forbid_extra _ m) as [[]|]; cbn [bind]; [|discriminate].
  destruct (field_str1 m "id"); cbn [bind]; [|discriminate].
  destruct (field_str1 m "version"); cbn [bind]; [|discriminate].
  intros H. injection H as <-. auto.
Qed.

Lemma Context_inv m c :
  Context.model_validate m = Ok c ->
  forbid_extra [py "snapshot"; py "snapshot_hash"] m = Ok tt
  /\ dict_get m (py "snapshot") = Some (Context.snapshot c)
  /\ field_str1 m "snapshot_hash" = Ok (Context.snapshot_hash c).
Proof.
  unfold Context.model_validate.
  destruct (forbid_extra _ m) as [[]|]; cbn [bind]; [|discriminate].
  destruct (field_any m "snapshot") eqn:E; cbn [bind]; [|discriminate].
  apply field_any_inv in E.
  destruct (field_str1 m "snapshot_hash"); cbn [bind]; [|discriminate].
  intros H. injection H as <-. auto.
Qed.

Lemma Controls_inv m c :
  Controls.model_validate m = Ok c ->
  forbid_extra [py "approval_token"; py "nonce"] m = Ok tt
  /\ field_opt_str m "approval_token" = Ok (Controls.approval_token c)
  /\ field_opt_str m "nonce" = Ok (Controls.nonce c).
Proof.
  unfold Controls.model_validate.
  destruct (forbid_extra _ m) as [[]|]; cbn [bind]; [|discriminate].
  destruct (field_opt_str m "approval_token"); cbn [bind]; [|discriminate].
  destruct (field_opt_str m "nonce"); cbn [bind]; [|discriminate].
  intros H. injection H as <-. auto.
Qed.

Lemma model_validate_inv obj req :
  ExecutionRequest.model_validate obj = Ok req ->
  exists d,
    obj = JDict d
    /\ forbid_extra ExecutionRequest.fields d = Ok tt
    /\ field_str1 d "request_id" = Ok (ExecutionRequest.request_id req)
    /\ (exists m, dict_get d (py "actor") = Some (JDict m)
                  /\ Actor.model_validate m = Ok (ExecutionRequest.actor req))
    /\ (exists m, dict_get d (py "tool") = Some (JDict m)
                  /\ ToolCall.model_validate m = Ok (ExecutionRequest.tool req))
    /\ (exists m, dict_get d (py "profile") = Some (JDict m)
                  /\ ProfileRef.model_validate m
                     = Ok (ExecutionRequest.profile req))
    /\ (exists m, dict_get d (py "context") = Some (JDict m)
                  /\ Context.model_validate m
                     = Ok (ExecutionRequest.context req))
    /\ match dict_get d (py "controls") with
       | None | Some JNull => ExecutionRequest.controls req = None
       | Some (JDict m) =>
           exists c, Controls.model_validate m = Ok c
                     /\ ExecutionRequest.controls req = Some c
       | Some _ => False
       end
    /\ field_opt_str d "submitted_at" = Ok (ExecutionRequest.submitted_at req).
Proof.
  unfold ExecutionRequest.model_validate.
  destruct obj; try discriminate. intros E. exists d. split; [reflexivity|].
  revert E.
  destruct (forbid_extra ExecutionRequest.fields d) as [[]|]; cbn [bind];
    [|discriminate].
  destruct (field_str1 d "request_id"); cbn [bind]; [|discriminate].
  destruct (m <- field_model d "actor" ;; Actor.model_validate m) eqn:E2;
    cbn [bind]; [|discriminate].
  destruct (m <- field_model d "tool" ;; ToolCall.model_validate m) eqn:E3;
    cbn [bind]; [|discriminate].
  destruct (m <- field_model d "profile" ;; ProfileRef.model_validate m) eqn:E4;
    cbn [bind]; [|discriminate].
  destruct (m <- field_model d "context" ;; Context.model_validate m) eqn:E5;
    cbn [bind]; [|discriminate].
  apply submodel_inv in E2, E3, E4, E5.
  destruct (dict_get d (py "controls")) as [[]|] eqn:E6; cbn [bind];
    try discriminate.
  1,3: destruct (field_opt_str d "submitted_at"); cbn [bind];
    [|discriminate]; intros Hq; injection Hq as <-; simpl; auto 10.
  destruct (Controls.model_validate d0) eqn:E7; cbn [bind];
    [|discriminate].
  destruct (field_opt_str d "submitted_at"); cbn [bind]; [|discriminate].
  intros Hq; injection Hq as <-; simpl. repeat split; eauto.
Qed.

(** X12. [extra="forbid"]: a body with a key that is not a field of the
    request is refused, and so is a body in which the object of the actor,
    the tool, the profile, the context or the controls has a key that is not
    a field of that model. *)
Theorem unknown_key_is_rejected d :
  (exists k, In k (dict_keys d) /\ ~ In k ExecutionRequest.fields)
  \/ (exists m k, dict_get d (py "actor") = Some (JDict m)
                  /\ In k (dict_keys m)
                  /\ ~ In k [py "principal_id"; py "principal_type";
                             py "attributes"])
  \/ (exists m k, dict_get d (py "tool") = Some (JDict m)
                  /\ In k (dict_keys m) /\ ~ In k [py "name"; py "args"])
  \/ (exists m k, dict_get d (py "profile") = Some (JDict m)
                  /\ In k (dict_keys m) /\ ~ In k [py "id"; py "version"])
  \/ (exists m k, dict_get d (py "context") = Some (JDict m)
                  /\ In k (dict_keys m)
                  /\ ~ In k [py "snapshot"; py "snapshot_hash"])
  \/ (exists m k, dict_get d (py "controls") = Some (JDict m)
                  /\ In k (dict_keys m)
                  /\ ~ In k [py "approval_token"; py "nonce"]) ->
  ExecutionRequest.model_validate (JDict d) = Raise ValidationError.
Proof.
  intros H. apply model_validate_not_ok. intros req E.
  apply model_validate_inv in E
    as (d' & Ed & F & _ & (ma & Ga & Va) & (mt & Gt & Vt) & (mp & Gp & Vp)
        & (mc & Gc & Vc) & Ctl & _).
  injection Ed as <-.
  destruct H as [(k & Hk & Hn) | [(m & k & G & Hk & Hn) | [(m & k & G & Hk & Hn)
    | [(m & k & G & Hk & Hn) | [(m & k & G & Hk & Hn) | (m & k & G & Hk & Hn)]]]]].
  - apply Hn. eapply forbid_extra_inv; eauto.
  - rewrite G in Ga. injection Ga as <-. apply Actor_inv in Va as (Fa & _).
    apply Hn. eapply forbid_extra_inv; eauto.
  - rewrite G in Gt. injection Gt as <-. apply ToolCall_inv in Vt as (Ft & _).
    apply Hn. eapply forbid_extra_inv; eauto.
  - rewrite G in Gp. injection Gp as <-. apply ProfileRef_inv in Vp as (Fp & _).
    apply Hn. eapply forbid_extra_inv; eauto.
  - rewrite G in Gc. injection Gc as <-. apply Context_inv in Vc as (Fc & _).
    apply Hn. eapply forbid_extra_inv; eauto.
  - rewrite G in Ctl. destruct Ctl as (c & Vx & _).
    apply Controls_inv in Vx as (Fx & _).
    apply Hn. eapply forbid_extra_inv; eauto.
Qed.

Lemma unknown_key_is_rejected_witness :
  ExecutionRequest.model_validate
    (JDict [(py "request_id", JStr (py "r1")); (py "priority", JInt 1)])
  = Raise ValidationError.
Proof.
  apply unknown_key_is_rejected. left. exists (py "priority"). split.
  - right. left. reflexivity.
  - intros H. repeat (destruct H as [H | H]; [discriminate|]). exact H.
Defined.

(** X13. A body that is not an object, or an object without one of the
    fields [request_id], [actor], [tool], [profile] and [context], is
    refused; and the validation of a request fails with a ValidationError,
    never with another exception. *)
Theorem required_fields_are_required obj :
  ((forall d, obj <> JDict d)
   \/ exists d k, obj = JDict d /\ In k required_fields /\ dict_get d k = None) ->
  ExecutionRequest.model_validate obj = Raise ValidationError.
Proof.
  intros H. apply model_validate_not_ok. intros req E.
  apply model_validate_inv in E
    as (d' & Ed & F & R & (ma & Ga & Va) & (mt & Gt & Vt) & (mp & Gp & Vp)
        & (mc & Gc & Vc) & Ctl & _).
  destruct H as [H | (d & k & -> & Hk & G)]; [now destruct (H d')|].
  injection Ed as <-. apply field_str1_inv in R as [R _].
  unfold required_fields in Hk.
  repeat (destruct Hk as [<- | Hk]; [congruence|]). exact Hk.
Qed.

Lemma required_fields_are_required_witness :
  ExecutionRequest.model_validate (JList []) = Raise ValidationError
  /\ ExecutionRequest.model_validate
       (JDict [(py "request_id", JStr (py "r1"))])
     = Raise ValidationError.
Proof.
  split.
  - apply required_fields_are_required. left. discriminate.
  - apply required_fields_are_required. right.
    exists [(py "request_id", JStr (py "r1"))], (py "tool").
    split; [reflexivity|]. split; [|reflexivity].
    right. right. left. reflexivity.
Defined.

(** X14. A request that validates is the body, field by field: its
    identifier, the name and the arguments of its tool call, its profile
    reference and its context are the values the body has under these keys,
    the arguments and the snapshot as they are; and the strings with a
    minimum length are not empty. *)
Theorem validated_request_is_the_body obj req :
  ExecutionRequest.model_validate obj = Ok req ->
  exists d a t p c,
    obj = JDict d
    /\ dict_get d (py "request_id")
       = Some (JStr (ExecutionRequest.request_id req))
    /\ ExecutionRequest.request_id req <> []
    /\ dict_get d (py "actor") = Some (JDict a)
    /\ dict_get a (py "principal_id")
       = Some (JStr (Actor.principal_id (ExecutionRequest.actor req)))
    /\ Actor.principal_id (ExecutionRequest.actor req) <> []
    /\ dict_get a (py "principal_type")
       = Some (JStr (Actor.principal_type (ExecutionRequest.actor req)))
    /\ Actor.principal_type (ExecutionRequest.actor req) <> []
    /\ dict_get d (py "tool") = Some (JDict t)
    /\ dict_get t (py "name")
       = Some (JStr (ToolCall.name (ExecutionRequest.tool req)))
    /\ ToolCall.name (ExecutionRequest.tool req) <> []
    /\ dict_get t (py "args") = Some (ToolCall.args (ExecutionRequest.tool req))
    /\ dict_get d (py "profile") = Some (JDict p)
    /\ dict_get p (py "id")
       = Some (JStr (ProfileRef.id (ExecutionRequest.profile req)))
    /\ ProfileRef.id (ExecutionRequest.profile req) <> []
    /\ dict_get p (py "version")
       = Some (JStr (ProfileRef.version (ExecutionRequest.profile req)))
    /\ ProfileRef.version (ExecutionRequest.profile req) <> []
    /\ dict_get d (py "context") = Some (JDict c)
    /\ dict_get c (py "snapshot")
       = Some (Context.snapshot (ExecutionRequest.context req))
    /\ dict_get c (py "snapshot_hash")
       = Some (JStr (Context.snapshot_hash (ExecutionRequest.context req)))
    /\ Context.snapshot_hash (ExecutionRequest.context req) <> [].
Proof.
  intros E.
  apply model_validate_inv in E
    as (d & -> & F & R & (ma & Ga & Va) & (mt & Gt & Vt) & (mp & Gp & Vp)
        & (mc & Gc & Vc) & Ctl & _).
  apply field_str1_inv in R as [R1 R2]. apply valid_str1_nonempty in R2.
  apply Actor_inv in Va as (_ & A1 & A2 & _).
  apply field_str1_inv in A1 as [A1 A1'], A2 as [A2 A2'].
  apply valid_str1_nonempty in A1', A2'.
  apply ToolCall_inv in Vt as (_ & T1 & T2).
  apply field_str1_inv in T1 as [T1 T1']. apply valid_str1_nonempty in T1'.
  apply ProfileRef_inv in Vp as (_ & P1 & P2).
  apply field_str1_inv in P1 as [P1 P1'], P2 as [P2 P2'].
  apply valid_str1_nonempty in P1', P2'.
  apply Context_inv in Vc as (_ & C1 & C2).
  apply field_str1_inv in C2 as [C2 C2']. apply valid_str1_nonempty in C2'.
  exists d, ma, mt, mp, mc. repeat split; assumption.
Qed.

Lemma str_values_dump (attrs : pydict pystr) :
  str_values (List.map (fun kv => (fst kv, JStr (snd kv))) attrs) = Ok attrs.
Proof.
  induction attrs as [|[k s] l IH]; simpl; [reflexivity|].
  rewrite IH. reflexivity.
Qed.

(** X15. What [model_dump] gives of a validated request validates again, to
    the same request: the gate hashes a form of the request that stands for
    the request and nothing else. *)
Theorem model_dump_validates obj req :
  ExecutionRequest.model_validate obj = Ok req ->
  ExecutionRequest.model_validate (ExecutionRequest.model_dump req) = Ok req.
Proof.
  intros E.
  apply model_validate_inv in E
    as (d & -> & F & R & (ma & Ga & Va) & (mt & Gt & Vt) & (mp & Gp & Vp)
        & (mc & Gc & Vc) & Ctl & _).
  apply field_str1_inv in R as [_ R].
  apply Actor_inv in Va as (_ & A1 & A2 & _).
  apply field_str1_inv in A1 as [_ A1], A2 as [_ A2].
  apply ToolCall_inv in Vt as (_ & T1 & _).
  apply field_str1_inv in T1 as [_ T1].
  apply ProfileRef_inv in Vp as (_ & P1 & P2).
  apply field_str1_inv in P1 as [_ P1], P2 as [_ P2].
  apply Context_inv in Vc as (_ & _ & C2).
  apply field_str1_inv in C2 as [_ C2].
  clear - R A1 A2 T1 P1 P2 C2.
  destruct req as [rid [pid pty attrs] [tn ta] [id ver] [snap sh] ctl sub].
  cbn [ExecutionRequest.request_id ExecutionRequest.actor ExecutionRequest.tool
       ExecutionRequest.profile ExecutionRequest.context Actor.principal_id
       Actor.principal_type ToolCall.name ProfileRef.id ProfileRef.version
       Context.snapshot_hash] in *.
  pose proof (str_values_dump attrs) as SV.
  unfold ExecutionRequest.model_dump, Actor.model_dump.
  cbn [ExecutionRequest.actor Actor.attributes].
  remember (List.map (fun kv => (fst kv, JStr (snd kv))) attrs) as dumped.
  clear Heqdumped.
  cbv - [valid_str1 str_values].
  rewrite R, A1, A2, SV, T1, P1, P2, C2.
  destruct ctl as [[[tok|] [nonce|]]|], sub as [s|]; reflexivity.
Qed.

Lemma dict_get_set {V} (d : pydict V) k v :
  dict_get (dict_set d k v) k = Some v.
Proof.
  induction d as [|[k0 v0] d IH]; simpl.
  - now rewrite str_eqb_refl.
  - destruct (str_eqb k0 k) eqn:E; simpl; rewrite E; [reflexivity | exact IH].
Qed.

Lemma dict_get_set_other {V} (d : pydict V) k v k' :
  k <> k' -> dict_get (dict_set d k v) k' = dict_get d k'.
Proof.
  intros N. induction d as [|[k0 v0] d IH]; simpl.
  - apply str_eqb_neq in N. now rewrite N.
  - destruct (str_eqb k0 k) eqn:E; simpl.
    + apply str_eqb_eq in E. subst k0.
      apply str_eqb_neq in N. now rewrite N.
    + now rewrite IH.
Qed.

Lemma forbid_extra_set fields d k v :
  In k fields -> forbid_extra fields (dict_set d k v) = forbid_extra fields d.
Proof.
  intros Hk. unfold forbid_extra.
  assert (E : forallb (fun x => str_in x fields) (dict_keys (dict_set d k v))
              = forallb (fun x => str_in x fields) (dict_keys d)).
  { induction d as [|[k0 v0] d IH]; simpl.
    - apply str_in_In in Hk. now rewrite Hk.
    - destruct (str_eqb k0 k); simpl; [reflexivity|]. now rewrite IH. }
  now rewrite E.
Qed.

Ltac other_key :=
  rewrite dict_get_set_other by (intros Q; vm_compute in Q; discriminate).

(** X16. The fields with a default can be left out: without [controls],
    without [submitted_at] or without the [attributes] of the actor, a body
    validates to the request it validates to with [null], [null] and [{}]
    there; so the request hash taken from the validated request is the same
    for the two. *)
Theorem optional_fields_default d :
  (dict_get d (py "controls") = None ->
   ExecutionRequest.model_validate (JDict (dict_set d (py "controls") JNull))
   = ExecutionRequest.model_validate (JDict d))
  /\ (dict_get d (py "submitted_at") = None ->
      ExecutionRequest.model_validate
        (JDict (dict_set d (py "submitted_at") JNull))
      = ExecutionRequest.model_validate (JDict d))
  /\ (forall a,
        dict_get d (py "actor") = Some (JDict a) ->
        dict_get a (py "attributes") = None ->
        ExecutionRequest.model_validate
          (JDict (dict_set d (py "actor")
                    (JDict (dict_set a (py "attributes") (JDict [])))))
        = ExecutionRequest.model_validate (JDict d)).
Proof.
  split; [|split].
  - intros H. unfold ExecutionRequest.model_validate, field_str1, field_model,
      field_opt_str.
    rewrite forbid_extra_set by (vm_compute; tauto).
    rewrite dict_get_set, H. repeat other_key. reflexivity.
  - intros H. unfold ExecutionRequest.model_validate, field_str1, field_model,
      field_opt_str.
    rewrite forbid_extra_set by (vm_compute; tauto).
    rewrite dict_get_set, H. repeat other_key. reflexivity.
  - intros a Ha H. unfold ExecutionRequest.model_validate, field_str1,
      field_model, field_opt_str.
    rewrite forbid_extra_set by (vm_compute; tauto).
    rewrite dict_get_set, Ha. repeat other_key. cbn [bind].
    replace (Actor.model_validate (dict_set a (py "attributes") (JDict [])))
      with (Actor.model_validate a); [reflexivity|].
    unfold Actor.model_validate, field_str1.
    rewrite forbid_extra_set by (vm_compute; tauto).
    rewrite dict_get_set, H. repeat other_key. reflexivity.
Qed.

Lemma plain_object_validates :
  ExecutionRequest.model_validate plain_object = Ok plain_request.
Proof. vm_compute. reflexivity. Qed.

Lemma validated_request_is_the_body_witness :
  exists t,
    dict_get t (py "args")
    = Some (ToolCall.args (ExecutionRequest.tool plain_request))
    /\ ExecutionRequest.request_id plain_request <> [].
Proof.
  destruct (validated_request_is_the_body plain_object plain_request
              plain_object_validates)
    as (d & a & t & p & c & _ & _ & Hr & _ & _ & _ & _ & _ & _ & _ & _ & Ha & _).
  exists t. split; [exact Ha | exact Hr].
Defined.

Lemma model_dump_validates_witness :
  ExecutionRequest.model_validate (ExecutionRequest.model_dump plain_request)
  = Ok plain_request.
Proof.
  exact (model_dump_validates plain_object plain_request
           plain_object_validates).
Defined.

(** ** Digests *)

Lemma round_length st kw :
  List.length st = 8%nat -> List.length (Sha256.round st kw) = 8%nat.
Proof.
  intros H. do 9 (destruct st as [|? st]; try discriminate). reflexivity.
Qed.

Lemma rounds_length l st :
  List.length st = 8%nat ->
  List.length (fold_left Sha256.round l st) = 8%nat.
Proof.
  revert st. induction l as [|kw l IH]; simpl; intros st H; [exact H|].
  apply IH, round_length, H.
Qed.

Lemma compress_length h block :
  List.length h = 8%nat -> List.length (Sha256.compress h block) = 8%nat.
Proof.
  intros H. unfold Sha256.compress.
  rewrite length_map, length_combine, rounds_length by exact H.
  rewrite H. reflexivity.
Qed.

Lemma compressions_length blocks h :
  List.length h = 8%nat ->
  List.length (fold_left Sha256.compress blocks h) = 8%nat.
Proof.
  revert h. induction blocks as [|b l IH]; simpl; intros h H; [exact H|].
  apply IH, compress_length, H.
Qed.

Lemma be_octets_spec n x :
  List.length (Sha256.be_octets n x) = n
  /\ Forall (fun b => 0 <= b < 256) (Sha256.be_octets n x).
Proof.
  induction n as [|n [IH1 IH2]]; simpl; [split; [reflexivity | constructor]|].
  split; [now rewrite IH1|].
  constructor; [|exact IH2]. apply Z.mod_pos_bound. lia.
Qed.

Lemma digest_octets data :
  List.length (Sha256.digest data) = 32%nat
  /\ Forall (fun b => 0 <= b < 256) (Sha256.digest data).
Proof.
  unfold Sha256.digest.
  set (hs := fold_left Sha256.compress _ Sha256.H0).
  assert (L : List.length hs = 8%nat) by (apply compressions_length; reflexivity).
  clearbody hs. split.
  - do 9 (destruct hs as [|? hs]; try discriminate). reflexivity.
  - apply Forall_flat_map, Forall_forall. intros x _. apply be_octets_spec.
Qed.

Lemma hex_digit_is_hex d : 0 <= d < 16 -> is_hex (hex_digit d) = true.
Proof.
  intros H. unfold hex_digit, is_hex.
  destruct (d <? 10) eqn:E.
  - apply Z.ltb_lt in E. apply orb_true_iff. left.
    apply andb_true_iff. split; apply N.leb_le; lia.
  - apply Z.ltb_ge in E. apply orb_true_iff. right.
    apply andb_true_iff. split; apply N.leb_le; lia.
Qed.

Lemma hex_of_octets_spec bs :
  Forall (fun b => 0 <= b < 256) bs ->
  List.length (hex_of_octets bs) = (2 * List.length bs)%nat
  /\ forallb is_hex (hex_of_octets bs) = true.
Proof.
  unfold hex_of_octets. induction 1 as [|b bs Hb _ [IH1 IH2]]; simpl.
  - auto.
  - split; [rewrite IH1; lia|].
    rewrite !hex_digit_is_hex, IH2; [reflexivity | |].
    + apply Z.mod_pos_bound. lia.
    + split; [apply Z.div_pos; lia | apply Z.div_lt_upper_bound; lia].
Qed.

Lemma is_hex_not_surrogate c : is_hex c = true -> is_surrogate c = false.
Proof.
  unfold is_hex, is_surrogate. intros H.
  apply andb_false_iff. left. apply N.leb_gt.
  apply orb_true_iff in H as [H | H]; apply andb_true_iff in H as [_ H];
    apply N.leb_le in H; lia.
Qed.

(** X17. A digest is the text [sha256:] followed by 64 lowercase
    hexadecimal digits, whatever bytes are hashed: [sha256_prefixed] always
    gives 71 characters, and so does [hash_json] when it returns. *)
Theorem sha256_prefixed_format data :
  (exists hex,
     sha256_prefixed data = py "sha256:" ++ hex
     /\ List.length hex = 64%nat
     /\ forallb is_hex hex = true)
  /\ List.length (sha256_prefixed data) = 71%nat
  /\ forall obj h, hash_json obj = Ok h -> List.length h = 71%nat.
Proof.
  assert (A : forall data, List.length (sha256_hex data) = 64%nat
                           /\ forallb is_hex (sha256_hex data) = true).
  { intros x. unfold sha256_hex.
    destruct (digest_octets x) as [L F].
    destruct (hex_of_octets_spec _ F) as [L' F']. rewrite L' , L. auto. }
  assert (B : forall data, List.length (sha256_prefixed data) = 71%nat).
  { intros x. unfold sha256_prefixed. rewrite length_app.
    rewrite (proj1 (A x)). reflexivity. }
  split; [|split].
  - exists (sha256_hex data). split; [reflexivity | apply A].
  - apply B.
  - intros obj h. unfold hash_json.
    destruct (canonical_json_bytes obj); cbn [bind]; [|discriminate].
    intros H. injection H as <-. apply B.
Qed.

(** ** The canonical form *)

Lemma to_N_byte_of n : (n < 256)%N -> Byte.to_N (byte_of n) = n.
Proof.
  intros H. unfold byte_of. destruct (Byte.of_N n) as [b|] eqn:E.
  - now apply Byte.to_of_N.
  - apply Byte.of_N_None_iff in E. lia.
Qed.

Lemma encodable_bounds c :
  encodable c = true <->
  (c < 1114112 /\ ~ (55296 <= c <= 57343))%N.
Proof.
  unfold encodable, is_surrogate.
  rewrite andb_true_iff, negb_true_iff, andb_false_iff, N.ltb_lt,
    !N.leb_gt. lia.
Qed.

Ltac div_lia := zify; Z.to_euclidean_division_equations; lia.

Lemma utf8_char_ok c :
  encodable c = true ->
  exists b, utf8_char c = Ok b
            /\ ((32 <= c)%N -> Forall (fun x => (32 <= Byte.to_N x)%N) b).
Proof.
  intros H. apply encodable_bounds in H as [H1 H2]. unfold utf8_char.
  destruct (c <? 128)%N eqn:E1.
  { apply N.ltb_lt in E1. eexists. split; [reflexivity|].
    intros H. repeat constructor. rewrite to_N_byte_of; lia. }
  apply N.ltb_ge in E1.
  destruct (c <? 2048)%N eqn:E2.
  { apply N.ltb_lt in E2. eexists. split; [reflexivity|].
    intros _. repeat constructor; rewrite to_N_byte_of; div_lia. }
  apply N.ltb_ge in E2.
  destruct ((55296 <=? c) && (c <=? 57343))%N eqn:E3.
  { apply andb_true_iff in E3 as [A B].
    apply N.leb_le in A, B. lia. }
  destruct (c <? 65536)%N eqn:E4.
  { apply N.ltb_lt in E4. eexists. split; [reflexivity|].
    intros _. repeat constructor; rewrite to_N_byte_of; div_lia. }
  apply N.ltb_ge in E4.
  destruct (c <? 1114112)%N eqn:E5.
  { apply N.ltb_lt in E5. eexists. split; [reflexivity|].
    intros _. repeat constructor; rewrite to_N_byte_of; div_lia. }
  apply N.ltb_ge in E5. lia.
Qed.

Lemma utf8_char_inv c b : utf8_char c = Ok b -> encodable c = true.
Proof.
  unfold utf8_char. intros H. apply encodable_bounds.
  destruct (c <? 128)%N eqn:E1; [apply N.ltb_lt in E1; lia|].
  destruct (c <? 2048)%N eqn:E2; [apply N.ltb_lt in E2; lia|].
  destruct ((55296 <=? c) && (c <=? 57343))%N eqn:E3; [discriminate|].
  apply andb_false_iff in E3. rewrite !N.leb_gt in E3.
  destruct (c <? 65536)%N eqn:E4; [apply N.ltb_lt in E4; lia|].
  destruct (c <? 1114112)%N eqn:E5; [apply N.ltb_lt in E5; lia|].
  discriminate.
Qed.

Lemma utf8_encode_ok s :
  forallb encodable s = true ->
  exists b, utf8_encode s = Ok b
            /\ (forallb plain s = true ->
                Forall (fun x => (32 <= Byte.to_N x)%N) b).
Proof.
  induction s as [|c s IH]; simpl; intros H.
  - exists []. split; [reflexivity | constructor].
  - apply andb_true_iff in H as [Hc Hs].
    destruct (utf8_char_ok c Hc) as (b & -> & Fb).
    destruct (IH Hs) as (bs & -> & Fbs). cbn [bind].
    eexists. split; [reflexivity|]. intros P.
    apply andb_true_iff in P as [Pc Ps].
    apply Forall_app. split; [|now apply Fbs].
    apply Fb. unfold plain in Pc. apply andb_true_iff in Pc as [Pc _].
    now apply N.leb_le.
Qed.

Lemma utf8_encode_inv s b : utf8_encode s = Ok b -> forallb encodable s = true.
Proof.
  revert b. induction s as [|c s IH]; simpl; intros b; [reflexivity|].
  destruct (utf8_char c) as [x|] eqn:E; cbn [bind]; [|discriminate].
  destruct (utf8_encode s) as [y|]; cbn [bind]; [|discriminate].
  intros _. rewrite (utf8_char_inv _ _ E). simpl. now apply (IH y).
Qed.

Lemma plain_encodable s : forallb plain s = true -> forallb encodable s = true.
Proof.
  induction s as [|c s IH]; simpl; [reflexivity|].
  intros H. apply andb_true_iff in H as [Hc Hs].
  unfold plain in Hc. apply andb_true_iff in Hc as [_ Hc].
  now rewrite Hc, IH.
Qed.

Lemma is_hex_plain c : is_hex c = true -> plain c = true.
Proof.
  intros H. unfold plain, encodable. rewrite (is_hex_not_surrogate _ H).
  unfold is_hex in H.
  apply orb_true_iff in H as [H | H]; apply andb_true_iff in H as [A B];
    apply N.leb_le in A, B; simpl; rewrite andb_true_r;
    apply andb_true_iff; split; [apply N.leb_le | apply N.ltb_lt
                                | apply N.leb_le | apply N.ltb_lt]; lia.
Qed.

Lemma digit_plain n : 0 <= n -> plain (Z.to_N (48 + n mod 10)) = true.
Proof.
  intros H. apply is_hex_plain. unfold is_hex.
  apply orb_true_iff. left. apply andb_true_iff.
  pose proof (Z.mod_pos_bound n 10 ltac:(lia)).
  split; apply N.leb_le; lia.
Qed.

Lemma dec_digits_plain fuel n acc :
  0 <= n -> forallb plain acc = true ->
  forallb plain (dec_digits fuel n acc) = true.
Proof.
  revert n acc. induction fuel as [|f IH]; simpl; intros n acc Hn Ha;
    [exact Ha|].
  assert (A : forallb plain (Z.to_N (48 + n mod 10) :: acc) = true)
    by (cbn [forallb]; now rewrite digit_plain, Ha).
  destruct (n <? 10); [exact A|].
  apply IH; [apply Z.div_pos; lia | exact A].
Qed.

Lemma str_of_int_plain z : forallb plain (str_of_int z) = true.
Proof.
  unfold str_of_int. destruct (z <? 0) eqn:E.
  - apply Z.ltb_lt in E. cbn [forallb]. change (plain 45) with true.
    cbn [andb]. apply dec_digits_plain; [lia | reflexivity].
  - apply Z.ltb_ge in E. apply dec_digits_plain; [lia | reflexivity].
Qed.

Lemma forallb_firstn {A} (f : A -> bool) n l :
  forallb f l = true -> forallb f (firstn n l) = true.
Proof.
  revert l. induction n as [|n IH]; intros [|x l]; simpl; auto.
  intros H. apply andb_true_iff in H as [-> H]. now apply IH.
Qed.

Lemma forallb_skipn {A} (f : A -> bool) n l :
  forallb f l = true -> forallb f (skipn n l) = true.
Proof.
  revert l. induction n as [|n IH]; intros [|x l]; simpl; auto.
  intros H. apply andb_true_iff in H as [_ H]. now apply IH.
Qed.

Lemma zeros_plain n : forallb plain (PyFloat.zeros n) = true.
Proof.
  unfold PyFloat.zeros. induction (Z.to_nat n) as [|k IH]; simpl;
    [reflexivity | exact IH].
Qed.

Lemma format_short_plain digits decpt :
  forallb plain digits = true ->
  forallb plain (PyFloat.format_short digits decpt) = true.
Proof.
  intros H. unfold PyFloat.format_short.
  destruct ((decpt <=? -4) || (16 <? decpt)).
  - rewrite !forallb_app.
    assert (M : forallb plain match digits with
                              | [] => []
                              | [d0] => [d0]
                              | d0 :: (_ :: _) as rest => d0 :: 46%N :: rest
                              end = true).
    { destruct digits as [|d0 [|d1 r]]; simpl in *; auto. }
    rewrite M. simpl.
    destruct (decpt - 1 <? 0), (Z.abs (decpt - 1) <? 10); simpl;
      apply str_of_int_plain.
  - destruct (decpt <=? 0).
    + simpl. rewrite forallb_app, zeros_plain. exact H.
    + destruct (Z.of_nat (List.length digits) <=? decpt).
      * rewrite !forallb_app, H, zeros_plain. reflexivity.
      * rewrite !forallb_app, forallb_firstn, forallb_skipn by exact H.
        reflexivity.
Qed.

Lemma repr_plain f : forallb plain (PyFloat.repr f) = true.
Proof.
  destruct f as [s|s| |s m e]; try (destruct s; reflexivity);
    [reflexivity|].
  unfold PyFloat.repr.
  destruct (PyFloat.shortest _ _ _ _ _ _ _) as [c0 sc0].
  destruct (PyFloat.strip_zeros _ _ _) as [c sc].
  rewrite forallb_app, format_short_plain by apply str_of_int_plain.
  destruct s; reflexivity.
Qed.

Lemma encode_float_plain f : forallb plain (encode_float f) = true.
Proof.
  destruct f as [s|s| |s m e]; try (destruct s; reflexivity);
    try reflexivity;
    apply (repr_plain (S754_finite s m e)).
Qed.

Lemma hex4_plain c : (c < 32)%N -> forallb plain (hex4 c) = true.
Proof.
  intros H. unfold hex4. simpl.
  rewrite !is_hex_plain; [reflexivity | | | |]; apply hex_digit_is_hex.
  - apply Z.mod_pos_bound. lia.
  - apply Z.mod_pos_bound. lia.
  - apply Z.mod_pos_bound. lia.
  - split; [apply Z.div_pos; lia | apply Z.div_lt_upper_bound; lia].
Qed.

Lemma escape_char_plain c :
  encodable c = true -> forallb plain (escape_char c) = true.
Proof.
  intros H. unfold escape_char.
  destruct (c =? 34)%N; [reflexivity|].
  destruct (c =? 92)%N; [reflexivity|].
  destruct (c =? 10)%N; [reflexivity|].
  destruct (c =? 13)%N; [reflexivity|].
  destruct (c =? 9)%N; [reflexivity|].
  destruct (c =? 8)%N; [reflexivity|].
  destruct (c =? 12)%N; [reflexivity|].
  destruct (c <? 32)%N eqn:E.
  - apply N.ltb_lt in E. rewrite forallb_app, hex4_plain by exact E.
    reflexivity.
  - simpl. unfold plain. rewrite H. apply N.ltb_ge, N.leb_le in E.
    now rewrite E.
Qed.

Lemma encode_str_plain s :
  forallb encodable s = true -> forallb plain (encode_str s) = true.
Proof.
  intros H. unfold encode_str. rewrite !forallb_app. simpl.
  rewrite andb_true_r.
  induction s as [|c s IH]; simpl; [reflexivity|].
  simpl in H. apply andb_true_iff in H as [Hc Hs].
  now rewrite forallb_app, escape_char_plain, IH.
Qed.

Lemma join_forallb (f : N -> bool) sep l :
  forallb f sep = true -> Forall (fun x => forallb f x = true) l ->
  forallb f (join sep l) = true.
Proof.
  intros Hs. induction 1 as [|x l Hx Hl IH]; [reflexivity|].
  destruct l as [|y l]; [exact Hx|].
  change (join sep (x :: y :: l)) with (x ++ sep ++ join sep (y :: l)).
  now rewrite !forallb_app, Hx, Hs, IH.
Qed.

Lemma dumps_plain v : text_ok v -> forallb plain (dumps v) = true.
Proof.
  induction v as [|b|z|f|s|l IH|d IH] using json_nested_ind; intros T.
  - reflexivity.
  - destruct b; reflexivity.
  - apply str_of_int_plain.
  - apply encode_float_plain.
  - inversion T; subst. now apply encode_str_plain.
  - inversion T as [| | | | |l' F|]; subst.
    rewrite dumps_list, !forallb_app. simpl. rewrite andb_true_r.
    apply join_forallb; [reflexivity|].
    apply Forall_map. rewrite Forall_forall in *. intros x Hx.
    apply (IH x Hx), (F x Hx).
  - inversion T as [| | | | | |d' F]; subst.
    rewrite dumps_dict, !forallb_app. simpl. rewrite andb_true_r.
    apply join_forallb; [reflexivity|].
    apply Forall_map.
    eapply Permutation_Forall; [apply sort_perm|].
    apply Forall_map. rewrite Forall_forall in *. intros [k x] Hx.
    destruct (F _ Hx) as [Fk Fx]. specialize (IH _ Hx).
    unfold encode_item, encode_entry. cbn [fst snd] in *.
    rewrite !forallb_app, encode_str_plain by exact Fk.
    cbn [forallb andb]. change (plain 58) with true. cbn [andb].
    now apply IH.
Qed.

Lemma escape_char_kept c : encodable c = false -> escape_char c = [c].
Proof.
  intros H. unfold escape_char.
  assert (B : (55296 <= c)%N).
  { destruct (N.le_gt_cases 55296 c) as [L | G]; [exact L|].
    assert (encodable c = true) by (apply encodable_bounds; lia).
    congruence. }
  repeat match goal with
         | |- context [(c =? ?n)%N] =>
             destruct (N.eqb_spec c n) as [Q | _]; [lia|]
         end.
  destruct (N.ltb_spec c 32) as [Q | _]; [lia | reflexivity].
Qed.

Lemma escaped_inv s :
  forallb encodable (flat_map escape_char s) = true ->
  forallb encodable s = true.
Proof.
  induction s as [|c s IH]; simpl; [reflexivity|].
  rewrite forallb_app. intros H. apply andb_true_iff in H as [Hc Hs].
  rewrite (IH Hs), andb_true_r.
  destruct (encodable c) eqn:E; [reflexivity|].
  rewrite (escape_char_kept _ E) in Hc. simpl in Hc. now rewrite E in Hc.
Qed.

Lemma encode_str_inv s :
  forallb encodable (encode_str s) = true -> forallb encodable s = true.
Proof.
  unfold encode_str. rewrite !forallb_app. intros H.
  apply andb_true_iff in H as [_ H]. apply andb_true_iff in H as [H _].
  now apply escaped_inv.
Qed.

Lemma join_inv (f : N -> bool) sep l :
  forallb f (join sep l) = true -> Forall (fun x => forallb f x = true) l.
Proof.
  induction l as [|x l IH]; [constructor|].
  destruct l as [|y l]; [intros H; repeat constructor; exact H|].
  change (join sep (x :: y :: l)) with (x ++ sep ++ join sep (y :: l)).
  rewrite !forallb_app. intros H.
  apply andb_true_iff in H as [Hx H]. apply andb_true_iff in H as [_ H].
  constructor; [exact Hx | now apply IH].
Qed.

Lemma dumps_inv v : forallb encodable (dumps v) = true -> text_ok v.
Proof.
  induction v as [|b|z|f|s|l IH|d IH] using json_nested_ind; intros T;
    try constructor.
  - now apply encode_str_inv.
  - rewrite dumps_list, !forallb_app in T.
    apply andb_true_iff in T as [_ T]. apply andb_true_iff in T as [T _].
    apply join_inv in T. rewrite Forall_map in T.
    rewrite Forall_forall in *. intros x Hx. apply (IH x Hx), (T x Hx).
  - rewrite dumps_dict, !forallb_app in T.
    apply andb_true_iff in T as [_ T]. apply andb_true_iff in T as [T _].
    apply join_inv in T. rewrite Forall_map in T.
    eapply Permutation_Forall in T; [|symmetry; apply sort_perm].
    rewrite Forall_map in T.
    rewrite Forall_forall in *. intros [k x] Hx.
    specialize (T _ Hx). specialize (IH _ Hx).
    unfold encode_item, encode_entry in T. cbn [fst snd] in *.
    rewrite !forallb_app in T.
    apply andb_true_iff in T as [Tk T]. apply andb_true_iff in T as [_ T].
    split; [now apply encode_str_inv | now apply IH].
Qed.

Lemma utf8_encode_raises s e : utf8_encode s = Raise e -> e = UnicodeError.
Proof.
  induction s as [|c s IH]; simpl; [discriminate|].
  destruct (utf8_char c) as [x|e'] eqn:E; cbn [bind].
  - destruct (utf8_encode s) as [y|e'']; cbn [bind]; [discriminate|].
    intros H. injection H as <-. now apply IH.
  - intros H. injection H as <-. unfold utf8_char in E.
    repeat match type of E with
           | (if ?b then _ else _) = _ => destruct b; try discriminate
           end; now injection E as <-.
Qed.

(** X18. [canonical_json_bytes] and [hash_json] return for the values all
    of whose strings, keys among them, hold no lone surrogate, and for no
    other value: there the encoding to UTF-8 raises a Unicode error, and
    nothing else is ever raised. *)
Theorem canonical_json_bytes_defined v :
  (text_ok v <-> exists b, canonical_json_bytes v = Ok b)
  /\ (text_ok v <-> exists h, hash_json v = Ok h)
  /\ (forall e, canonical_json_bytes v = Raise e -> e = UnicodeError).
Proof.
  assert (A : text_ok v <-> exists b, canonical_json_bytes v = Ok b).
  { unfold canonical_json_bytes. split.
    - intros T. apply dumps_plain, plain_encodable, utf8_encode_ok in T
        as (b & E & _). now exists b.
    - intros (b & E). apply utf8_encode_inv in E. now apply dumps_inv. }
  split; [exact A|]. split.
  - rewrite A. unfold hash_json. split.
    + intros (b & ->). cbn [bind]. eauto.
    + destruct (canonical_json_bytes v) as [b|]; cbn [bind]; [eauto|].
      intros (h & H). discriminate.
  - intros e. apply utf8_encode_raises.
Qed.

(** X19. The canonical form of a value is one line: it holds no byte below
    0x20, so no line feed and no other control character, whatever the
    strings of the value are. *)
Theorem canonical_form_is_one_line v b :
  canonical_json_bytes v = Ok b ->
  Forall (fun x => (32 <= Byte.to_N x)%N) b /\ ~ In x0a b.
Proof.
  intros E.
  assert (F : Forall (fun x => (32 <= Byte.to_N x)%N) b).
  { assert (T : text_ok v).
    { apply dumps_inv. unfold canonical_json_bytes in E.
      now apply utf8_encode_inv in E. }
    apply dumps_plain in T.
    destruct (utf8_encode_ok _ (plain_encodable _ T)) as (b' & E' & F).
    unfold canonical_json_bytes in E. rewrite E in E'. injection E' as <-.
    now apply F. }
  split; [exact F|]. intros I. rewrite Forall_forall in F.
  specialize (F _ I). vm_compute in F. now apply F.
Qed.

Lemma canonical_form_is_one_line_witness :
  canonical_json_bytes (JStr [97; 10; 98]%N)
  = Ok [x22; x61; x5c; x6e; x62; x22]
  /\ ~ In x0a [x22; x61; x5c; x6e; x62; x22].
Proof.
  assert (E : canonical_json_bytes (JStr [97; 10; 98]%N)
              = Ok [x22; x61; x5c; x6e; x62; x22]) by reflexivity.
  split; [exact E|].
  exact (proj2 (canonical_form_is_one_line _ _ E)).
Defined.

Ltac split_cmp :=
  match goal with
  | |- context [(?a <? ?b)%N] =>
      destruct (N.ltb_spec a b); try (exfalso; div_lia)
  | |- context [(?a <=? ?b)%N] =>
      destruct (N.leb_spec a b); try (exfalso; div_lia)
  | |- context [(?a =? ?b)%N] =>
      destruct (N.eqb_spec a b); try (exfalso; div_lia)
  end.

(** The forms of [utf8_char], by the number of bytes. *)
Lemma utf8_char_cases c b :
  utf8_char c = Ok b ->
  ((c < 128)%N /\ b = [byte_of c])
  \/ ((128 <= c < 2048)%N
      /\ b = [byte_of (192 + c / 64); byte_of (128 + c mod 64)]%N)
  \/ ((2048 <= c < 65536)%N /\ ~ (55296 <= c <= 57343)%N
      /\ b = [byte_of (224 + c / 4096); byte_of (128 + (c / 64) mod 64);
              byte_of (128 + c mod 64)]%N)
  \/ ((65536 <= c < 1114112)%N
      /\ b = [byte_of (240 + c / 262144); byte_of (128 + (c / 4096) mod 64);
              byte_of (128 + (c / 64) mod 64); byte_of (128 + c mod 64)]%N).
Proof.
  unfold utf8_char.
  destruct (N.ltb_spec c 128); [intros E; left; split; [lia | congruence]|].
  destruct (N.ltb_spec c 2048);
    [intros E; right; left; split; [lia | congruence]|].
  destruct ((55296 <=? c) && (c <=? 57343))%N eqn:E3; [discriminate|].
  assert (NS : ~ (55296 <= c <= 57343)%N).
  { apply andb_false_iff in E3. rewrite !N.leb_gt in E3. lia. }
  destruct (N.ltb_spec c 65536);
    [intros E; right; right; left; split; [lia | split; [exact NS | congruence]]|].
  destruct (N.ltb_spec c 1114112); [|discriminate].
  intros E; right; right; right; split; [lia | congruence].
Qed.

Lemma utf8_decode_cons f b0 r0 :
  utf8_decode (S f) (b0 :: r0)
  = let n0 := Byte.to_N b0 in
    if (n0 <? 128)%N then
      s <- utf8_decode f r0 ;; Ok (n0 :: s)
    else if in_range 194 223 b0 then
      match r0 with
      | b1 :: r1 =>
          match cont b1 with
          | Some c1 =>
              s <- utf8_decode f r1 ;; Ok (((n0 - 192) * 64 + c1)%N :: s)
          | None => Raise UnicodeError
          end
      | _ => Raise UnicodeError
      end
    else if in_range 224 239 b0 then
      match r0 with
      | b1 :: b2 :: r2 =>
          let ok1 :=
            if (n0 =? 224)%N then in_range 160 191 b1
            else if (n0 =? 237)%N then in_range 128 159 b1
            else in_range 128 191 b1 in
          match ok1, cont b1, cont b2 with
          | true, Some c1, Some c2 =>
              s <- utf8_decode f r2 ;;
              Ok (((n0 - 224) * 4096 + c1 * 64 + c2)%N :: s)
          | _, _, _ => Raise UnicodeError
          end
      | _ => Raise UnicodeError
      end
    else if in_range 240 244 b0 then
      match r0 with
      | b1 :: b2 :: b3 :: r3 =>
          let ok1 :=
            if (n0 =? 240)%N then in_range 144 191 b1
            else if (n0 =? 244)%N then in_range 128 143 b1
            else in_range 128 191 b1 in
          match ok1, cont b1, cont b2, cont b3 with
          | true, Some c1, Some c2, Some c3 =>
              s <- utf8_decode f r3 ;;
              Ok (((n0 - 240) * 262144 + c1 * 4096 + c2 * 64 + c3)%N :: s)
          | _, _, _, _ => Raise UnicodeError
          end
      | _ => Raise UnicodeError
      end
    else Raise UnicodeError.
Proof. reflexivity. Qed.

Lemma utf8_decode_char c b :
  utf8_char c = Ok b ->
  forall f rest,
    utf8_decode (S f) (b ++ rest) = (s <- utf8_decode f rest ;; Ok (c :: s)).
Proof.
  intros E f rest.
  apply utf8_char_cases in E
    as [[B ->] | [[B ->] | [(B & B' & ->) | [B ->]]]];
    cbn [app]; rewrite utf8_decode_cons; cbv zeta; unfold in_range, cont;
    rewrite !to_N_byte_of by div_lia.
  - split_cmp. reflexivity.
  - repeat split_cmp; cbn [andb];
      replace ((192 + c / 64 - 192) * 64 + (128 + c mod 64 - 128))%N with c
        by div_lia;
      reflexivity.
  - repeat split_cmp; cbn [andb];
      replace ((224 + c / 4096 - 224) * 4096
               + (128 + (c / 64) mod 64 - 128) * 64
               + (128 + c mod 64 - 128))%N with c by div_lia;
      reflexivity.
  - repeat split_cmp; cbn [andb];
      replace ((240 + c / 262144 - 240) * 262144
               + (128 + (c / 4096) mod 64 - 128) * 4096
               + (128 + (c / 64) mod 64 - 128) * 64
               + (128 + c mod 64 - 128))%N with c by div_lia;
      reflexivity.
Qed.

Lemma utf8_decode_encode s :
  forall bs, utf8_encode s = Ok bs ->
  forall fuel, (List.length s <= fuel)%nat -> utf8_decode fuel bs = Ok s.
Proof.
  induction s as [|c s IH]; simpl; intros bs E fuel L.
  - injection E as <-. destruct fuel; reflexivity.
  - destruct (utf8_char c) as [b|] eqn:Ec; cbn [bind] in E; [|discriminate].
    destruct (utf8_encode s) as [bs'|] eqn:Es; cbn [bind] in E; [|discriminate].
    injection E as <-.
    destruct fuel as [|f]; [lia|].
    rewrite (utf8_decode_char _ _ Ec).
    rewrite (IH bs' eq_refl f) by lia. reflexivity.
Qed.

Lemma utf8_encode_length s bs :
  utf8_encode s = Ok bs -> (List.length s <= List.length bs)%nat.
Proof.
  revert bs. induction s as [|c s IH]; simpl; intros bs E; [lia|].
  destruct (utf8_char c) as [b|] eqn:Ec; cbn [bind] in E; [|discriminate].
  destruct (utf8_encode s) as [bs'|] eqn:Es; cbn [bind] in E; [|discriminate].
  injection E as <-. rewrite length_app. specialize (IH bs' eq_refl).
  apply utf8_char_cases in Ec
    as [[_ ->] | [[_ ->] | [(_ & _ & ->) | [_ ->]]]]; simpl; lia.
Qed.

(** X20. The canonical bytes of a value are well-formed UTF-8: decoded the
    way the gate decodes a request body, they give back the JSON text that
    was encoded, code point for code point. *)
Theorem canonical_bytes_decode v b :
  canonical_json_bytes v = Ok b -> decode_utf8 b = Ok (dumps v).
Proof.
  unfold canonical_json_bytes, decode_utf8. intros E.
  apply (utf8_decode_encode _ _ E). now apply utf8_encode_length.
Qed.

Lemma canonical_bytes_decode_witness :
  decode_utf8 [x22; xc3; xa9; x22] = Ok [34; 233; 34]%N.
Proof.
  exact (canonical_bytes_decode (JStr [233%N]) [x22; xc3; xa9; x22] eq_refl).
Defined.

(** ** The gate as a whole *)

(** X21. The reason a [RuntimeError] of the profile loader stands for is
    the reason code whose value is the first argument of the error, and
    PROFILE_PARSE_ERROR when there is no argument or it is not the value of
    a reason code. *)
Theorem load_error_reason :
  (forall rc rest, reason_of_load_error (reason_value rc :: rest) = rc)
  /\ reason_of_load_error [] = PROFILE_PARSE_ERROR
  /\ (forall a rest,
        (forall rc, a <> reason_value rc) ->
        reason_of_load_error (a :: rest) = PROFILE_PARSE_ERROR).
Proof.
  split; [|split].
  - intros rc rest. unfold reason_of_load_error.
    destruct rc; vm_compute; reflexivity.
  - vm_compute. reflexivity.
  - intros a rest H. unfold reason_of_load_error.
    destruct (reason_of_value a) as [rc|] eqn:E; [|reflexivity].
    unfold reason_of_value in E.
    apply find_some in E as [_ E]. apply str_eqb_eq in E.
    destruct (H rc). now subst.
Qed.




(** *** The audit lines *)

(** The version that the audit record takes from the dump of a runtime
    identity is its [version]. *)
Lemma record_version rt :
  RuntimeMeta.version rt <> [] ->
  get_or (dump_runtime rt) "runtime_version"
    (get_or (dump_runtime rt) "version"
       (get_or (dump_runtime rt) "app_version"
          (get_or (dump_runtime rt) "runtime" (JStr (py "0")))))
  = JStr (RuntimeMeta.version rt).
Proof.
  intros H. unfold get_or, dump_runtime.
  change (dict_get _ (py "runtime_version")) with (@None json).
  change (dict_get [(py "name", JStr (RuntimeMeta.name rt));
                    (py "version", JStr (RuntimeMeta.version rt));
                    (py "build", JStr (RuntimeMeta.build rt))] (py "version"))
    with (Some (JStr (RuntimeMeta.version rt))).
  cbv iota. unfold truthy.
  destruct (RuntimeMeta.version rt); [contradiction | reflexivity].
Qed.

(** What [log_and_return] does: it reads the clock twice, computes the
    provenance id of the record, and appends the record. *)
Lemma log_and_return_cases env d h t fr r fr' :
  log_and_return env d h t fr = (r, fr') ->
  locals fr' = locals fr
  /\ ((exists e,
         r = Raise e
         /\ audit_log (world fr') = audit_log (world fr)
         /\ (write_fails env (attempts (world fr)) = false ->
             attempts (world fr') = attempts (world fr)))
      \/ (r = Ok d
          /\ write_fails env (attempts (world fr)) = false
          /\ exists record,
               audit_log (world fr') = audit_log (world fr) ++ [JDict record]
               /\ dict_get record (py "seq")
                  = Some (JInt (Z.of_nat (List.length (audit_log (world fr)))))
               /\ dict_get record (py "request_id") = Some (JStr (request_id fr))
               /\ dict_get record (py "request_hash") = Some (JStr h)
               /\ dict_get record (py "decision_type")
                  = Some (JStr (decision_type_value
                                  (ExecutionDecision.decision_type d)))
               /\ dict_get record (py "reason_code")
                  = Some (JStr (reason_value (ExecutionDecision.reason_code d)))
               /\ dict_get record (py "approved_call") = Some JNull
               /\ dict_get record (py "profile_id") = Some (JStr (profile_id fr))
               /\ dict_get record (py "profile_version")
                  = Some (JStr (profile_version fr))
               /\ dict_get record (py "profile_ref_hash")
                  = Some (JStr (profile_ref_hash fr)))).
Proof.
  unfold log_and_return, _audit_record_from_denied.
  rewrite !bindM_utc, !bindM_get, !bindM_assoc, !bindM_utc, !bindM_assoc.
  cbn [profile_ref_hash request_id profile_id profile_version set_world].
  destruct (provenance_id_from_inputs h (profile_ref_hash fr) _) as [prov|e].
  - rewrite !bindM_lift_ok, !bindM_ret.
    destruct (write_fails env (attempts (world fr))) eqn:W.
    + unfold bindM, append_audit_record.
      cbn [world set_world attempts now snd fst]. rewrite W.
      intros H. injection H as <- <-. split; [reflexivity|].
      left. exists OSError. split; [reflexivity|]. split; [reflexivity|].
      discriminate.
    + rewrite bindM_append_ok by exact W. unfold ret.
      intros H. injection H as <- <-. split; [reflexivity|].
      right. split; [reflexivity|]. split; [reflexivity|].
      eexists. split; [reflexivity|].
      repeat split; try reflexivity.
      * destruct (ExecutionDecision.decision_type d); reflexivity.
      * destruct (ExecutionDecision.reason_code d); reflexivity.
  - rewrite !bindM_lift_raise.
    intros H. injection H as <- <-. split; [reflexivity|].
    left. exists e. repeat split; reflexivity.
Qed.


Lemma decide_world env raw fr r fr' :
  decide env raw fr = (r, fr') -> world fr' = world fr.
Proof.
  intros H. apply decide_frame in H. unfold frame_after in H.
  destruct (json_loads raw) as [obj|]; [|now subst].
  destruct (ExecutionRequest.model_validate obj) as [req|]; [|now subst].
  destruct H as [-> | (pm & ph & _ & _ & ->)]; reflexivity.
Qed.

Lemma Decided_fields env raw fr d h fr' :
  Decided env raw fr d h fr' ->
  ExecutionDecision.request_hash d = h
  /\ ExecutionDecision.profile d
     = DecisionProfileInfo.mk (profile_id fr') (profile_version fr')
         (profile_ref_hash fr').
Proof.
  intros [e EL Hh Hf D | obj b EL EV EB Hh Hf D
         | obj req c EL EV EH EC NE Hf D
         | obj req args EL EV EH EC ELP Hf D
         | obj req pm ph EL EV EH EC ELP Hf D];
    try (apply deny_decision_inv in D as (prov & _ & ->); auto).
  unfold enforce_result in D.
  destruct (find_tool_permit _ _) as [permit|];
    [destruct (require_controls req permit);
     [|destruct (enforce_constraints req permit)]|];
    try (apply deny_decision_inv in D as (prov & _ & ->); auto).
  apply allow_decision_inv in D as (prov & _ & ->). auto.
Qed.

Lemma logged env d h t fr fr' :
  log_and_return env d h t fr = (Ok d, fr') ->
  ExecutionDecision.request_hash d = h ->
  ExecutionDecision.profile d
  = DecisionProfileInfo.mk (profile_id fr) (profile_version fr)
      (profile_ref_hash fr) ->
  exists record,
    audit_log (world fr') = audit_log (world fr) ++ [JDict record]
    /\ records record d (List.length (audit_log (world fr))).
Proof.
  intros H Hh Hp.
  apply log_and_return_cases in H
    as [_ [(e & He & _) | (_ & _ & record & A & R1 & R2 & R3 & R4 & R5 & R6
                           & R7 & R8 & R9)]]; [discriminate|].
  exists record. split; [exact A|]. unfold records. rewrite Hp, Hh.
  cbn [DecisionProfileInfo.id DecisionProfileInfo.version
       DecisionProfileInfo.profile_ref_hash].
  repeat split; assumption.
Qed.

Lemma except_logged env raw t fr d fr' :
  execute_except env raw t fr = (Ok d, fr') ->
  exists record,
    audit_log (world fr') = audit_log (world fr) ++ [JDict record]
    /\ records record d (List.length (audit_log (world fr))).
Proof.
  unfold execute_except. rewrite bindM_deny.
  destruct (deny_decision _ _ _ _ _ _) as [d0|] eqn:D;
    [rewrite bindM_lift_ok | rewrite bindM_lift_raise; discriminate].
  intros H.
  assert (d = d0) as ->.
  { apply log_and_return_spec in H as [_ H]. now apply H. }
  apply deny_decision_inv in D as (prov & _ & D).
  apply (logged _ _ _ _ _ _ H); rewrite D; reflexivity.
Qed.

(** X23. No decision without its audit record: when [execute] returns a
    decision, the run has added exactly one record to the end of the audit
    log, and it is the record of that decision, with the next sequence
    number, the request hash, the decision type, the reason code and the
    profile fields of the decision, and with no approved call, also when
    the decision is ALLOW. A write that failed before has left nothing in
    the log. *)
Theorem decision_is_logged env raw w d w' :
  execute env raw w = (Ok d, w') ->
  exists record,
    audit_log w' = audit_log w ++ [JDict record]
    /\ records record d (List.length (audit_log w)).
Proof.
  unfold execute. destruct (now env w) as [t w1] eqn:EN.
  assert (A1 : audit_log w1 = audit_log w)
    by (unfold now in EN; injection EN as _ <-; reflexivity).
  destruct fallback_profile_ref_hash as [h0|]; [|discriminate].
  fold (frame0 w1 h0). unfold try_except. rewrite execute_try_decide.
  unfold bindM.
  destruct (decide env raw (frame0 w1 h0)) as [[[d0 h]|e] fr1] eqn:ED;
    pose proof (decide_world _ _ _ _ _ ED) as W1; cbn [frame0 world] in W1.
  - apply decide_ok, Decided_fields in ED as [Hh Hp]. cbn [fst snd].
    destruct (log_and_return env d0 h t fr1) as [[d1|e] fr2] eqn:EL.
    + assert (d1 = d0) as ->.
      { apply log_and_return_spec in EL as [_ EL]. now apply EL. }
      intros H. injection H as <- <-.
      destruct (logged _ _ _ _ _ _ EL Hh Hp) as (record & A & R).
      rewrite W1, A1 in A, R. now exists record.
    + apply log_and_return_cases in EL
        as [_ [(e' & _ & A2 & _) | (Q & _)]]; [|discriminate].
      destruct (execute_except env raw t fr2) as [[d1|] fr3] eqn:EX;
        [|discriminate].
      intros H. injection H as <- <-.
      destruct (except_logged _ _ _ _ _ _ EX) as (record & A & R).
      rewrite A2, W1, A1 in A, R. now exists record.
  - destruct (execute_except env raw t fr1) as [[d1|] fr3] eqn:EX;
      [|discriminate].
    intros H. injection H as <- <-.
    destruct (except_logged _ _ _ _ _ _ EX) as (record & A & R).
    rewrite W1, A1 in A, R. now exists record.
Qed.

Lemma decision_is_logged_witness :
  exists d w' record,
    execute example_env allow_request fresh_world = (Ok d, w')
    /\ ExecutionDecision.decision_type d = ALLOW
    /\ audit_log w' = [JDict record]
    /\ dict_get record (py "approved_call") = Some JNull.
Proof.
  pose proof allow_run_eq as E. unfold allow_run in E.
  match type of E with
  | _ = (Ok ?d, ?w) =>
      destruct (decision_is_logged example_env allow_request fresh_world d w E)
        as (record & A & R); exists d, w, record
  end.
  split; [exact E|]. split; [reflexivity|]. split; [exact A|].
  apply R.
Defined.

(** *** The gate answers *)

Lemma sound_valid s : sound_str s -> valid_str1 s = true.
Proof.
  intros [N F]. destruct s as [|c s]; [contradiction|].
  unfold valid_str1. apply negb_true_iff.
  destruct (existsb is_surrogate (c :: s)) eqn:E; [|reflexivity].
  apply existsb_exists in E as (x & Hx & S).
  rewrite forallb_forall in F. specialize (F x Hx).
  unfold encodable in F. rewrite S in F.
  now rewrite andb_false_r in F.
Qed.

Lemma hex_encodable s : forallb is_hex s = true -> forallb encodable s = true.
Proof.
  induction s as [|c s IH]; simpl; [reflexivity|].
  intros H. apply andb_true_iff in H as [Hc Hs].
  apply is_hex_plain in Hc. unfold plain in Hc.
  apply andb_true_iff in Hc as [_ ->]. now apply IH.
Qed.

Lemma sha256_prefixed_sound data : sound_str (sha256_prefixed data).
Proof.
  unfold sha256_prefixed, sha256_hex. split; [discriminate|].
  rewrite forallb_app. apply andb_true_iff. split; [reflexivity|].
  apply hex_encodable.
  apply hex_of_octets_spec, digest_octets.
Qed.

Lemma hash_json_sound v :
  text_ok v -> exists h, hash_json v = Ok h /\ sound_str h.
Proof.
  intros T. apply dumps_plain, plain_encodable, utf8_encode_ok in T
    as (b & E & _).
  unfold hash_json, canonical_json_bytes. rewrite E. cbn [bind].
  eexists. split; [reflexivity | apply sha256_prefixed_sound].
Qed.

Lemma provenance_sound h prh version :
  sound_str h -> sound_str prh -> sound_str version ->
  exists prov,
    provenance_id_from_inputs h prh (JStr version) = Ok prov
    /\ sound_str prov.
Proof.
  intros [_ Hh] [_ Hp] [_ Hv]. unfold provenance_id_from_inputs.
  apply hash_json_sound. constructor.
  repeat constructor; assumption.
Qed.

Lemma deny_decision_total reason h pid pv prh rt :
  sound_str h -> valid_str1 pid = true -> valid_str1 pv = true ->
  sound_str prh ->
  sound_str (RuntimeMeta.name rt) -> sound_str (RuntimeMeta.version rt) ->
  sound_str (RuntimeMeta.build rt) ->
  exists prov,
    deny_decision reason h pid pv prh rt
    = Ok (ExecutionDecision.mk DENY reason h prov
            (DecisionProfileInfo.mk pid pv prh) rt None).
Proof.
  intros Hh Hi Hv Hp Rn Rv Rb. unfold deny_decision.
  destruct (provenance_sound h prh _ Hh Hp Rv) as (prov & -> & Pv).
  cbn [bind]. exists prov.
  unfold ExecutionDecision.create, ExecutionDecision.fields_ok.
  cbn [ExecutionDecision.request_hash ExecutionDecision.provenance_id
       ExecutionDecision.profile ExecutionDecision.runtime
       ExecutionDecision.approved_call DecisionProfileInfo.id
       DecisionProfileInfo.version DecisionProfileInfo.profile_ref_hash].
  rewrite (sound_valid h Hh), (sound_valid prov Pv), Hi, Hv,
    (sound_valid prh Hp), (sound_valid _ Rn), (sound_valid _ Rv),
    (sound_valid _ Rb).
  reflexivity.
Qed.

Lemma log_and_return_total env d h t fr :
  sound_str h -> sound_str (profile_ref_hash fr) ->
  sound_str (RuntimeMeta.version (ExecutionDecision.runtime d)) ->
  write_fails env (attempts (world fr)) = false ->
  exists fr', log_and_return env d h t fr = (Ok d, fr').
Proof.
  intros Hh Hp Hv W.
  unfold log_and_return, _audit_record_from_denied.
  rewrite !bindM_utc, !bindM_get, !bindM_assoc, !bindM_utc, !bindM_assoc.
  cbn [profile_ref_hash request_id profile_id profile_version set_world].
  rewrite record_version by apply Hv.
  destruct (provenance_sound h (profile_ref_hash fr) _ Hh Hp Hv)
    as (prov & -> & _).
  rewrite !bindM_lift_ok, !bindM_ret.
  rewrite bindM_append_ok by exact W. unfold ret. eauto.
Qed.

Lemma execute_except_total env raw t fr :
  sound_env env -> good_locals fr ->
  write_fails env (attempts (world fr)) = false ->
  exists d fr', execute_except env raw t fr = (Ok d, fr').
Proof.
  intros (Rn & Rv & Rb & _) (Gi & Gv & Gp) W.
  unfold execute_except. rewrite bindM_deny.
  destruct (deny_decision_total INTERNAL_ERROR (sha256_prefixed raw)
              (profile_id fr) (profile_version fr) (profile_ref_hash fr)
              (runtime env) (sha256_prefixed_sound raw) Gi Gv Gp Rn Rv Rb)
    as (prov & ->).
  rewrite bindM_lift_ok.
  destruct (log_and_return_total env
              (ExecutionDecision.mk DENY INTERNAL_ERROR (sha256_prefixed raw)
                 prov
                 (DecisionProfileInfo.mk (profile_id fr) (profile_version fr)
                    (profile_ref_hash fr)) (runtime env) None)
              (sha256_prefixed raw) t fr
              (sha256_prefixed_sound raw) Gp Rv W) as (fr' & ->).
  eauto.
Qed.

Lemma good_locals_eq fr fr' :
  locals fr' = locals fr -> good_locals fr -> good_locals fr'.
Proof.
  intros L. apply locals_eq in L as (_ & L1 & L2 & L3).
  unfold good_locals. now rewrite L1, L2, L3.
Qed.

Lemma frame_after_good env raw h0 w fr :
  sound_env env -> sound_str h0 ->
  frame_after env raw (frame0 w h0) fr ->
  good_locals fr /\ world fr = w.
Proof.
  intros (_ & _ & _ & SL) H0 FA. unfold frame_after in FA.
  assert (G0 : good_locals (frame0 w h0)) by (repeat split; apply H0).
  destruct (json_loads raw) as [obj|]; [|subst; auto].
  destruct (ExecutionRequest.model_validate obj) as [req|] eqn:EV;
    [|subst; auto].
  apply model_validate_inv in EV
    as (d & _ & _ & _ & _ & _ & (mp & _ & Vp) & _).
  apply ProfileRef_inv in Vp as (_ & P1 & P2).
  apply field_str1_inv in P1 as [_ P1], P2 as [_ P2].
  destruct FA as [-> | (pm & ph & _ & ELP & ->)].
  - split; [|reflexivity]. repeat split; try assumption; apply H0.
  - split; [|reflexivity]. apply SL in ELP.
    repeat split; try assumption; apply ELP.
Qed.

(** X24. The gate answers every body: in surroundings where the runtime
    identity is valid and the loader gives sound reference hashes, a run
    whose first write to the audit file does not fail returns a decision,
    whatever the bytes of the body are, and whatever the loader raises. *)
Theorem gate_always_answers env raw w :
  sound_env env ->
  write_fails env (attempts w) = false ->
  exists d w', execute env raw w = (Ok d, w').
Proof.
  intros SE W. unfold execute. destruct (now env w) as [t w1] eqn:EN.
  assert (A1 : attempts w1 = attempts w)
    by (unfold now in EN; injection EN as _ <-; reflexivity).
  rewrite fallback_value.
  fold (frame0 w1 (sha256_prefixed (raw_of "{}"))).
  unfold try_except. rewrite execute_try_decide. unfold bindM.
  destruct (decide env raw (frame0 w1 _)) as [[[d0 h]|e] fr1] eqn:ED;
    pose proof (frame_after_good _ _ _ _ _ SE (sha256_prefixed_sound _)
                  (decide_frame _ _ _ _ _ ED)) as [G1 W1].
  - cbn [fst snd].
    destruct (log_and_return env d0 h t fr1) as [[d1|e] fr2] eqn:EL;
      [eauto|].
    apply log_and_return_cases in EL
      as [L [(e' & _ & _ & A2) | (Q & _)]]; [|discriminate].
    rewrite W1, A1 in A2. specialize (A2 W).
    destruct (execute_except_total env raw t fr2 SE (good_locals_eq _ _ L G1))
      as (d & fr' & ->); [congruence | eauto].
  - destruct (execute_except_total env raw t fr1 SE G1) as (d & fr' & ->);
      [rewrite W1; congruence | eauto].
Qed.

Lemma example_env_sound : sound_env example_env.
Proof.
  split; [|split; [|split]]; try (split; [discriminate | reflexivity]).
  intros id version pm ph H.
  cbn [load_profile example_env] in H. unfold store_of in H.
  destruct (_ && _); [|discriminate]. injection H as _ <-.
  apply sha256_prefixed_sound.
Qed.

Lemma gate_always_answers_witness :
  exists d w', execute example_env [] fresh_world = (Ok d, w').
Proof.
  apply gate_always_answers; [exact example_env_sound | reflexivity].
Defined.

(** ** The load generator *)

Lemma extras_sum r n :
  0 <= r ->
  fold_right Z.add 0
    (List.map (fun i => if Z.of_nat i <? r then 1 else 0) (seq 0 n))
  = Z.min (Z.of_nat n) r.
Proof.
  intros Hr. induction n as [|n IH]; [simpl; lia|].
  rewrite seq_S, map_app, fold_right_app. cbn [List.map fold_right Nat.add].
  assert (A : forall l a,
             fold_right Z.add a l = fold_right Z.add 0 l + a).
  { induction l as [|x l IHl]; intros a; simpl; [lia|]. rewrite IHl. lia. }
  rewrite A, IH.
  destruct (Z.ltb_spec (Z.of_nat n) r); lia.
Qed.

Lemma shares_sum per r n :
  fold_right Z.add 0
    (List.map (fun i => per + (if Z.of_nat i <? r then 1 else 0)) (seq 0 n))
  = Z.of_nat n * per
    + fold_right Z.add 0
        (List.map (fun i => if Z.of_nat i <? r then 1 else 0) (seq 0 n)).
Proof.
  generalize 0%nat as s. induction n as [|n IH]; intros s; [simpl; lia|].
  cbn [seq List.map fold_right]. rewrite IH. lia.
Qed.

(** X25. The shares of the workers cover the requests: for a positive
    concurrency there is one share for each worker, the shares add up to the
    number of requests asked for, and they differ by one at most; a
    concurrency of zero is a division by zero before any request is sent,
    and a negative one starts no worker. *)
Theorem shares_cover_requests requests concurrency :
  (0 < concurrency ->
   exists shares,
     worker_shares requests concurrency = Some shares
     /\ Z.of_nat (List.length shares) = concurrency
     /\ fold_right Z.add 0 shares = requests
     /\ forall n, In n shares ->
          requests / concurrency <= n <= requests / concurrency + 1)
  /\ worker_shares requests 0 = None
  /\ (concurrency < 0 -> worker_shares requests concurrency = Some []).
Proof.
  split; [|split].
  - intros Hc. unfold worker_shares.
    destruct (Z.eqb_spec concurrency 0); [lia|].
    eexists. split; [reflexivity|]. split; [|split].
    + rewrite length_map, length_seq. lia.
    + pose proof (Z.mod_pos_bound requests concurrency Hc) as B.
      rewrite shares_sum, extras_sum by lia.
      rewrite Z2Nat.id by lia.
      pose proof (Z.div_mod requests concurrency ltac:(lia)). lia.
    + intros x Hx. apply in_map_iff in Hx as (i & <- & _).
      destruct (Z.of_nat i <? requests mod concurrency); lia.
  - reflexivity.
  - intros Hc. unfold worker_shares.
    destruct (Z.eqb_spec concurrency 0); [lia|].
    replace (Z.to_nat concurrency) with 0%nat by lia. reflexivity.
Qed.

Section LoadFacts.

Variable latency : Type.
Variable post : nat -> nat -> outcome * latency.

Lemma worker_steps p l ok fail (lats : list latency) :
  exists ok' fail' lats',
    fold_left (worker_step latency p) l (ok, fail, lats) = (ok', fail', lats')
    /\ ok <= ok' /\ fail <= fail'
    /\ ok' + fail' = ok + fail + Z.of_nat (List.length l)
    /\ List.length lats' = (List.length lats + List.length l)%nat.
Proof.
  revert ok fail lats. induction l as [|k l IH]; intros ok fail lats.
  - exists ok, fail, lats. simpl. repeat split; lia.
  - cbn [fold_left]. unfold worker_step at 2.
    destruct (p k) as [[code|] dt].
    + destruct (code =? 200).
      * destruct (IH (ok + 1) fail (lats ++ [dt]))
          as (ok' & fail' & lats' & -> & H1 & H2 & H3 & H4).
        exists ok', fail', lats'. rewrite length_app in H4.
        cbn [List.length] in *. repeat split; lia.
      * destruct (IH ok (fail + 1) (lats ++ [dt]))
          as (ok' & fail' & lats' & -> & H1 & H2 & H3 & H4).
        exists ok', fail', lats'. rewrite length_app in H4.
        cbn [List.length] in *. repeat split; lia.
    + destruct (IH ok (fail + 1) (lats ++ [dt]))
        as (ok' & fail' & lats' & -> & H1 & H2 & H3 & H4).
      exists ok', fail', lats'. rewrite length_app in H4.
      cbn [List.length] in *. repeat split; lia.
Qed.

Lemma worker_counts p n :
  exists ok fail lats,
    worker latency p n = (ok, fail, lats)
    /\ 0 <= ok /\ 0 <= fail
    /\ ok + fail = Z.max n 0
    /\ Z.of_nat (List.length lats) = Z.max n 0.
Proof.
  unfold worker.
  destruct (worker_steps p (seq 0 (Z.to_nat n)) 0 0 [])
    as (ok & fail & lats & -> & H1 & H2 & H3 & H4).
  exists ok, fail, lats. rewrite length_seq in *. cbn [List.length] in H4.
  repeat split; lia.
Qed.

Lemma totals_count (ps : list (nat * Z)) :
  Forall (fun q => 0 <= snd q) ps ->
  let results := List.map (fun q => worker latency (post (fst q)) (snd q)) ps in
  0 <= fold_right Z.add 0 (List.map (fun r => fst (fst r)) results)
  /\ 0 <= fold_right Z.add 0 (List.map (fun r => snd (fst r)) results)
  /\ fold_right Z.add 0 (List.map (fun r => fst (fst r)) results)
     + fold_right Z.add 0 (List.map (fun r => snd (fst r)) results)
     = fold_right Z.add 0 (List.map snd ps)
  /\ Z.of_nat (List.length (flat_map snd results))
     = fold_right Z.add 0 (List.map snd ps).
Proof.
  induction 1 as [|[i n] ps Hn _ IH]; cbn [List.map fold_right flat_map].
  - simpl. lia.
  - cbn [fst snd] in *.
    destruct (worker_counts (post i) n)
      as (ok & fail & lats & -> & H1 & H2 & H3 & H4).
    cbn [fst snd]. rewrite length_app, Nat2Z.inj_add.
    cbv zeta in IH. lia.
Qed.

Lemma combine_seq_snd (l : list Z) s :
  List.map snd (combine (seq s (List.length l)) l) = l.
Proof.
  revert s. induction l as [|x l IH]; intros s; simpl; [reflexivity|].
  now rewrite IH.
Qed.

Lemma combine_seq_Forall (P : Z -> Prop) (l : list Z) s :
  Forall P l -> Forall (fun q => P (snd q)) (combine (seq s (List.length l)) l).
Proof.
  intros F. revert s. induction F as [|x l Hx _ IH]; intros s; simpl;
    constructor; auto.
Qed.

(** X26. The load generator counts every request once: for a positive
    concurrency and a number of requests that is not negative, the workers
    send that many requests between them, each one is counted either as OK
    (status 200) or as a failure (another status, or an error of the
    client), and one latency is kept for each. *)
Theorem load_counts_every_request requests concurrency :
  0 < concurrency -> 0 <= requests ->
  exists ok fail lats,
    load_totals latency post requests concurrency = Some (ok, fail, lats)
    /\ 0 <= ok /\ 0 <= fail
    /\ ok + fail = requests
    /\ Z.of_nat (List.length lats) = requests.
Proof.
  intros Hc Hr. unfold load_totals.
  assert (E : worker_shares requests concurrency
              = Some (List.map
                        (fun i => requests / concurrency
                                  + (if Z.of_nat i <? requests mod concurrency
                                     then 1 else 0))
                        (seq 0 (Z.to_nat concurrency)))).
  { unfold worker_shares. destruct (Z.eqb_spec concurrency 0); [lia|].
    reflexivity. }
  rewrite E.
  set (shares := List.map _ (seq 0 (Z.to_nat concurrency))).
  assert (S : fold_right Z.add 0 shares = requests).
  { unfold shares.
    pose proof (Z.mod_pos_bound requests concurrency Hc) as B.
    rewrite shares_sum, extras_sum by lia. rewrite Z2Nat.id by lia.
    pose proof (Z.div_mod requests concurrency ltac:(lia)). lia. }
  assert (F : Forall (fun n => 0 <= n) shares).
  { apply Forall_forall. intros x Hx. unfold shares in Hx.
    apply in_map_iff in Hx as (i & <- & _).
    pose proof (Z.div_pos requests concurrency Hr Hc).
    destruct (Z.of_nat i <? requests mod concurrency); lia. }
  destruct (totals_count (combine (seq 0 (List.length shares)) shares)
              (combine_seq_Forall _ _ _ F)) as (T1 & T2 & T3 & T4).
  rewrite combine_seq_snd, S in T3, T4.
  eexists _, _, _. split; [reflexivity|]. auto.
Qed.

End LoadFacts.

Lemma load_counts_every_request_witness :
  exists ok fail lats,
    load_totals unit (fun i k => (Response (if Nat.even k then 200 else 503), tt))
      7 3 = Some (ok, fail, lats)
    /\ ok + fail = 7.
Proof.
  destruct (load_counts_every_request unit
              (fun i k => (Response (if Nat.even k then 200 else 503), tt))
              7 3 ltac:(lia) ltac:(lia))
    as (ok & fail & lats & E & _ & _ & S & _).
  exists ok, fail, lats. auto.
Defined.

(** ** Requests that cannot be hashed *)

Lemma hash_json_text v h : hash_json v = Ok h -> text_ok v.
Proof.
  unfold hash_json, canonical_json_bytes.
  destruct (utf8_encode (dumps v)) as [b|] eqn:E; [|discriminate].
  intros _. apply dumps_inv. now apply utf8_encode_inv in E.
Qed.

(** X27. A request that validates and holds a lone surrogate in a string
    that the models do not check, in its arguments or its snapshot for one,
    cannot be hashed: the gate then does not reach the profile, and the
    decision it returns is the INTERNAL_ERROR one, with the digest of the
    raw bytes for request hash. *)
Theorem unhashable_request_is_internal_error env raw w d w' parsed request :
  execute env raw w = (Ok d, w') ->
  json_loads raw = Ok parsed ->
  ExecutionRequest.model_validate parsed = Ok request ->
  ~ text_ok (ExecutionRequest.model_dump request) ->
  ExecutionDecision.decision_type d = DENY
  /\ ExecutionDecision.reason_code d = INTERNAL_ERROR
  /\ ExecutionDecision.request_hash d = sha256_prefixed raw.
Proof.
  intros H EL0 EV0 NT. decision_cases H; try congruence.
  1,2,3: assert (obj = parsed) by congruence; subst obj;
    assert (req = request) by congruence; subst req;
    destruct NT; eapply hash_json_text; eassumption.
  apply deny_decision_inv in D as (prov & _ & ->). auto.
Qed.

Lemma surrogate_run_eq :
  execute example_env surrogate_request fresh_world = surrogate_run.
Proof. vm_compute. reflexivity. Qed.

Lemma unhashable_request_is_internal_error_witness :
  exists d w',
    execute example_env surrogate_request fresh_world = (Ok d, w')
    /\ ExecutionDecision.reason_code d = INTERNAL_ERROR
    /\ ExecutionDecision.request_hash d = sha256_prefixed surrogate_request.
Proof.
  pose proof surrogate_run_eq as E. unfold surrogate_run in E.
  match type of E with
  | _ = (Ok ?d, ?w) => exists d, w
  end.
  split; [exact E|].
  match eval cbv delta [surrogate_validated] in surrogate_validated with
  | Ok ?req =>
      refine (proj2 (unhashable_request_is_internal_error _ _ _ _ _
                       (JDict _) req E _ _ _));
      [ vm_compute; reflexivity
      | vm_compute; reflexivity
      | intros T; apply dumps_plain, plain_encodable in T;
        vm_compute in T; discriminate ]
  end.
Defined.
